(** * AI-Enhanced Minesweeper: board model and adaptive controller

    A shallow embedding of [board.py] and [ai_controller.py], and of the
    handling of mouse clicks and the scoring of [main.py].

    - Python integers are [Z]; grid coordinates are pairs of [Z].
    - A two-dimensional numpy array is a list of rows.  Indexing follows
      numpy: an index [i] with [-n <= i < 0] addresses entry [i + n], and
      an index outside [-n, n) raises [IndexError].
    - [Board.mine_positions], a Python [set] of tuples, is a [gset (Z * Z)].
    - Exceptions and recursion are made explicit by the [result] monad.
      The recursive flood fill takes a fuel argument, the number of nested
      calls the interpreter still allows; a call beyond it is Python's
      [RecursionError], the result [OutOfFuel].
    - Draws from [np.random] are arguments of the functions that make them. *)

From Stdlib Require Import ZArith Lia Bool.
From stdpp Require Import base tactics option list gmap sets sorting.

Local Open Scope Z_scope.

(** ** Results of fallible computations *)

Inductive exn : Set :=
  IndexError | KeyError | ValueError | StopIteration | ZeroDivisionError.

Inductive result (A : Type) : Type :=
| Ok (a : A)
| Raise (e : exn)
| OutOfFuel.

Arguments Ok {A} a.
Arguments Raise {A} e.
Arguments OutOfFuel {A}.

Definition bind {A B : Type} (m : result A) (k : A -> result B) : result B :=
  match m with
  | Ok a => k a
  | Raise e => Raise e
  | OutOfFuel => OutOfFuel
  end.

Notation "'let*' x := m 'in' k" := (bind m (fun x => k))
  (at level 10, x name, m at level 100, k at level 200).

(** [for x in l: s = body x s], stopping at the first exception. *)
Fixpoint for_each {A S : Type} (l : list A) (body : A -> S -> result S) (s : S)
  : result S :=
  match l with
  | [] => Ok s
  | a :: l' => let* s' := body a s in for_each l' body s'
  end.

(** Python's [range(lo, hi)] and [range(n)]. *)
Definition range2 (lo hi : Z) : list Z := seqZ lo (hi - lo).
Definition range (n : Z) : list Z := range2 0 n.

(** ** numpy arrays of rank two *)

Module Np.

Abbreviation ndarray A := (list (list A)) (only parsing).

(** Normalisation of one index against an axis of length [n]. *)
Definition norm_index (n : nat) (i : Z) : result nat :=
  if (0 <=? i) && (i <? Z.of_nat n) then Ok (Z.to_nat i)
  else if (- Z.of_nat n <=? i) && (i <? 0) then Ok (Z.to_nat (i + Z.of_nat n))
  else Raise IndexError.

(** [a[x][y]] *)
Definition getitem {A} (a : ndarray A) (x y : Z) : result A :=
  let* i := norm_index (length a) x in
  match a !! i with
  | None => Raise IndexError
  | Some row =>
      let* j := norm_index (length row) y in
      match row !! j with
      | None => Raise IndexError
      | Some v => Ok v
      end
  end.

(** [a[x][y] = v] *)
Definition setitem {A} (a : ndarray A) (x y : Z) (v : A) : result (ndarray A) :=
  let* i := norm_index (length a) x in
  match a !! i with
  | None => Raise IndexError
  | Some row =>
      let* j := norm_index (length row) y in
      Ok (<[i := <[j := v]> row]> a)
  end.

(** [np.zeros((h, w))] and friends; a negative dimension is a [ValueError]. *)
Definition full {A} (h w : Z) (v : A) : result (ndarray A) :=
  if (h <? 0) || (w <? 0) then Raise ValueError
  else Ok (replicate (Z.to_nat h) (replicate (Z.to_nat w) v)).

(** [a.fill(v)] *)
Definition fill {A} (a : ndarray A) (v : A) : ndarray A :=
  map (map (fun _ => v)) a.

(** [a == v], elementwise. *)
Definition eq_scalar (a : ndarray Z) (v : Z) : ndarray bool :=
  map (map (fun c => c =? v)) a.

(** [a | b], elementwise, for arrays of one shape. *)
Definition or_ (a b : ndarray bool) : ndarray bool :=
  zip_with (zip_with orb) a b.

(** [np.all(a == True)] *)
Definition all_true (a : ndarray bool) : bool :=
  forallb (forallb (fun c => eqb c true)) a.

(** [np.sum(a)] of a boolean array. *)
Definition count_true (a : ndarray bool) : Z :=
  fold_right (fun row acc => fold_right (fun c n => (if c : bool then 1 else 0) + n) 0 row + acc) 0 a.

(** The array has [h] rows of [w] entries. *)
Definition shape {A} (a : ndarray A) (h w : Z) : Prop :=
  0 <= h /\ 0 <= w /\
  length a = Z.to_nat h /\ Forall (fun row => length row = Z.to_nat w) a.

(** Total read, for stating properties: the entry at an in-range index,
    [d] where [getitem] raises. *)
Definition peek {A} (d : A) (a : ndarray A) (x y : Z) : A :=
  match getitem a x y with
  | Ok v => v
  | _ => d
  end.

End Np.

Definition in_bounds (h w x y : Z) : Prop := 0 <= x < h /\ 0 <= y < w.

(** ** Draws from [np.random] *)

Module Rng.

(** [k] entries taken from [pool] without replacement; draw [rnd k']
    selects among those that are left. *)
Fixpoint sample (pool : list Z) (k : nat) (rnd : nat -> nat) : list Z :=
  match k with
  | O => []
  | S k' =>
      let i := (rnd k' mod length pool)%nat in
      match pool !! i with
      | None => []
      | Some v => v :: sample (delete i pool) k' rnd
      end
  end.

(** [np.random.choice(n, k, replace=False)]: [k] distinct indices below
    [n]; a [ValueError] when [k] is negative, when more samples are asked
    than there are indices, or when a sample that is not empty is asked
    of an empty population.  The three tests are numpy's, in its order;
    which indices are drawn is up to the generator, here [rnd]
    (see [choice_complete]: every outcome is the one of some [rnd]). *)
Definition choice (n k : Z) (rnd : nat -> nat) : result (list Z) :=
  if (n <=? 0) && negb (k =? 0) then Raise ValueError
  else if n <? k then Raise ValueError
  else if k <? 0 then Raise ValueError
  else Ok (sample (range n) (Z.to_nat k) rnd).

(** [np.random.randint(n)] for [n > 0]. *)
Definition randint (n : nat) (r : nat) : nat := (r mod n)%nat.

End Rng.

(** ** board.py *)

Abbreviation cell := (Z * Z)%type (only parsing).

Record Board : Type := mkBoard {
  width : Z;
  height : Z;
  mine_count : Z;
  board : Np.ndarray Z;          (* -1 for mines, 0-8 for numbers *)
  revealed : Np.ndarray bool;
  flagged : Np.ndarray bool;
  mine_positions : gset cell
}.

Definition set_board (b : Board) (a : Np.ndarray Z) : Board :=
  mkBoard (width b) (height b) (mine_count b) a (revealed b) (flagged b)
          (mine_positions b).
Definition set_revealed (b : Board) (a : Np.ndarray bool) : Board :=
  mkBoard (width b) (height b) (mine_count b) (board b) a (flagged b)
          (mine_positions b).
Definition set_flagged (b : Board) (a : Np.ndarray bool) : Board :=
  mkBoard (width b) (height b) (mine_count b) (board b) (revealed b) a
          (mine_positions b).
Definition set_mine_positions (b : Board) (s : gset cell) : Board :=
  mkBoard (width b) (height b) (mine_count b) (board b) (revealed b)
          (flagged b) s.

(** [0 <= x < self.height and 0 <= y < self.width] *)
Definition inside (b : Board) (x y : Z) : bool :=
  (0 <=? x) && (x <? height b) && ((0 <=? y) && (y <? width b)).

(** [Board._count_adjacent_mines] *)
Definition count_adjacent_mines (b : Board) (x y : Z) : result Z :=
  for_each [-1; 0; 1] (fun dx =>
    for_each [-1; 0; 1] (fun dy count =>
      if (dx =? 0) && (dy =? 0) then Ok count
      else
        let new_x := x + dx in
        let new_y := y + dy in
        if inside b new_x new_y then
          let* v := Np.getitem (board b) new_x new_y in
          if v =? -1 then Ok (count + 1) else Ok count
        else Ok count)) 0.

(** [if self.board[x][y] != -1: self.board[x][y] = self._count_adjacent_mines(x, y)] *)
Definition recount_cell (x y : Z) (b : Board) : result Board :=
  let* v := Np.getitem (board b) x y in
  if negb (v =? -1) then
    let* c := count_adjacent_mines b x y in
    let* a := Np.setitem (board b) x y c in
    Ok (set_board b a)
  else Ok b.

(** [Board._update_numbers] *)
Definition update_numbers (b : Board) : result Board :=
  for_each (range (height b)) (fun x =>
    for_each (range (width b)) (fun y => recount_cell x y)) b.

(** [positions[idx]] on a Python list. *)
Definition list_getitem {A} (l : list A) (idx : Z) : result A :=
  let* i := Np.norm_index (length l) idx in
  match l !! i with
  | None => Raise IndexError
  | Some v => Ok v
  end.

(** [[(x, y) for x in range(h) for y in range(w)]] *)
Definition all_positions (h w : Z) : list cell :=
  x ← range h; y ← range w; [(x, y)].

(** [Board.initialize_board] *)
Definition initialize_board (b : Board) (rnd : nat -> nat) : result Board :=
  let b := set_board b (Np.fill (board b) 0) in
  let b := set_revealed b (Np.fill (revealed b) false) in
  let b := set_flagged b (Np.fill (flagged b) false) in
  let b := set_mine_positions b ∅ in
  let positions := all_positions (height b) (width b) in
  let* mine_indices := Rng.choice (Z.of_nat (length positions)) (mine_count b) rnd in
  let* chosen := for_each mine_indices (fun idx (s : gset cell) =>
              let* p := list_getitem positions idx in Ok (s ∪ {[p]})) ∅ in
  let* b := for_each positions (fun pos b =>
         if bool_decide (pos ∈ chosen) then
           let '(x, y) := pos in
           let* a := Np.setitem (board b) x y (-1) in
           Ok (set_mine_positions (set_board b a) (mine_positions b ∪ {[(x, y)]}))
         else Ok b) b in
  update_numbers b.

(** [Board.__init__] *)
Definition new_board (width height mine_count : Z) (rnd : nat -> nat)
  : result Board :=
  let* brd := Np.full height width 0 in
  let* rev := Np.full height width false in
  let* flg := Np.full height width false in
  initialize_board (mkBoard width height mine_count brd rev flg ∅) rnd.

(** State of a reveal: the board, and the cells whose [revealed] entry
    has been assigned [True] so far, latest first. *)
Abbreviation reveal_state := (Board * list cell)%type (only parsing).

(** [self.revealed[x][y] = True] *)
Definition mark_revealed (x y : Z) (s : reveal_state) : result reveal_state :=
  let* a := Np.setitem (revealed s.1) x y true in
  Ok (set_revealed s.1 a, (x, y) :: s.2).

(** [Board._reveal_adjacent]; [fuel] bounds the depth of the recursion:
    it is the number of nested calls the interpreter still allows, and a
    call beyond it, which raises [RecursionError] in Python, is
    [OutOfFuel]. *)
Fixpoint reveal_adjacent (fuel : nat) (x y : Z) (s : reveal_state)
  : result reveal_state :=
  match fuel with
  | O => OutOfFuel
  | S fuel' =>
      for_each [-1; 0; 1] (fun dx =>
        for_each [-1; 0; 1] (fun dy s =>
          if (dx =? 0) && (dy =? 0) then Ok s
          else
            let new_x := x + dx in
            let new_y := y + dy in
            if inside s.1 new_x new_y then
              let* r := Np.getitem (revealed s.1) new_x new_y in
              if negb r then
                let* f := Np.getitem (flagged s.1) new_x new_y in
                if negb f then
                  let* s := mark_revealed new_x new_y s in
                  let* v := Np.getitem (board s.1) new_x new_y in
                  if v =? 0 then reveal_adjacent fuel' new_x new_y s
                  else Ok s
                else Ok s
              else Ok s
            else Ok s)) s
  end.

(** [Board.reveal]: the returned boolean is [False] when a mine was hit. *)
Definition reveal (fuel : nat) (b : Board) (x y : Z)
  : result (bool * reveal_state) :=
  let* f := Np.getitem (flagged b) x y in
  if f then Ok (true, (b, []))
  else
    let* r := Np.getitem (revealed b) x y in
    if r then Ok (true, (b, []))
    else
      let* s := mark_revealed x y (b, []) in
      let* v := Np.getitem (board s.1) x y in
      if v =? -1 then Ok (false, s)
      else
        let* v := Np.getitem (board s.1) x y in
        if v =? 0 then
          let* s := reveal_adjacent fuel x y s in
          Ok (true, s)
        else Ok (true, s).

(** CPython's recursion limit, [sys.getrecursionlimit()], which the
    program leaves at its default: the call stack never holds more frames
    than this, the frames of the callers of [reveal] included. *)
Definition recursion_limit : nat := 1000.

(** [Board.toggle_flag] *)
Definition toggle_flag (b : Board) (x y : Z) : result Board :=
  let* r := Np.getitem (revealed b) x y in
  if negb r then
    let* f := Np.getitem (flagged b) x y in
    let* a := Np.setitem (flagged b) x y (negb f) in
    Ok (set_flagged b a)
  else Ok b.

(** [Board.is_won] *)
Definition is_won (b : Board) : bool :=
  Np.all_true (Np.or_ (revealed b) (Np.eq_scalar (board b) (-1))).

(** [Board.get_safe_moves] *)
Definition get_safe_moves (b : Board) : result (list cell) :=
  for_each (range (height b)) (fun x =>
    for_each (range (width b)) (fun y safe_moves =>
      let* r := Np.getitem (revealed b) x y in
      if negb r then
        let* f := Np.getitem (flagged b) x y in
        if negb f then
          let* v := Np.getitem (board b) x y in
          if negb (v =? -1) then Ok (safe_moves ++ [(x, y)])
          else Ok safe_moves
        else Ok safe_moves
      else Ok safe_moves)) [].

(** The rectangle of rows [x-1 .. x+1] and columns [y-1 .. y+1], clipped
    to the grid, in which [reposition_mine] refreshes the numbers. *)
Definition recount_around (x y : Z) (b : Board) : result Board :=
  for_each (range2 (Z.max 0 (x - 1)) (Z.min (height b) (x + 2))) (fun x' =>
    for_each (range2 (Z.max 0 (y - 1)) (Z.min (width b) (y + 2))) (fun y' =>
      recount_cell x' y')) b.

(** [Board.reposition_mine] *)
Definition reposition_mine (b : Board) (from_pos to_pos : cell) : result Board :=
  let '(x1, y1) := from_pos in
  let '(x2, y2) := to_pos in
  let* v1 := Np.getitem (board b) x1 y1 in
  if negb (v1 =? -1) then Ok b
  else
    let* v2 := Np.getitem (board b) x2 y2 in
    if v2 =? -1 then Ok b
    else
      let* a := Np.setitem (board b) x1 y1 0 in
      let* a := Np.setitem a x2 y2 (-1) in
      let* s := (if bool_decide ((x1, y1) ∈ mine_positions b)
                 then Ok (mine_positions b ∖ {[(x1, y1)]})
                 else Raise KeyError) in
      let b := set_mine_positions (set_board b a) (s ∪ {[(x2, y2)]}) in
      let* b := recount_around x1 y1 b in
      recount_around x2 y2 b.

(** ** ai_controller.py *)

(** [AIController._manhattan_distance] *)
Definition manhattan_distance (pos1 pos2 : cell) : Z :=
  Z.abs (pos1.1 - pos2.1) + Z.abs (pos1.2 - pos2.2).

(** [AIController._are_moves_clustered]: [all] over the pairs [i < j] stops
    at the first pair that is too far apart. *)
Definition are_moves_clustered (moves : list cell) : result bool :=
  let n := Z.of_nat (length moves) in
  for_each (range n) (fun i =>
    for_each (range2 (i + 1) n) (fun j (so_far : bool) =>
      if so_far then
        let* mi := list_getitem moves i in
        let* mj := list_getitem moves j in
        Ok (manhattan_distance mi mj <=? 3)
      else Ok false)) true.

(** Python's [sum] of integers. *)
Definition sum_Z (l : list Z) : Z := fold_left Z.add l 0.

(** [AIController._get_cluster_center]; [//] is the floor division. *)
Definition get_cluster_center (moves : list cell) : result cell :=
  let n := Z.of_nat (length moves) in
  if n =? 0 then Raise ZeroDivisionError
  else Ok (sum_Z (map fst moves) / n, sum_Z (map snd moves) / n).

(** [moves[-3:]] *)
Definition last3 {A} (l : list A) : list A := drop (length l - 3) l.

(** [[(x, y) for x in range(h) for y in range(w) if not revealed[x][y]]] *)
Definition unrevealed_cells (b : Board) : result (list cell) :=
  for_each (range (height b)) (fun x =>
    for_each (range (width b)) (fun y acc =>
      let* r := Np.getitem (revealed b) x y in
      if negb r then Ok (acc ++ [(x, y)]) else Ok acc)) [].

(** [AIController._find_safe_transformation_spot]; [r] is the draw of
    [np.random.randint]. *)
Definition find_safe_transformation_spot (b : Board) (r : nat) : result cell :=
  let* candidates :=
    for_each (range (height b)) (fun x =>
      for_each (range (width b)) (fun y acc =>
        let* rv := Np.getitem (revealed b) x y in
        if negb rv && negb (bool_decide ((x, y) ∈ mine_positions b))
        then Ok (acc ++ [(x, y)]) else Ok acc)) [] in
  match candidates with
  | [] => Ok (0, 0)  (* Fallback position *)
  | _ => list_getitem candidates (Z.of_nat (Rng.randint (length candidates) r))
  end.

(** [next(iter(s))] on a set: which element comes first is up to the
    interpreter; [r] decides. *)
Definition first_of_set (s : gset cell) (r : nat) : result cell :=
  match elements s with
  | [] => Raise StopIteration
  | l => list_getitem l (Z.of_nat (r mod length l))
  end.

(** [AIController._transform_random_tile].  [r_pick] and [r_spot] are the
    draws of [np.random.randint], [coin] is the outcome of
    [np.random.random() < 0.3 * self.difficulty_factor], and [r_first]
    the choice of [next(iter(...))]. *)
Definition transform_random_tile (b : Board)
           (r_pick r_spot r_first : nat) (coin : bool) : result Board :=
  let* unrevealed := unrevealed_cells b in
  match unrevealed with
  | [] => Ok b
  | _ =>
      let* p := list_getitem unrevealed
                  (Z.of_nat (Rng.randint (length unrevealed) r_pick)) in
      if bool_decide (p ∈ mine_positions b) then
        (* Transform mine to safe tile *)
        let* spot := find_safe_transformation_spot b r_spot in
        reposition_mine b p spot
      else if coin then
        (* Transform safe tile to mine *)
        let* old_mine_pos := first_of_set (mine_positions b) r_first in
        reposition_mine b old_mine_pos p
      else Ok b
  end.

Section Controller.

(** Python floats, their arithmetic and their comparison [<]; [fhalf] is
    the literal [0.5] and [of_int] the conversion of an integer. *)
Variable F : Type.
Variables (fzero fhalf : F) (fadd fmul : F -> F -> F).
Variable of_int : Z -> F.
Variable flt : F -> F -> bool.

Record AIController : Type := mkAI {
  move_history : list cell;
  danger_zones : list cell;
  difficulty_factor : F;
  transform_probability : F
}.

Definition set_danger_zones (ai : AIController) (z : list cell) : AIController :=
  mkAI (move_history ai) z (difficulty_factor ai) (transform_probability ai).

(** [AIController._update_danger_zones] *)
Definition update_danger_zones (ai : AIController) (x y : Z) : result AIController :=
  let ai := set_danger_zones ai
              (List.filter (fun pos => manhattan_distance pos (x, y) <=? 5)
                           (danger_zones ai)) in
  if 3 <=? Z.of_nat (length (move_history ai)) then
    let recent_moves := last3 (move_history ai) in
    let* clustered := are_moves_clustered recent_moves in
    if clustered then
      let* center := get_cluster_center recent_moves in
      if negb (bool_decide (center ∈ danger_zones ai))
      then Ok (set_danger_zones ai (danger_zones ai ++ [center]))
      else Ok ai
    else Ok ai
  else Ok ai.

(** [AIController.record_move] *)
Definition record_move (ai : AIController) (x y : Z) : result AIController :=
  let ai := mkAI (move_history ai ++ [(x, y)]) (danger_zones ai)
                 (difficulty_factor ai) (transform_probability ai) in
  update_danger_zones ai x y.

(** [AIController._calculate_move_risk] on the board [b] the controller
    holds. *)
Definition calculate_move_risk (ai : AIController) (b : Board) (move : cell)
  : result F :=
  let '(x, y) := move in
  let risk_score := fzero in
  let* risk_score :=
    for_each (danger_zones ai) (fun zone risk_score =>
      let distance := manhattan_distance move zone in
      if distance <=? 3
      then Ok (fadd risk_score (fmul (of_int (4 - distance)) (difficulty_factor ai)))
      else Ok risk_score) risk_score in
  for_each [-1; 0; 1] (fun dx =>
    for_each [-1; 0; 1] (fun dy risk_score =>
      let new_x := x + dx in
      let new_y := y + dy in
      if inside b new_x new_y then
        let* r := Np.getitem (revealed b) new_x new_y in
        if r then
          let* v := Np.getitem (board b) new_x new_y in
          Ok (fadd risk_score (fmul (of_int v) fhalf))
        else Ok risk_score
      else Ok risk_score)) risk_score.

(** Python's [min(l, key=key)]: the first of the least items. *)
Definition py_min {A} (key : A -> F) (l : list A) : result A :=
  match l with
  | [] => Raise ValueError
  | a :: l' =>
      Ok (fold_left (fun best item => if flt (key item) (key best) then item else best)
                    l' a)
  end.

(** [AIController.get_hint] *)
Definition get_hint (ai : AIController) (b : Board) : result (option cell) :=
  let* safe_moves := get_safe_moves b in
  match safe_moves with
  | [] => Ok None
  | _ =>
      let* move_scores :=
        for_each safe_moves (fun move move_scores =>
          let* score := calculate_move_risk ai b move in
          Ok (move_scores ++ [(score, move)])) [] in
      let* best := py_min fst move_scores in
      Ok (Some best.2)
  end.

End Controller.

Arguments mkAI {F} _ _ _ _.
Arguments move_history {F} _.
Arguments danger_zones {F} _.
Arguments difficulty_factor {F} _.
Arguments transform_probability {F} _.
Arguments set_danger_zones {F} _ _.
Arguments update_danger_zones {F} _ _ _.
Arguments record_move {F} _ _ _.
Arguments calculate_move_risk {F} _ _ _ _ _ _ _ _.
Arguments py_min {F} _ {A} _ _.
Arguments get_hint {F} _ _ _ _ _ _ _ _.

(** ** ai_controller.py: the update of the board after a move *)

(** [AIController._move_mine_to_danger_zone].  [order s] is [list(s)] for
    a set [s]: which element comes when is up to the interpreter.  The
    state of the loops is [None] while the search goes on and [Some b']
    once the function has returned, leaving the board [b']. *)
Definition move_mine_to_danger_zone (order : gset cell -> list cell)
           (b : Board) (zone : cell) : result Board :=
  let '(x, y) := zone in
  let* st :=
    for_each (order (mine_positions b)) (fun mine_pos (st : option Board) =>
      match st with
      | Some _ => Ok st
      | None =>
          if 5 <? manhattan_distance mine_pos zone then
            (* Find a suitable position near the danger zone *)
            for_each (range2 (-2) 3) (fun dx =>
              for_each (range2 (-2) 3) (fun dy (st : option Board) =>
                match st with
                | Some _ => Ok st
                | None =>
                    let new_x := x + dx in
                    let new_y := y + dy in
                    if inside b new_x new_y then
                      let* r := Np.getitem (revealed b) new_x new_y in
                      if negb r
                         && negb (bool_decide ((new_x, new_y) ∈ mine_positions b))
                      then
                        let* b' := reposition_mine b mine_pos (new_x, new_y) in
                        Ok (Some b')
                      else Ok None
                    else Ok None
                end)) None
          else Ok None
      end) None in
  Ok (match st with Some b' => b' | None => b end).

(** [AIController._handle_tile_transformation]; [go] is the outcome of
    [np.random.random() < self.transform_probability]. *)
Definition handle_tile_transformation (b : Board) (go : bool)
           (r_pick r_spot r_first : nat) (coin : bool) : result Board :=
  if go then transform_random_tile b r_pick r_spot r_first coin else Ok b.

(** The draws of one call of [update_board_state]. *)
Record draws : Type := mkDraws {
  zone_coin : nat -> bool;  (* for the n-th danger zone:
                               [np.random.random() < 0.2 * self.difficulty_factor] *)
  transform_coin : bool;    (* [np.random.random() < self.transform_probability] *)
  pick_draw : nat;          (* [np.random.randint(len(unrevealed))] *)
  spot_draw : nat;          (* [np.random.randint(len(candidates))] *)
  first_draw : nat;         (* [next(iter(self.board.mine_positions))] *)
  mine_coin : bool          (* [np.random.random() < 0.3 * self.difficulty_factor] *)
}.

Section Adaptive.

(** Python floats as in [Controller]; [f0_1], [f0_5], [f0_8], [f1_0] and
    [f2_0] are the literals [0.1], [0.5], [0.8], [1.0] and [2.0], [fdiv]
    is the true division. *)
Variable F : Type.
Variables (f0_1 f0_5 f0_8 f1_0 f2_0 : F) (fadd fsub fdiv : F -> F -> F).
Variable of_int : Z -> F.
Variable flt : F -> F -> bool.

(** [AIController.__init__] *)
Definition new_controller : AIController F := mkAI [] [] f1_0 f0_1.

Definition set_difficulty_factor (ai : AIController F) (d : F) : AIController F :=
  mkAI (move_history ai) (danger_zones ai) d (transform_probability ai).

(** [AIController._handle_mine_movement] on the board [b] the controller
    holds; [coins n] is the outcome of the draw for the [n]-th zone. *)
Definition handle_mine_movement (order : gset cell -> list cell)
           (coins : nat -> bool) (ai : AIController F) (b : Board) : result Board :=
  for_each (imap (fun n zone => (zone, coins n)) (danger_zones ai))
           (fun zc b => if zc.2 : bool then move_mine_to_danger_zone order b zc.1
                        else Ok b) b.

(** Python's [min(a, b)] and [max(a, b)]: the first argument unless the
    second is smaller, respectively greater. *)
Definition py_min2 (a b : F) : F := if flt b a then b else a.
Definition py_max2 (a b : F) : F := if flt a b then b else a.

(** [AIController._adjust_difficulty] *)
Definition adjust_difficulty (ai : AIController F) (b : Board)
  : result (AIController F) :=
  let revealed_count := Np.count_true (revealed b) in
  if 0 <? revealed_count then
    let* successes :=
      for_each (move_history ai) (fun m (n : Z) =>
        let '(x, y) := m in
        let* v := Np.getitem (board b) x y in
        if negb (v =? -1) then Ok (n + 1) else Ok n) 0 in
    let success_rate := fdiv (of_int successes) (of_int revealed_count) in
    if flt f0_8 success_rate then
      Ok (set_difficulty_factor ai (py_min2 f2_0 (fadd (difficulty_factor ai) f0_1)))
    else if flt success_rate f0_5 then
      Ok (set_difficulty_factor ai (py_max2 f0_5 (fsub (difficulty_factor ai) f0_1)))
    else Ok ai
  else Ok ai.

(** [AIController.update_board_state]: the board the controller holds
    and the controller, after the three steps. *)
Definition update_board_state (order : gset cell -> list cell) (d : draws)
           (ai : AIController F) (b : Board) : result (Board * AIController F) :=
  let* b := handle_mine_movement order (zone_coin d) ai b in
  let* b := handle_tile_transformation b (transform_coin d) (pick_draw d)
              (spot_draw d) (first_draw d) (mine_coin d) in
  let* ai := adjust_difficulty ai b in
  Ok (b, ai).

End Adaptive.

Arguments new_controller {F} _ _.
Arguments set_difficulty_factor {F} _ _.
Arguments handle_mine_movement {F} _ _ _ _.
Arguments py_min2 {F} _ _ _.
Arguments py_max2 {F} _ _ _.
Arguments adjust_difficulty {F} _ _ _ _ _ _ _ _ _ _ _.
Arguments update_board_state {F} _ _ _ _ _ _ _ _ _ _ _ _ _.

(** ** main.py *)

Definition TILE_SIZE : Z := 40.
Definition HEADER_HEIGHT : Z := 60.

(** The values of [Game.difficulty]: "Easy", "Medium" and "Hard". *)
Inductive level : Set := Easy | Medium | Hard.

Section Game.

(** Python floats, as in [Adaptive]. *)
Variable F : Type.
Variables (f0_1 f0_5 f0_8 f2_0 : F) (fadd fsub fdiv : F -> F -> F).
Variable of_int : Z -> F.
Variable flt : F -> F -> bool.

(** The state of a [Game], without the window and the fonts.  The board
    of the game and the board its controller holds are one object:
    [the_board]. *)
Record Game : Type := mkGame {
  the_board : Board;
  the_ai : AIController F;
  flag_mode : bool;
  game_over : bool;
  won : bool;
  hint_cooldown : Z;
  show_hint : bool;
  hint_position : option cell;
  game_started : bool;
  score : Z;
  start_time : Z;
  best_score : Z;
  difficulty : level
}.

Definition set_the_board (g : Game) (b : Board) : Game :=
  mkGame b (the_ai g) (flag_mode g) (game_over g) (won g) (hint_cooldown g)
         (show_hint g) (hint_position g) (game_started g) (score g)
         (start_time g) (best_score g) (difficulty g).
Definition set_the_ai (g : Game) (ai : AIController F) : Game :=
  mkGame (the_board g) ai (flag_mode g) (game_over g) (won g) (hint_cooldown g)
         (show_hint g) (hint_position g) (game_started g) (score g)
         (start_time g) (best_score g) (difficulty g).
Definition set_game_over (g : Game) (v : bool) : Game :=
  mkGame (the_board g) (the_ai g) (flag_mode g) v (won g) (hint_cooldown g)
         (show_hint g) (hint_position g) (game_started g) (score g)
         (start_time g) (best_score g) (difficulty g).
Definition set_won (g : Game) (v : bool) : Game :=
  mkGame (the_board g) (the_ai g) (flag_mode g) (game_over g) v (hint_cooldown g)
         (show_hint g) (hint_position g) (game_started g) (score g)
         (start_time g) (best_score g) (difficulty g).
Definition set_hint_cooldown (g : Game) (v : Z) : Game :=
  mkGame (the_board g) (the_ai g) (flag_mode g) (game_over g) (won g) v
         (show_hint g) (hint_position g) (game_started g) (score g)
         (start_time g) (best_score g) (difficulty g).
Definition set_score (g : Game) (v : Z) : Game :=
  mkGame (the_board g) (the_ai g) (flag_mode g) (game_over g) (won g)
         (hint_cooldown g) (show_hint g) (hint_position g) (game_started g) v
         (start_time g) (best_score g) (difficulty g).
Definition set_best_score (g : Game) (v : Z) : Game :=
  mkGame (the_board g) (the_ai g) (flag_mode g) (game_over g) (won g)
         (hint_cooldown g) (show_hint g) (hint_position g) (game_started g)
         (score g) (start_time g) v (difficulty g).

(** The block of [Game.handle_events] for a [MOUSEBUTTONDOWN] event while
    the game is not over: [pos] is [event.pos], [button] is
    [event.button]; [order] and [d] are what [update_board_state] draws. *)
Definition mouse_button_down (fuel : nat) (order : gset cell -> list cell)
           (d : draws) (g : Game) (pos : Z * Z) (button : Z) : result Game :=
  let '(x, y) := pos in
  let board_y := (y - HEADER_HEIGHT) / TILE_SIZE in
  let board_x := x / TILE_SIZE in
  if ((0 <=? board_y) && (board_y <? height (the_board g)))
     && ((0 <=? board_x) && (board_x <? width (the_board g))) then
    if button =? 1 then  (* Left click *)
      if flag_mode g then
        let* b := toggle_flag (the_board g) board_x board_y in
        Ok (set_the_board g b)
      else
        let* f := Np.getitem (flagged (the_board g)) board_x board_y in
        if negb f then
          let* r := reveal fuel (the_board g) board_x board_y in
          let g := set_the_board g r.2.1 in
          if negb r.1 then Ok (set_game_over g true)
          else
            let* ai := record_move (the_ai g) board_x board_y in
            let* s := update_board_state f0_1 f0_5 f0_8 f2_0 fadd fsub fdiv
                        of_int flt order d ai (the_board g) in
            let g := set_the_ai (set_the_board g s.1) s.2 in
            Ok (set_score g (score g + 10))
        else Ok g
    else if button =? 3 then  (* Right click still works too *)
      let* b := toggle_flag (the_board g) board_x board_y in
      let g := set_the_board g b in
      let* f := Np.getitem (flagged (the_board g)) board_x board_y in
      if f then Ok (set_score g (score g + 5)) else Ok g
    else Ok g
  else Ok g.

(** [Game.update]; [ticks] is [pygame.time.get_ticks()]. *)
Definition update (ticks : Z) (g : Game) : Game :=
  let g := if 0 <? hint_cooldown g
           then set_hint_cooldown g (hint_cooldown g - 1) else g in
  if negb (game_over g) && game_started g then
    let g := set_won g (is_won (the_board g)) in
    if won g then
      let g := set_game_over g true in
      (* Calculate final score based on time *)
      let time_taken := (ticks - start_time g) / 1000 in
      let time_bonus := Z.max 0 (1000 - time_taken) in
      let g := set_score g (score g + time_bonus) in
      (* Update best score *)
      if best_score g <? score g then set_best_score g (score g) else g
    else g
  else g.

End Game.

Arguments mkGame {F} _ _ _ _ _ _ _ _ _ _ _ _ _.
Arguments the_board {F} _.
Arguments the_ai {F} _.
Arguments flag_mode {F} _.
Arguments game_over {F} _.
Arguments won {F} _.
Arguments hint_cooldown {F} _.
Arguments show_hint {F} _.
Arguments hint_position {F} _.
Arguments game_started {F} _.
Arguments score {F} _.
Arguments start_time {F} _.
Arguments best_score {F} _.
Arguments difficulty {F} _.
Arguments set_the_board {F} _ _.
Arguments set_the_ai {F} _ _.
Arguments set_game_over {F} _ _.
Arguments set_won {F} _ _.
Arguments set_hint_cooldown {F} _ _.
Arguments set_score {F} _ _.
Arguments set_best_score {F} _ _.
Arguments mouse_button_down {F} _ _ _ _ _ _ _ _ _ _ _ _ _ _ _.
Arguments update {F} _ _.

(** * Definitions used to state the properties *)

(** The array after [a[x][y] = v], for an index in range. *)
Definition poke {A} (a : list (list A)) (x y : Z) (v : A) : list (list A) :=
  match a !! Z.to_nat x with
  | Some row => <[Z.to_nat x := <[Z.to_nat y := v]> row]> a
  | None => a
  end.

(** The three arrays of a board have its dimensions. *)
Definition wf (b : Board) : Prop :=
  Np.shape (board b) (height b) (width b) /\
  Np.shape (revealed b) (height b) (width b) /\
  Np.shape (flagged b) (height b) (width b).

Definition on_grid (b : Board) (x y : Z) : Prop :=
  in_bounds (height b) (width b) x y.

(** Reads of a cell of the grid. *)
Definition val (b : Board) (x y : Z) : Z := Np.peek 0 (board b) x y.
Definition is_revealed (b : Board) (x y : Z) : bool := Np.peek false (revealed b) x y.
Definition is_flagged (b : Board) (x y : Z) : bool := Np.peek false (flagged b) x y.

(** 1 when [(x, y)] is a cell of the grid that holds a mine, else 0. *)
Definition mine_at (b : Board) (x y : Z) : Z :=
  if inside b x y && (val b x y =? -1) then 1 else 0.

(** The number of mines among the eight neighbours of [(x, y)] that lie
    on the grid. *)
Definition mines_around (b : Board) (x y : Z) : Z :=
  0 + mine_at b (x + -1) (y + -1) + mine_at b (x + -1) (y + 0)
    + mine_at b (x + -1) (y + 1)
    + mine_at b (x + 0) (y + -1) + mine_at b (x + 0) (y + 1)
    + mine_at b (x + 1) (y + -1) + mine_at b (x + 1) (y + 0)
    + mine_at b (x + 1) (y + 1).

(** [c] lies in the 3x3 block centred at [p]. *)
Definition near (p c : cell) : Prop :=
  -1 <= c.1 - p.1 <= 1 /\ -1 <= c.2 - p.2 <= 1.

(** [c] is one of the eight neighbours of [p]. *)
Definition adjacent (p c : cell) : Prop := c <> p /\ near p c.

Global Instance near_dec p c : Decision (near p c).
Proof. unfold near. apply _. Defined.

Global Instance adjacent_dec p c : Decision (adjacent p c).
Proof. unfold adjacent. apply _. Defined.

(** Every cell that is not a mine stores the number of mines around it. *)
Definition numbers_ok (b : Board) : Prop :=
  forall x y, on_grid b x y -> val b x y <> -1 -> val b x y = mines_around b x y.

(** The mine set is the set of the cells of the grid whose value is -1. *)
Definition mines_mirror (b : Board) : Prop :=
  forall p : cell, p ∈ mine_positions b <-> on_grid b p.1 p.2 /\ val b p.1 p.2 = -1.

Record consistent (b : Board) : Prop := mkConsistent {
  cons_wf : wf b;
  cons_numbers : numbers_ok b;
  cons_mirror : mines_mirror b;
  cons_count : Z.of_nat (size (mine_positions b)) = mine_count b
}.

(** The board after [self.revealed[x][y] = True]. *)
Definition marked (b : Board) (x y : Z) : Board :=
  set_revealed b (poke (revealed b) x y true).

(** The number of cells of the grid that are not revealed. *)
Definition hidden (b : Board) : nat :=
  length (filter (fun p : cell => is_revealed b p.1 p.2 = false)
                 (all_positions (height b) (width b))).

(** [b'] is [b] with some more cells revealed, and nothing else changed. *)
Record grows (b b' : Board) : Prop := mkGrows {
  g_width : width b' = width b;
  g_height : height b' = height b;
  g_count : mine_count b' = mine_count b;
  g_board : board b' = board b;
  g_flagged : flagged b' = flagged b;
  g_mines : mine_positions b' = mine_positions b;
  g_shape : Np.shape (revealed b') (height b) (width b);
  g_mono : forall x y, on_grid b x y ->
             is_revealed b x y = true -> is_revealed b' x y = true
}.

(** A cell that a flood fill may mark. *)
Definition open (b : Board) (c : cell) : Prop :=
  on_grid b c.1 c.2 /\ is_revealed b c.1 c.2 = false /\ is_flagged b c.1 c.2 = false.

(** The cells a flood fill started around [p] gets to: the open neighbours
    of [p], and the open neighbours of every cell with number 0 it got to. *)
Inductive flood (b : Board) (p : cell) : cell -> Prop :=
| flood_first c : adjacent p c -> open b c -> flood b p c
| flood_next c c' :
    flood b p c -> val b c.1 c.2 = 0 -> adjacent c c' -> open b c' ->
    flood b p c'.

(** The offsets in the order of the two loops. *)
Definition offsets : list cell := dx ← [-1; 0; 1]; dy ← [-1; 0; 1]; [(dx, dy)].

(** The effect of a run of [_reveal_adjacent] around [p] that has dealt
    with the offsets [done]: from state [s] it reached [s'], having
    marked the cells [log], none twice, all of them cells the flood fill
    may get to; the neighbours at the offsets [done] are dealt with, and
    so are all neighbours of every marked cell with number 0. *)
Definition filled (p : cell) (done : list cell) (s s' : reveal_state) : Prop :=
  grows s.1 s'.1 /\
  exists log : list cell,
    s'.2 = log ++ s.2 /\
    NoDup log /\
    (forall c : cell, c ∈ log <->
       on_grid s.1 c.1 c.2 /\ is_revealed s.1 c.1 c.2 = false /\
       is_revealed s'.1 c.1 c.2 = true) /\
    (forall c : cell, c ∈ log -> flood s.1 p c) /\
    (forall d : cell, d ∈ done -> d <> (0, 0) ->
       on_grid s.1 (p.1 + d.1) (p.2 + d.2) ->
       is_flagged s.1 (p.1 + d.1) (p.2 + d.2) = false ->
       is_revealed s'.1 (p.1 + d.1) (p.2 + d.2) = true) /\
    (forall c : cell, c ∈ log -> val s.1 c.1 c.2 = 0 ->
       forall n : cell, adjacent c n -> on_grid s.1 n.1 n.2 ->
         is_flagged s.1 n.1 n.2 = false -> is_revealed s'.1 n.1 n.2 = true).

(** The body of the two loops of [_reveal_adjacent], for one offset. *)
Definition visit (fuel' : nat) (x y dx dy : Z) (s : reveal_state)
  : result reveal_state :=
  if (dx =? 0) && (dy =? 0) then Ok s
  else
    let new_x := x + dx in
    let new_y := y + dy in
    if inside s.1 new_x new_y then
      let* r := Np.getitem (revealed s.1) new_x new_y in
      if negb r then
        let* f := Np.getitem (flagged s.1) new_x new_y in
        if negb f then
          let* s := mark_revealed new_x new_y s in
          let* v := Np.getitem (board s.1) new_x new_y in
          if v =? 0 then reveal_adjacent fuel' new_x new_y s
          else Ok s
        else Ok s
      else Ok s
    else Ok s.

(** The cells that [reveal] at [p] marks: [p] itself, and the open
    neighbours of every cell with number 0 among them. *)
Inductive cleared (b : Board) (p : cell) : cell -> Prop :=
| cleared_here : cleared b p p
| cleared_next c c' :
    cleared b p c -> val b c.1 c.2 = 0 -> adjacent c c' -> open b c' ->
    cleared b p c'.

(** A 3x3 grid with its one mine in the corner (0, 0), and the same grid
    without the mine. *)
Definition corner_mine_board : Board :=
  mkBoard 3 3 1 [[-1; 1; 0]; [1; 1; 0]; [0; 0; 0]]
          (replicate 3 (replicate 3 false)) (replicate 3 (replicate 3 false))
          {[(0, 0)]}.

Definition empty_board : Board :=
  mkBoard 3 3 0 (replicate 3 (replicate 3 0))
          (replicate 3 (replicate 3 false)) (replicate 3 (replicate 3 false)) ∅.

(** The mutators of a board that a game calls after construction. *)
Inductive op : Type :=
| Reveal (x y : Z)
| ToggleFlag (x y : Z)
| RepositionMine (from_pos to_pos : cell).

Definition apply_op (fuel : nat) (o : op) (b : Board) : result Board :=
  match o with
  | Reveal x y => let* r := reveal fuel b x y in Ok r.2.1
  | ToggleFlag x y => toggle_flag b x y
  | RepositionMine from_pos to_pos => reposition_mine b from_pos to_pos
  end.

Definition run (fuel : nat) (ops : list op) (b : Board) : result Board :=
  for_each ops (apply_op fuel) b.

(** The coordinates of an operation are cells of an [h] by [w] grid. *)
Definition op_in_bounds (h w : Z) (o : op) : Prop :=
  match o with
  | Reveal x y => in_bounds h w x y
  | ToggleFlag x y => in_bounds h w x y
  | RepositionMine from_pos to_pos =>
      in_bounds h w from_pos.1 from_pos.2 /\ in_bounds h w to_pos.1 to_pos.2
  end.

(** The candidates of [_find_safe_transformation_spot]. *)
Definition spot_candidates (b : Board) : list cell :=
  List.filter (fun c : cell => negb (is_revealed b c.1 c.2)
                               && negb (bool_decide (c ∈ mine_positions b)))
              (all_positions (height b) (width b)).

(** [c'] comes before [c] when the cells of a grid are enumerated row by
    row. *)
Definition row_major_before (c' c : cell) : Prop :=
  c'.1 < c.1 \/ (c'.1 = c.1 /\ c'.2 < c.2).

(** The eight neighbours of a cell, in the order of the loops. *)
Definition neighbours8 (c : cell) : list cell :=
  map (fun d : cell => (c.1 + d.1, c.2 + d.2))
      [(-1, -1); (-1, 0); (-1, 1); (0, -1); (0, 1); (1, -1); (1, 0); (1, 1)].

(** The cells of the grid next to [(x, y)] that hold a mine. *)
Definition mine_neighbours (b : Board) (x y : Z) : list cell :=
  filter (fun c : cell => adjacent (x, y) c /\ val b c.1 c.2 = -1)
         (all_positions (height b) (width b)).

(** A cell [get_hint] may propose. *)
Definition safe_cell (b : Board) (c : cell) : Prop :=
  on_grid b c.1 c.2 /\ is_revealed b c.1 c.2 = false /\
  is_flagged b c.1 c.2 = false /\ val b c.1 c.2 <> -1.

Section Score.

(** Python floats and their arithmetic, as in [Controller]. *)
Variable F : Type.
Variables (fzero fhalf : F) (fadd fmul : F -> F -> F).
Variable of_int : Z -> F.

(** The sum of a list of floats, added from the left to 0.0. *)
Definition fsum (l : list F) : F := fold_left fadd l fzero.

(** The risk score in the words of the specification: for every danger
    zone within distance 3, [(4 - distance) * difficulty]; for every
    revealed neighbour on the grid, its value times 0.5. *)
Definition zone_terms (ai : AIController F) (c : cell) : list F :=
  map (fun z => fmul (of_int (4 - manhattan_distance c z)) (difficulty_factor ai))
      (List.filter (fun z => manhattan_distance c z <=? 3) (danger_zones ai)).

Definition neighbour_terms (b : Board) (c : cell) : list F :=
  map (fun n : cell => fmul (of_int (val b n.1 n.2)) fhalf)
      (List.filter (fun n : cell => inside b n.1 n.2 && is_revealed b n.1 n.2)
                   (neighbours8 c)).

Definition risk_score (ai : AIController F) (b : Board) (c : cell) : F :=
  fsum (zone_terms ai c ++ neighbour_terms b c).

End Score.

Arguments fsum {F} _ _ _.
Arguments zone_terms {F} _ _ _ _.
Arguments neighbour_terms {F} _ _ _ _ _.
Arguments risk_score {F} _ _ _ _ _ _ _ _.

(** No cell is both revealed and flagged. *)
Definition exclusive (b : Board) : Prop :=
  forall x y, on_grid b x y -> is_revealed b x y = true -> is_flagged b x y = false.

(** [b'] differs from [b] in the mine layout at most: dimensions, mine
    count and the two masks are those of [b]. *)
Record same_masks (b b' : Board) : Prop := mkSameMasks {
  sm_width : width b' = width b;
  sm_height : height b' = height b;
  sm_count : mine_count b' = mine_count b;
  sm_revealed : revealed b' = revealed b;
  sm_flagged : flagged b' = flagged b
}.

(** No cell that is revealed in [b] has become a mine in [b']. *)
Definition no_mine_surfaced (b b' : Board) : Prop :=
  forall x y, on_grid b x y -> is_revealed b x y = true ->
    val b' x y = -1 -> val b x y = -1.

(** A cell a mine may drift to around a danger zone: a hidden cell of the
    grid without a mine, at most two rows and two columns from the zone. *)
Definition drift_target (b : Board) (zone c : cell) : Prop :=
  on_grid b c.1 c.2 /\ -2 <= c.1 - zone.1 <= 2 /\ -2 <= c.2 - zone.2 <= 2 /\
  is_revealed b c.1 c.2 = false /\ c ∉ mine_positions b.

(** The cells of the 5x5 block centred at a zone, in the order of the
    loops of [_move_mine_to_danger_zone]. *)
Definition drift_block (zone : cell) : list cell :=
  map (fun d : cell => (zone.1 + d.1, zone.2 + d.2))
      (dx ← range2 (-2) 3; dy ← range2 (-2) 3; [(dx, dy)]).

(** The drift targets of a zone, in that order. *)
Definition drift_targets (b : Board) (zone : cell) : list cell :=
  List.filter (fun c : cell => inside b c.1 c.2 && negb (is_revealed b c.1 c.2)
                               && negb (bool_decide (c ∈ mine_positions b)))
              (drift_block zone).

(** The mines farther than 5 from a zone, in the order in which the
    interpreter lists the mine set. *)
Definition far_mines (order : gset cell -> list cell) (b : Board) (zone : cell)
  : list cell :=
  List.filter (fun m => 5 <? manhattan_distance m zone) (order (mine_positions b)).

(** One step of a loop that returns at the first item that passes a
    test: [None] while the search goes on, [Some r] once [act] has
    returned [r]. *)
Definition first_hit {A R} (test : A -> bool) (act : A -> result R)
           (a : A) (st : option R) : result (option R) :=
  match st with
  | Some _ => Ok st
  | None => if test a then let* r := act a in Ok (Some r) else Ok None
  end.

(** The difficulty factor [d] lies between the literals 0.5 and 2.0. *)
Definition in_range {F} (f0_5 f2_0 : F) (flt : F -> F -> bool) (d : F) : Prop :=
  flt d f0_5 = false /\ flt f2_0 d = false.

(** What every click keeps true of a game on a square board: the board is
    consistent and holds a mine, the recorded moves are cells of the
    grid, and the difficulty factor lies between 0.5 and 2.0. *)
Record game_ok {F} (f0_5 f2_0 : F) (flt : F -> F -> bool) (g : Game F) : Prop :=
  mkGameOk {
  ok_board : consistent (the_board g);
  ok_square : width (the_board g) = height (the_board g);
  ok_mines : 0 < mine_count (the_board g);
  ok_history : Forall (fun m : cell => on_grid (the_board g) m.1 m.2)
                      (move_history (the_ai g));
  ok_difficulty : in_range f0_5 f2_0 flt (difficulty_factor (the_ai g))
}.

(** * Properties *)

(** ** The result monad and loops *)

Lemma bind_Ok {A B} (a : A) (k : A -> result B) : bind (Ok a) k = k a.
Proof. reflexivity. Qed.

Lemma bind_Ok_inv {A B} (m : result A) (k : A -> result B) (r : B) :
  bind m k = Ok r -> exists a, m = Ok a /\ k a = Ok r.
Proof. destruct m; simpl; intros H; try discriminate. eauto. Qed.

Lemma for_each_app {A S} (l1 l2 : list A) (body : A -> S -> result S) (s : S) :
  for_each (l1 ++ l2) body s = let* s' := for_each l1 body s in for_each l2 body s'.
Proof.
  revert s. induction l1 as [|a l1 IH]; intros s; simpl; [reflexivity|].
  destruct (body a s); simpl; auto.
Qed.

(** A loop whose body succeeds and keeps [P] succeeds and establishes [P];
    [P] is indexed by the elements already visited. *)
Lemma for_each_invariant {A S} (P : list A -> S -> Prop)
      (l : list A) (body : A -> S -> result S) (s : S) :
  P [] s ->
  (forall pre a post s1, l = pre ++ a :: post -> P pre s1 ->
     exists s2, body a s1 = Ok s2 /\ P (pre ++ [a]) s2) ->
  exists s', for_each l body s = Ok s' /\ P l s'.
Proof.
  intros H0 Hstep.
  assert (Hgen : forall post pre s1, l = pre ++ post -> P pre s1 ->
            exists s', for_each post body s1 = Ok s' /\ P l s').
  { induction post as [|a post IH]; intros pre s1 Hl HP.
    - rewrite app_nil_r in Hl. subst. simpl. eauto.
    - destruct (Hstep pre a post s1 Hl HP) as (s2 & Hb & HP2).
      simpl. rewrite Hb. simpl. apply (IH (pre ++ [a])); auto.
      rewrite <- app_assoc. exact Hl. }
  apply (Hgen l [] s); auto.
Qed.

(** A loop whose body never raises is a fold. *)
Lemma for_each_pure {A S} (l : list A) (body : A -> S -> result S)
      (g : A -> S -> S) (s : S) :
  (forall a s, body a s = Ok (g a s)) ->
  for_each l body s = Ok (fold_left (fun s a => g a s) l s).
Proof.
  intros H. revert s. induction l as [|a l IH]; intros s; simpl; [reflexivity|].
  rewrite H. simpl. apply IH.
Qed.

(** Two nested loops visit the cells of the product in row-major order. *)
Lemma for_each_nested {S} (xs ys : list Z) (body : Z -> Z -> S -> result S) (s : S) :
  for_each xs (fun x => for_each ys (fun y => body x y)) s
  = for_each (x ← xs; y ← ys; [(x, y)]) (fun p => body p.1 p.2) s.
Proof.
  revert s. induction xs as [|x xs IH]; intros s; [reflexivity|].
  change (for_each (x :: xs) (fun x => for_each ys (fun y => body x y)) s)
    with (let* s' := for_each ys (fun y => body x y) s in
          for_each xs (fun x => for_each ys (fun y => body x y)) s').
  change ((x :: xs) ≫= (fun x => ys ≫= (fun y => [(x, y)])))
    with ((ys ≫= (fun y => [(x, y)])) ++ (xs ≫= (fun x => ys ≫= (fun y => [(x, y)])))).
  rewrite for_each_app.
  assert (Hrow : forall s0, for_each ys (fun y => body x y) s0
                 = for_each (ys ≫= (fun y => [(x, y)])) (fun p => body p.1 p.2) s0).
  { clear. induction ys as [|y ys IHy]; intros s0; [reflexivity|].
    simpl. destruct (body x y s0); simpl; auto. }
  rewrite Hrow. destruct (for_each _ _ s); simpl; auto.
Qed.

Lemma elem_of_range2 (lo hi x : Z) : x ∈ range2 lo hi <-> lo <= x < hi.
Proof. unfold range2. rewrite elem_of_seqZ. lia. Qed.

Lemma elem_of_range (n x : Z) : x ∈ range n <-> 0 <= x < n.
Proof. unfold range. rewrite elem_of_range2. lia. Qed.

Lemma elem_of_product (xs ys : list Z) (p : cell) :
  p ∈ (x ← xs; y ← ys; [(x, y)]) <-> p.1 ∈ xs /\ p.2 ∈ ys.
Proof.
  destruct p as [a c]. rewrite list_elem_of_bind. simpl. split.
  - intros (x & Hin & Hx). apply list_elem_of_bind in Hin as (y & Hin & Hy).
    apply list_elem_of_singleton in Hin. inversion Hin; subst. auto.
  - intros [Ha Hc]. exists a. split; [|exact Ha].
    apply list_elem_of_bind. exists c. split; [|exact Hc].
    apply list_elem_of_singleton. reflexivity.
Qed.

Lemma elem_of_all_positions (h w : Z) (p : cell) :
  p ∈ all_positions h w <-> in_bounds h w p.1 p.2.
Proof.
  unfold all_positions. rewrite elem_of_product, !elem_of_range.
  unfold in_bounds. tauto.
Qed.

(** ** numpy arrays *)

Module NpFacts.
Import Np.

Lemma norm_index_in (n : nat) (i : Z) :
  0 <= i < Z.of_nat n -> norm_index n i = Ok (Z.to_nat i).
Proof.
  intros H. unfold norm_index.
  destruct (Z.leb_spec 0 i); [|lia].
  destruct (Z.ltb_spec i (Z.of_nat n)); [|lia]. reflexivity.
Qed.

Lemma shape_row {A} (a : ndarray A) h w x :
  shape a h w -> 0 <= x < h ->
  exists row, a !! Z.to_nat x = Some row /\ length row = Z.to_nat w.
Proof.
  intros (Hh & Hw & Hlen & Hrows) Hx.
  destruct (lookup_lt_is_Some_2 a (Z.to_nat x)) as [row Hrow]; [lia|].
  exists row. split; [exact Hrow|].
  rewrite Forall_forall in Hrows. apply Hrows.
  eapply list_elem_of_lookup_2; eauto.
Qed.

Lemma getitem_in {A} (a : ndarray A) h w x y :
  shape a h w -> in_bounds h w x y -> exists v, getitem a x y = Ok v.
Proof.
  intros Hs [Hx Hy]. destruct (shape_row a h w x Hs Hx) as (row & Hrow & Hlen).
  destruct Hs as (Hh & Hw & Hl & _).
  unfold getitem. rewrite norm_index_in by lia. simpl. rewrite Hrow.
  rewrite norm_index_in by lia. simpl.
  destruct (lookup_lt_is_Some_2 row (Z.to_nat y)) as [v Hv]; [lia|].
  rewrite Hv. eauto.
Qed.

Lemma getitem_peek {A} (d : A) (a : ndarray A) h w x y :
  shape a h w -> in_bounds h w x y -> getitem a x y = Ok (peek d a x y).
Proof.
  intros Hs Hb. destruct (getitem_in a h w x y Hs Hb) as [v Hv].
  unfold peek. rewrite Hv. reflexivity.
Qed.

Lemma poke_row {A} (a : ndarray A) x y (v : A) row :
  a !! Z.to_nat x = Some row ->
  poke a x y v = <[Z.to_nat x := <[Z.to_nat y := v]> row]> a.
Proof. intros H. unfold poke. rewrite H. reflexivity. Qed.

Lemma setitem_poke {A} (a : ndarray A) h w x y (v : A) :
  shape a h w -> in_bounds h w x y -> setitem a x y v = Ok (poke a x y v).
Proof.
  intros Hs [Hx Hy]. destruct (shape_row a h w x Hs Hx) as (row & Hrow & Hlen).
  destruct Hs as (Hh & Hw & Hl & _).
  unfold setitem, poke. rewrite norm_index_in by lia. simpl. rewrite Hrow.
  rewrite norm_index_in by lia. reflexivity.
Qed.

Lemma shape_poke {A} (a : ndarray A) h w x y (v : A) :
  shape a h w -> shape (poke a x y v) h w.
Proof.
  intros (Hh & Hw & Hl & Hrows). unfold poke.
  destruct (a !! Z.to_nat x) as [row|] eqn:Hrow;
    (split; [exact Hh|split; [exact Hw|split]]); auto.
  - rewrite length_insert. exact Hl.
  - apply Forall_insert; [exact Hrows|].
    rewrite length_insert. rewrite Forall_forall in Hrows. apply Hrows.
    eapply list_elem_of_lookup_2; eauto.
Qed.

Lemma peek_poke {A} (d : A) (a : ndarray A) h w x y x' y' (v : A) :
  shape a h w -> in_bounds h w x y -> in_bounds h w x' y' ->
  peek d (poke a x y v) x' y'
  = if bool_decide ((x', y') = (x, y)) then v else peek d a x' y'.
Proof.
  intros Hs [Hx Hy] [Hx' Hy'].
  destruct (shape_row a h w x Hs Hx) as (row & Hrow & Hlen).
  destruct (shape_row a h w x' Hs Hx') as (row' & Hrow' & Hlen').
  pose proof Hs as (Hh & Hw & Hl & _).
  rewrite (poke_row a x y v row Hrow).
  unfold peek, getitem. rewrite length_insert.
  rewrite !norm_index_in by lia. simpl. rewrite Hrow'.
  destruct (decide (x' = x)) as [->|Hne].
  - rewrite list_lookup_insert_eq by lia. rewrite length_insert.
    assert (row' = row) by congruence. subst row'.
    rewrite !norm_index_in by lia. simpl.
    destruct (decide (y' = y)) as [->|Hney].
    + rewrite list_lookup_insert_eq by lia.
      rewrite bool_decide_eq_true_2; reflexivity.
    + rewrite list_lookup_insert_ne by lia.
      rewrite bool_decide_eq_false_2; [reflexivity|congruence].
  - rewrite list_lookup_insert_ne by lia. rewrite Hrow'.
    rewrite bool_decide_eq_false_2; [reflexivity|congruence].
Qed.

Lemma shape_full {A} h w (v : A) (a : ndarray A) :
  full h w v = Ok a -> shape a h w.
Proof.
  unfold full. destruct (Z.ltb_spec h 0); simpl; [discriminate|].
  destruct (Z.ltb_spec w 0); simpl; [discriminate|].
  intros [= <-]. split; [lia|split; [lia|split]].
  - apply length_replicate.
  - apply Forall_replicate. apply length_replicate.
Qed.

Lemma shape_fill {A} (a : ndarray A) h w (v : A) :
  shape a h w -> shape (fill a v) h w.
Proof.
  intros (Hh & Hw & Hl & Hrows). unfold fill.
  split; [exact Hh|split; [exact Hw|split]].
  - rewrite length_map. exact Hl.
  - rewrite Forall_map. eapply Forall_impl; [exact Hrows|].
    intros row Hr. simpl. rewrite length_map. exact Hr.
Qed.

Lemma peek_fill {A} (d : A) (a : ndarray A) h w x y (v : A) :
  shape a h w -> in_bounds h w x y -> peek d (fill a v) x y = v.
Proof.
  intros Hs [Hx Hy]. destruct (shape_row a h w x Hs Hx) as (row & Hrow & Hlen).
  pose proof Hs as (Hh & Hw & Hl & _).
  unfold peek, getitem, fill. rewrite length_map.
  rewrite norm_index_in by lia. simpl.
  rewrite list_lookup_fmap, Hrow. simpl. rewrite length_map.
  rewrite norm_index_in by lia. simpl.
  rewrite list_lookup_fmap.
  destruct (lookup_lt_is_Some_2 row (Z.to_nat y)) as [c Hc]; [lia|].
  rewrite Hc. reflexivity.
Qed.

End NpFacts.

(** ** The grid *)

Lemma inside_spec (b : Board) (x y : Z) : inside b x y = true <-> on_grid b x y.
Proof.
  unfold inside, on_grid, in_bounds.
  rewrite !andb_true_iff, !Z.leb_le, !Z.ltb_lt. tauto.
Qed.

Lemma inside_true (b : Board) (x y : Z) : on_grid b x y -> inside b x y = true.
Proof. apply inside_spec. Qed.

Lemma inside_false (b : Board) (x y : Z) : ~ on_grid b x y -> inside b x y = false.
Proof.
  intros H. destruct (inside b x y) eqn:E; [|reflexivity].
  apply inside_spec in E. contradiction.
Qed.

Lemma get_board (b : Board) (x y : Z) :
  wf b -> on_grid b x y -> Np.getitem (board b) x y = Ok (val b x y).
Proof. intros (H & _ & _) Hg. eapply NpFacts.getitem_peek; eauto. Qed.

Lemma get_revealed (b : Board) (x y : Z) :
  wf b -> on_grid b x y -> Np.getitem (revealed b) x y = Ok (is_revealed b x y).
Proof. intros (_ & H & _) Hg. eapply NpFacts.getitem_peek; eauto. Qed.

Lemma get_flagged (b : Board) (x y : Z) :
  wf b -> on_grid b x y -> Np.getitem (flagged b) x y = Ok (is_flagged b x y).
Proof. intros (_ & _ & H) Hg. eapply NpFacts.getitem_peek; eauto. Qed.

Lemma mine_at_range (b : Board) (x y : Z) : 0 <= mine_at b x y <= 1.
Proof. unfold mine_at. destruct (_ && _); lia. Qed.

Lemma mines_around_range (b : Board) (x y : Z) : 0 <= mines_around b x y <= 8.
Proof.
  unfold mines_around.
  pose proof (mine_at_range b (x + -1) (y + -1)).
  pose proof (mine_at_range b (x + -1) (y + 0)).
  pose proof (mine_at_range b (x + -1) (y + 1)).
  pose proof (mine_at_range b (x + 0) (y + -1)).
  pose proof (mine_at_range b (x + 0) (y + 1)).
  pose proof (mine_at_range b (x + 1) (y + -1)).
  pose proof (mine_at_range b (x + 1) (y + 0)).
  pose proof (mine_at_range b (x + 1) (y + 1)).
  lia.
Qed.

Lemma count_step (b : Board) (nx ny c : Z) :
  wf b ->
  (if inside b nx ny
   then let* v := Np.getitem (board b) nx ny in
        if v =? -1 then Ok (c + 1) else Ok c
   else Ok c) = Ok (c + mine_at b nx ny).
Proof.
  intros Hwf. unfold mine_at. destruct (inside b nx ny) eqn:E; simpl.
  - apply inside_spec in E. rewrite (get_board b nx ny Hwf E). simpl.
    destruct (val b nx ny =? -1); [reflexivity|]. f_equal. lia.
  - f_equal. lia.
Qed.

(** [_count_adjacent_mines] never raises on a well-shaped board and
    returns the number of neighbouring mines. *)
Lemma count_adjacent_mines_spec (b : Board) (x y : Z) :
  wf b -> count_adjacent_mines b x y = Ok (mines_around b x y).
Proof.
  intros Hwf. unfold count_adjacent_mines.
  set (g := fun (dx dy c : Z) =>
              if (dx =? 0) && (dy =? 0) then c else c + mine_at b (x + dx) (y + dy)).
  rewrite (for_each_pure _ _ (fun dx c => fold_left (fun c dy => g dx dy c) [-1; 0; 1] c)).
  - unfold g, mines_around. simpl. reflexivity.
  - intros dx c. apply for_each_pure. intros dy c'. unfold g.
    destruct ((dx =? 0) && (dy =? 0)); [reflexivity|].
    apply count_step. exact Hwf.
Qed.

Lemma mine_at_ext (b b' : Board) (x y : Z) :
  height b' = height b -> width b' = width b ->
  (forall x y, on_grid b x y -> (val b' x y =? -1) = (val b x y =? -1)) ->
  mine_at b' x y = mine_at b x y.
Proof.
  intros Hh Hw Hv. unfold mine_at.
  assert (Hi : inside b' x y = inside b x y) by (unfold inside; rewrite Hh, Hw; reflexivity).
  rewrite Hi. destruct (inside b x y) eqn:E; [|reflexivity].
  apply inside_spec in E. rewrite (Hv x y E). reflexivity.
Qed.

(** The count around a cell depends on the mine layout only. *)
Lemma mines_around_ext (b b' : Board) (x y : Z) :
  height b' = height b -> width b' = width b ->
  (forall x y, on_grid b x y -> (val b' x y =? -1) = (val b x y =? -1)) ->
  mines_around b' x y = mines_around b x y.
Proof.
  intros Hh Hw Hv. unfold mines_around.
  rewrite !(mine_at_ext b b') by assumption. reflexivity.
Qed.

Lemma wf_set_board (b : Board) a :
  wf b -> Np.shape a (height b) (width b) -> wf (set_board b a).
Proof. intros (_ & Hr & Hf) Ha. split; [exact Ha|split; assumption]. Qed.

Lemma recount_cell_spec (b : Board) (x y : Z) :
  wf b -> on_grid b x y ->
  recount_cell x y b
  = Ok (if val b x y =? -1 then b
        else set_board b (poke (board b) x y (mines_around b x y))).
Proof.
  intros Hwf Hg. unfold recount_cell.
  rewrite (get_board b x y Hwf Hg). simpl.
  destruct (val b x y =? -1); simpl; [reflexivity|].
  rewrite (count_adjacent_mines_spec b x y Hwf). simpl.
  destruct Hwf as (Hb & _ & _).
  rewrite (NpFacts.setitem_poke _ _ _ x y _ Hb Hg). reflexivity.
Qed.

(** Refreshing the numbers of the cells [cs], in any order and with
    repetitions, leaves the mines where they are and stores the count of
    neighbouring mines in each of the other cells of [cs]. *)
Lemma recount_cells_spec (b : Board) (cs : list cell) :
  wf b -> Forall (fun p => on_grid b p.1 p.2) cs ->
  exists a,
    for_each cs (fun p => recount_cell p.1 p.2) b = Ok (set_board b a) /\
    Np.shape a (height b) (width b) /\
    forall x y, on_grid b x y ->
      Np.peek 0 a x y
      = if bool_decide ((x, y) ∈ cs) && negb (val b x y =? -1)
        then mines_around b x y else val b x y.
Proof.
  intros Hwf Hcs.
  set (P := fun (pre : list cell) (s : Board) =>
    exists a, s = set_board b a /\ Np.shape a (height b) (width b) /\
      forall x y, on_grid b x y ->
        Np.peek 0 a x y
        = if bool_decide ((x, y) ∈ pre) && negb (val b x y =? -1)
          then mines_around b x y else val b x y).
  destruct (for_each_invariant P cs (fun p => recount_cell p.1 p.2) b)
    as (s' & Hrun & a & -> & Ha & Hval).
  - exists (board b). split; [destruct b; reflexivity|].
    split; [apply Hwf|]. intros x y _.
    rewrite bool_decide_eq_false_2 by apply not_elem_of_nil. reflexivity.
  - intros pre [cx cy] post s1 Hl (a & -> & Ha & Hval). simpl.
    assert (Hc : on_grid b cx cy).
    { rewrite Forall_forall in Hcs. apply (Hcs (cx, cy)). rewrite Hl.
      apply elem_of_app. right. apply elem_of_cons. left. reflexivity. }
    assert (Hwf1 : wf (set_board b a)) by (apply wf_set_board; assumption).
    assert (Hmine : forall x y, on_grid b x y ->
              (val (set_board b a) x y =? -1) = (val b x y =? -1)).
    { intros x y Hg. unfold val at 1. simpl. rewrite (Hval x y Hg).
      destruct (bool_decide _ && negb (val b x y =? -1)) eqn:E; [|reflexivity].
      apply andb_true_iff in E as [_ E]. apply negb_true_iff in E. rewrite E.
      pose proof (mines_around_range b x y). apply Z.eqb_neq. lia. }
    rewrite (recount_cell_spec _ cx cy Hwf1 Hc).
    rewrite (Hmine cx cy Hc).
    rewrite (mines_around_ext b (set_board b a) cx cy eq_refl eq_refl Hmine).
    destruct (val b cx cy =? -1) eqn:Ev.
    + eexists. split; [reflexivity|]. exists a. split; [reflexivity|].
      split; [exact Ha|]. intros x y Hg. rewrite (Hval x y Hg).
      destruct (decide ((x, y) = (cx, cy))) as [Heq|Hne].
      * inversion Heq; subst. rewrite Ev. simpl. rewrite !andb_false_r. reflexivity.
      * assert (Hiff : (x, y) ∈ pre ++ [(cx, cy)] <-> (x, y) ∈ pre).
        { rewrite elem_of_app, list_elem_of_singleton. tauto. }
        rewrite (bool_decide_ext _ _ Hiff). reflexivity.
    + eexists. split; [reflexivity|].
      exists (poke a cx cy (mines_around b cx cy)).
      split; [reflexivity|]. split; [apply NpFacts.shape_poke; exact Ha|].
      intros x y Hg. simpl.
      rewrite (NpFacts.peek_poke 0 a _ _ cx cy x y _ Ha Hc Hg).
      destruct (decide ((x, y) = (cx, cy))) as [Heq|Hne].
      * inversion Heq; subst. rewrite bool_decide_eq_true_2 by reflexivity.
        rewrite Ev. simpl.
        rewrite bool_decide_eq_true_2; [reflexivity|].
        apply elem_of_app. right. apply list_elem_of_singleton. reflexivity.
      * rewrite bool_decide_eq_false_2 by exact Hne.
        rewrite (Hval x y Hg).
        assert (Hiff : (x, y) ∈ pre ++ [(cx, cy)] <-> (x, y) ∈ pre).
        { rewrite elem_of_app, list_elem_of_singleton. tauto. }
        rewrite (bool_decide_ext _ _ Hiff). reflexivity.
  - exists a. auto.
Qed.

(** ** Neighbourhoods *)

Lemma near_sym (p c : cell) : near p c -> near c p.
Proof. unfold near. lia. Qed.

Lemma adjacent_sym (p c : cell) : adjacent p c -> adjacent c p.
Proof. intros [H1 H2]. split; [congruence|apply near_sym; exact H2]. Qed.

(** The cells visited by the two loops of [recount_around]. *)
Lemma elem_of_block (b : Board) (x y : Z) (c : cell) :
  c ∈ (x' ← range2 (Z.max 0 (x - 1)) (Z.min (height b) (x + 2));
       y' ← range2 (Z.max 0 (y - 1)) (Z.min (width b) (y + 2)); [(x', y')])
  <-> on_grid b c.1 c.2 /\ near (x, y) c.
Proof.
  rewrite elem_of_product, !elem_of_range2.
  unfold on_grid, in_bounds, near. simpl. lia.
Qed.

Lemma mine_at_zero_off_grid (b : Board) (x y : Z) :
  ~ on_grid b x y -> mine_at b x y = 0.
Proof. intros H. unfold mine_at. rewrite (inside_false b x y H). reflexivity. Qed.

(** The count around [(x, y)] depends only on the mines at its neighbours. *)
Lemma mines_around_local (b b' : Board) (x y : Z) :
  height b' = height b -> width b' = width b ->
  (forall c, adjacent (x, y) c -> on_grid b c.1 c.2 ->
             (val b' c.1 c.2 =? -1) = (val b c.1 c.2 =? -1)) ->
  mines_around b' x y = mines_around b x y.
Proof.
  intros Hh Hw Hv.
  assert (Hm : forall dx dy, (dx, dy) <> (0, 0) -> -1 <= dx <= 1 -> -1 <= dy <= 1 ->
             mine_at b' (x + dx) (y + dy) = mine_at b (x + dx) (y + dy)).
  { intros dx dy Hne Hdx Hdy. unfold mine_at.
    assert (Hi : inside b' (x + dx) (y + dy) = inside b (x + dx) (y + dy))
      by (unfold inside; rewrite Hh, Hw; reflexivity).
    rewrite Hi. destruct (inside b (x + dx) (y + dy)) eqn:E; [|reflexivity].
    apply inside_spec in E.
    assert (Hc : adjacent (x, y) (x + dx, y + dy)).
    { split; [|unfold near; simpl; lia].
      intros Heq. apply Hne. inversion Heq. f_equal; lia. }
    pose proof (Hv (x + dx, y + dy) Hc E) as Hv'. simpl in Hv'.
    rewrite Hv'. reflexivity. }
  unfold mines_around. rewrite !Hm by (try lia; intros [=]). reflexivity.
Qed.

(** A cell whose count is zero has no mine next to it. *)
Lemma mines_around_zero (b : Board) (x y : Z) (c : cell) :
  mines_around b x y = 0 -> adjacent (x, y) c -> on_grid b c.1 c.2 ->
  val b c.1 c.2 <> -1.
Proof.
  intros H0 [Hne [Hx Hy]] Hg Hmine. destruct c as [cx cy]. simpl in *.
  assert (Hm : mine_at b cx cy = 1).
  { unfold mine_at. rewrite (inside_true b cx cy Hg).
    apply Z.eqb_eq in Hmine. rewrite Hmine. reflexivity. }
  unfold mines_around in H0.
  pose proof (mine_at_range b (x + -1) (y + -1)).
  pose proof (mine_at_range b (x + -1) (y + 0)).
  pose proof (mine_at_range b (x + -1) (y + 1)).
  pose proof (mine_at_range b (x + 0) (y + -1)).
  pose proof (mine_at_range b (x + 0) (y + 1)).
  pose proof (mine_at_range b (x + 1) (y + -1)).
  pose proof (mine_at_range b (x + 1) (y + 0)).
  pose proof (mine_at_range b (x + 1) (y + 1)).
  assert (Hcase : (cx = x + -1 \/ cx = x + 0 \/ cx = x + 1) /\
                  (cy = y + -1 \/ cy = y + 0 \/ cy = y + 1)) by lia.
  destruct Hcase as [[->| [->| ->]] [->| [->| ->]]]; try lia.
  apply Hne. f_equal; lia.
Qed.

(** ** Refreshing the numbers of a block *)

Lemma recount_around_spec (b : Board) (x y : Z) :
  wf b ->
  exists a,
    recount_around x y b = Ok (set_board b a) /\
    Np.shape a (height b) (width b) /\
    forall c : cell, on_grid b c.1 c.2 ->
      Np.peek 0 a c.1 c.2
      = if bool_decide (near (x, y) c) && negb (val b c.1 c.2 =? -1)
        then mines_around b c.1 c.2 else val b c.1 c.2.
Proof.
  intros Hwf. unfold recount_around.
  rewrite (for_each_nested _ _ recount_cell).
  match goal with |- context [for_each ?cs _ _] =>
    destruct (recount_cells_spec b cs Hwf) as (a & Hrun & Ha & Hval);
      [|exists a; split; [exact Hrun|split; [exact Ha|]]]
  end.
  - apply Forall_forall. intros c Hc. apply elem_of_block in Hc. tauto.
  - intros [cx cy] Hg. simpl in *. rewrite (Hval cx cy Hg).
    assert (Hiff : (cx, cy) ∈ (x' ← range2 (Z.max 0 (x - 1)) (Z.min (height b) (x + 2));
                      y' ← range2 (Z.max 0 (y - 1)) (Z.min (width b) (y + 2)); [(x', y')])
                   <-> near (x, y) (cx, cy)).
    { rewrite elem_of_block. simpl. tauto. }
    rewrite (bool_decide_ext _ _ Hiff). reflexivity.
Qed.

Lemma update_numbers_spec (b : Board) :
  wf b ->
  exists a,
    update_numbers b = Ok (set_board b a) /\
    Np.shape a (height b) (width b) /\
    forall x y, on_grid b x y ->
      Np.peek 0 a x y
      = if negb (val b x y =? -1) then mines_around b x y else val b x y.
Proof.
  intros Hwf. unfold update_numbers.
  rewrite (for_each_nested _ _ recount_cell).
  match goal with |- context [for_each ?cs _ _] =>
    destruct (recount_cells_spec b cs Hwf) as (a & Hrun & Ha & Hval);
      [|exists a; split; [exact Hrun|split; [exact Ha|]]]
  end.
  - apply Forall_forall. intros c Hc. apply elem_of_all_positions in Hc. exact Hc.
  - intros x y Hg. rewrite (Hval x y Hg).
    rewrite bool_decide_eq_true_2; [reflexivity|].
    apply (elem_of_all_positions _ _ (x, y)). exact Hg.
Qed.

(** After a refresh of the whole grid every number is right. *)
Lemma update_numbers_ok (b b' : Board) :
  wf b -> update_numbers b = Ok b' ->
  wf b' /\ numbers_ok b' /\
  (exists a, b' = set_board b a) /\
  forall x y, on_grid b x y -> (val b' x y =? -1) = (val b x y =? -1).
Proof.
  intros Hwf Hrun. destruct (update_numbers_spec b Hwf) as (a & Hrun' & Ha & Hval).
  rewrite Hrun in Hrun'. injection Hrun' as ->.
  assert (Hlay : forall x y, on_grid b x y ->
            (val (set_board b a) x y =? -1) = (val b x y =? -1)).
  { intros x y Hg. unfold val at 1. simpl. rewrite (Hval x y Hg).
    destruct (val b x y =? -1) eqn:E; simpl; [exact E|].
    pose proof (mines_around_range b x y). apply Z.eqb_neq. lia. }
  split; [apply wf_set_board; assumption|]. split; [|split; [eauto|exact Hlay]].
  intros x y Hg Hne.
  rewrite (mines_around_ext b (set_board b a) x y eq_refl eq_refl Hlay).
  unfold val in Hne |- *. simpl in Hne |- *. rewrite (Hval x y Hg) in Hne |- *.
  destruct (val b x y =? -1) eqn:E; simpl in *; [|reflexivity].
  apply Z.eqb_eq in E. contradiction.
Qed.

(** What a refresh around [(x, y)] does, in terms of the board it returns. *)
Lemma recount_around_full (b : Board) (x y : Z) :
  wf b ->
  exists a,
    recount_around x y b = Ok (set_board b a) /\
    Np.shape a (height b) (width b) /\
    (forall c : cell, on_grid b c.1 c.2 ->
       (Np.peek 0 a c.1 c.2 =? -1) = (val b c.1 c.2 =? -1)) /\
    (forall c : cell, on_grid b c.1 c.2 -> near (x, y) c ->
       Np.peek 0 a c.1 c.2 <> -1 ->
       Np.peek 0 a c.1 c.2 = mines_around (set_board b a) c.1 c.2) /\
    (forall c : cell, on_grid b c.1 c.2 -> ~ near (x, y) c ->
       Np.peek 0 a c.1 c.2 = val b c.1 c.2) /\
    (forall c : cell, on_grid b c.1 c.2 ->
       val b c.1 c.2 = mines_around b c.1 c.2 ->
       Np.peek 0 a c.1 c.2 = mines_around (set_board b a) c.1 c.2).
Proof.
  intros Hwf. destruct (recount_around_spec b x y Hwf) as (a & Hrun & Ha & Hval).
  exists a. split; [exact Hrun|]. split; [exact Ha|].
  assert (Hlay : forall c : cell, on_grid b c.1 c.2 ->
            (Np.peek 0 a c.1 c.2 =? -1) = (val b c.1 c.2 =? -1)).
  { intros c Hg. rewrite (Hval c Hg).
    destruct (bool_decide _ && negb (val b c.1 c.2 =? -1)) eqn:E; [|reflexivity].
    apply andb_true_iff in E as [_ E]. apply negb_true_iff in E. rewrite E.
    pose proof (mines_around_range b c.1 c.2). apply Z.eqb_neq. lia. }
  assert (Hsame : forall u v, mines_around (set_board b a) u v = mines_around b u v).
  { intros u v. apply mines_around_ext; try reflexivity.
    intros u' v' Hg. apply (Hlay (u', v')). exact Hg. }
  split; [exact Hlay|]. split; [|split].
  - intros c Hg Hn Hne. rewrite Hsame. rewrite (Hval c Hg) in Hne |- *.
    rewrite bool_decide_eq_true_2 in Hne |- * by exact Hn.
    destruct (val b c.1 c.2 =? -1) eqn:E; simpl in *; [|reflexivity].
    apply Z.eqb_eq in E. contradiction.
  - intros c Hg Hn. rewrite (Hval c Hg).
    rewrite bool_decide_eq_false_2 by exact Hn. reflexivity.
  - intros c Hg Hok. rewrite Hsame, (Hval c Hg).
    destruct (_ && _); [reflexivity|exact Hok].
Qed.

(** [reposition_mine] when its guard lets the move through. *)
Lemma reposition_mine_moves (b : Board) (x1 y1 x2 y2 : Z) :
  wf b -> on_grid b x1 y1 -> on_grid b x2 y2 ->
  val b x1 y1 = -1 -> val b x2 y2 <> -1 -> (x1, y1) ∈ mine_positions b ->
  exists a,
    let b' := set_mine_positions (set_board b a)
                (mine_positions b ∖ {[(x1, y1)]} ∪ {[(x2, y2)]}) in
    reposition_mine b (x1, y1) (x2, y2) = Ok b' /\
    Np.shape a (height b) (width b) /\
    (forall c : cell, on_grid b c.1 c.2 ->
       (val b' c.1 c.2 =? -1)
       = bool_decide (c = (x2, y2))
         || (negb (bool_decide (c = (x1, y1))) && (val b c.1 c.2 =? -1))) /\
    (forall c : cell, on_grid b c.1 c.2 -> near (x1, y1) c \/ near (x2, y2) c ->
       val b' c.1 c.2 <> -1 -> val b' c.1 c.2 = mines_around b' c.1 c.2) /\
    (forall c : cell, on_grid b c.1 c.2 -> ~ near (x1, y1) c -> ~ near (x2, y2) c ->
       val b' c.1 c.2 = val b c.1 c.2).
Proof.
  intros Hwf Hg1 Hg2 Hv1 Hv2 Hin.
  pose proof Hwf as (Hb & Hr & Hf).
  set (a1 := poke (board b) x1 y1 0).
  set (a2 := poke a1 x2 y2 (-1)).
  set (s := mine_positions b ∖ {[(x1, y1)]} ∪ {[(x2, y2)]}).
  set (b1 := set_mine_positions (set_board b a2) s).
  assert (Ha1 : Np.shape a1 (height b) (width b)) by (apply NpFacts.shape_poke; exact Hb).
  assert (Ha2 : Np.shape a2 (height b) (width b)) by (apply NpFacts.shape_poke; exact Ha1).
  assert (Hwf1 : wf b1) by (split; [exact Ha2|split; assumption]).
  assert (Hval1 : forall c : cell, on_grid b c.1 c.2 ->
            val b1 c.1 c.2 = if bool_decide (c = (x2, y2)) then -1
                             else if bool_decide (c = (x1, y1)) then 0
                             else val b c.1 c.2).
  { intros [cx cy] Hg. unfold val, b1. simpl. unfold a2, a1.
    rewrite (NpFacts.peek_poke 0 _ _ _ x2 y2 cx cy _ Ha1 Hg2 Hg).
    unfold a1.
    rewrite (NpFacts.peek_poke 0 _ _ _ x1 y1 cx cy _ Hb Hg1 Hg). reflexivity. }
  destruct (recount_around_full b1 x1 y1 Hwf1)
    as (a3 & Hrun3 & Ha3 & Hlay3 & Hnear3 & Hfar3 & _).
  set (b2 := set_board b1 a3) in *.
  assert (Hwf2 : wf b2) by (apply wf_set_board; assumption).
  destruct (recount_around_full b2 x2 y2 Hwf2)
    as (a4 & Hrun4 & Ha4 & Hlay4 & Hnear4 & Hfar4 & Hkeep4).
  exists a4. cbv zeta.
  change (set_mine_positions (set_board b a4) s) with (set_board b2 a4) in *.
  split; [|split; [exact Ha4|split; [|split]]].
  - unfold reposition_mine.
    rewrite (get_board b x1 y1 Hwf Hg1), Hv1. simpl.
    rewrite (get_board b x2 y2 Hwf Hg2). simpl.
    apply Z.eqb_neq in Hv2. rewrite Hv2.
    rewrite (NpFacts.setitem_poke _ _ _ x1 y1 0 Hb Hg1). simpl.
    fold a1. rewrite (NpFacts.setitem_poke _ _ _ x2 y2 (-1) Ha1 Hg2). simpl.
    fold a2. rewrite bool_decide_eq_true_2 by exact Hin. simpl.
    fold s. fold b1. rewrite Hrun3. simpl. exact Hrun4.
  - intros c Hg. unfold val at 1. simpl. rewrite (Hlay4 c Hg).
    unfold val at 1. simpl. rewrite (Hlay3 c Hg), (Hval1 c Hg).
    destruct (bool_decide (c = (x2, y2))); [reflexivity|].
    destruct (bool_decide (c = (x1, y1))); reflexivity.
  - intros c Hg Hnear Hne. unfold val in Hne |- *. simpl in Hne |- *.
    destruct (decide (near (x2, y2) c)) as [Hn2|Hn2].
    + apply (Hnear4 c Hg Hn2 Hne).
    + destruct Hnear as [Hn1|Hn1]; [|contradiction].
      apply (Hkeep4 c Hg). unfold val. simpl.
      rewrite (Hfar4 c Hg Hn2) in Hne. unfold val in Hne. simpl in Hne.
      apply (Hnear3 c Hg Hn1 Hne).
  - intros c Hg Hn1 Hn2. unfold val at 1. simpl.
    rewrite (Hfar4 c Hg Hn2). unfold val at 1. simpl.
    rewrite (Hfar3 c Hg Hn1), (Hval1 c Hg).
    rewrite !bool_decide_eq_false_2; [reflexivity| |].
    + intros ->. apply Hn1. unfold near. simpl. lia.
    + intros ->. apply Hn2. unfold near. simpl. lia.
Qed.

(** [reposition_mine] when its guard stops the move. *)
Lemma reposition_mine_noop (b : Board) (x1 y1 x2 y2 : Z) :
  wf b -> on_grid b x1 y1 -> on_grid b x2 y2 ->
  val b x1 y1 <> -1 \/ val b x2 y2 = -1 ->
  reposition_mine b (x1, y1) (x2, y2) = Ok b.
Proof.
  intros Hwf Hg1 Hg2 Hguard. unfold reposition_mine.
  rewrite (get_board b x1 y1 Hwf Hg1). simpl.
  destruct (val b x1 y1 =? -1) eqn:E1; simpl; [|reflexivity].
  rewrite (get_board b x2 y2 Hwf Hg2). simpl.
  destruct (val b x2 y2 =? -1) eqn:E2; simpl; [reflexivity|].
  apply Z.eqb_eq in E1. apply Z.eqb_neq in E2. tauto.
Qed.

(** [reposition_mine] keeps the grid invariant. *)
Lemma reposition_mine_consistent (b : Board) (from_pos to_pos : cell) :
  consistent b ->
  on_grid b from_pos.1 from_pos.2 -> on_grid b to_pos.1 to_pos.2 ->
  exists b', reposition_mine b from_pos to_pos = Ok b' /\ consistent b' /\
             width b' = width b /\ height b' = height b.
Proof.
  destruct from_pos as [x1 y1], to_pos as [x2 y2]. simpl.
  intros [Hwf Hnum Hmir Hcnt] Hg1 Hg2.
  destruct (decide (val b x1 y1 = -1)) as [Hv1|Hv1];
    [destruct (decide (val b x2 y2 = -1)) as [Hv2|Hv2]|].
  - exists b. split; [apply reposition_mine_noop; auto|].
    split; [split; assumption|auto].
  - assert (Hin : (x1, y1) ∈ mine_positions b) by (apply Hmir; simpl; auto).
    assert (Hout : (x2, y2) ∉ mine_positions b).
    { intros H. apply Hmir in H as [_ H]. simpl in H. contradiction. }
    destruct (reposition_mine_moves b x1 y1 x2 y2 Hwf Hg1 Hg2 Hv1 Hv2 Hin)
      as (a & Hrun & Ha & Hlay & Hnear & Hfar).
    cbv zeta in *. eexists. split; [exact Hrun|].
    set (b' := set_mine_positions (set_board b a) _) in *.
    assert (Hwf' : wf b').
    { destruct Hwf as (_ & Hr & Hf). split; [exact Ha|split; assumption]. }
    split; [|split; reflexivity]. split.
    + exact Hwf'.
    + intros x y Hg Hne. change (on_grid b x y) in Hg.
      destruct (decide (near (x1, y1) (x, y) \/ near (x2, y2) (x, y))) as [Hn|Hn].
      * apply (Hnear (x, y) Hg Hn Hne).
      * assert (Hn1 : ~ near (x1, y1) (x, y)) by tauto.
        assert (Hn2 : ~ near (x2, y2) (x, y)) by tauto.
        pose proof (Hfar (x, y) Hg Hn1 Hn2) as Hsame. simpl in Hsame.
        rewrite Hsame in Hne |- *. rewrite (Hnum x y Hg Hne). symmetry.
        apply mines_around_local; try reflexivity.
        intros c [_ Hc] Hgc. rewrite (Hlay c Hgc).
        rewrite !bool_decide_eq_false_2; [reflexivity| |].
        -- intros ->. apply Hn1. apply near_sym. exact Hc.
        -- intros ->. apply Hn2. apply near_sym. exact Hc.
    + intros p. change (on_grid b' p.1 p.2) with (on_grid b p.1 p.2).
      unfold b' at 1. simpl.
      rewrite elem_of_union, elem_of_difference, !elem_of_singleton.
      split.
      * intros [[Hp Hne]| ->].
        -- apply Hmir in Hp as [Hg Hv]. split; [exact Hg|].
           apply Z.eqb_eq. rewrite (Hlay p Hg).
           rewrite (bool_decide_eq_false_2 (p = (x1, y1))) by exact Hne.
           apply Z.eqb_eq in Hv. rewrite Hv. apply orb_true_r.
        -- simpl. split; [exact Hg2|]. apply Z.eqb_eq.
           pose proof (Hlay (x2, y2) Hg2) as H2. cbn [fst snd] in H2.
           rewrite H2, bool_decide_eq_true_2 by reflexivity. reflexivity.
      * intros [Hg Hv]. apply Z.eqb_eq in Hv. rewrite (Hlay p Hg) in Hv.
        apply orb_true_iff in Hv as [Hv|Hv].
        -- right. apply bool_decide_eq_true in Hv. exact Hv.
        -- apply andb_true_iff in Hv as [Hv1' Hv2'].
           apply negb_true_iff, bool_decide_eq_false in Hv1'.
           apply Z.eqb_eq in Hv2'. left. split; [|exact Hv1'].
           apply Hmir. auto.
    + unfold b'. simpl. rewrite <- Hcnt.
      rewrite size_union.
      2:{ apply disjoint_singleton_r. intros H. apply elem_of_difference in H.
          tauto. }
      rewrite size_difference by (apply singleton_subseteq_l; exact Hin).
      rewrite !size_singleton.
      assert (size (mine_positions b) <> 0%nat).
      { apply size_non_empty_iff. intros He. rewrite He in Hin.
        apply not_elem_of_empty in Hin. exact Hin. }
      lia.
  - exists b. split; [apply reposition_mine_noop; auto|].
    split; [split; assumption|auto].
Qed.

(** ** Revealing cells *)

Lemma elem_of_offsets (d : cell) :
  d ∈ offsets <-> -1 <= d.1 <= 1 /\ -1 <= d.2 <= 1.
Proof.
  unfold offsets. rewrite elem_of_product.
  rewrite !elem_of_cons, !elem_of_nil. lia.
Qed.

Lemma adjacent_offset (p c : cell) :
  adjacent p c <->
  exists d, d ∈ offsets /\ d <> (0, 0) /\ c = (p.1 + d.1, p.2 + d.2).
Proof.
  destruct p as [x y], c as [cx cy]. unfold adjacent, near. simpl. split.
  - intros [Hne H]. exists (cx - x, cy - y). rewrite elem_of_offsets. simpl.
    split; [lia|]. split; [|f_equal; lia].
    intros [= H1 H2]. apply Hne. f_equal; lia.
  - intros ([dx dy] & Hd & Hne & [= -> ->]). apply elem_of_offsets in Hd.
    simpl in *. split; [|lia].
    intros [= H1 H2]. apply Hne. f_equal; lia.
Qed.

Lemma grows_refl (b : Board) : wf b -> grows b b.
Proof. intros (_ & Hr & _). split; auto. Qed.

Lemma grows_on_grid (b b' : Board) x y : grows b b' -> on_grid b' x y <-> on_grid b x y.
Proof. intros G. unfold on_grid. rewrite (g_width _ _ G), (g_height _ _ G). tauto. Qed.

Lemma grows_val (b b' : Board) x y : grows b b' -> val b' x y = val b x y.
Proof. intros G. unfold val. rewrite (g_board _ _ G). reflexivity. Qed.

Lemma grows_flagged (b b' : Board) x y :
  grows b b' -> is_flagged b' x y = is_flagged b x y.
Proof. intros G. unfold is_flagged. rewrite (g_flagged _ _ G). reflexivity. Qed.

Lemma grows_inside (b b' : Board) x y : grows b b' -> inside b' x y = inside b x y.
Proof. intros G. unfold inside. rewrite (g_width _ _ G), (g_height _ _ G). reflexivity. Qed.

Lemma grows_wf (b b' : Board) : wf b -> grows b b' -> wf b'.
Proof.
  intros (Hb & Hr & Hf) G. unfold wf.
  rewrite (g_width _ _ G), (g_height _ _ G), (g_board _ _ G), (g_flagged _ _ G).
  split; [exact Hb|split; [apply (g_shape _ _ G)|exact Hf]].
Qed.

Lemma grows_trans (b1 b2 b3 : Board) : grows b1 b2 -> grows b2 b3 -> grows b1 b3.
Proof.
  intros G1 G2. split.
  - rewrite (g_width _ _ G2). apply G1.
  - rewrite (g_height _ _ G2). apply G1.
  - rewrite (g_count _ _ G2). apply G1.
  - rewrite (g_board _ _ G2). apply G1.
  - rewrite (g_flagged _ _ G2). apply G1.
  - rewrite (g_mines _ _ G2). apply G1.
  - rewrite <- (g_width _ _ G1), <- (g_height _ _ G1). apply G2.
  - intros x y Hg Hr. apply (g_mono _ _ G2).
    + apply (grows_on_grid b1 b2); assumption.
    + apply (g_mono _ _ G1); assumption.
Qed.

Lemma grows_still_hidden (b b' : Board) x y :
  grows b b' -> on_grid b x y -> is_revealed b' x y = false -> is_revealed b x y = false.
Proof.
  intros G Hg H'. destruct (is_revealed b x y) eqn:E; [|reflexivity].
  rewrite (g_mono _ _ G x y Hg E) in H'. discriminate.
Qed.

Lemma is_revealed_marked (b : Board) (x y x' y' : Z) :
  wf b -> on_grid b x y -> on_grid b x' y' ->
  is_revealed (marked b x y) x' y'
  = if bool_decide ((x', y') = (x, y)) then true else is_revealed b x' y'.
Proof.
  intros (_ & Hr & _) Hg Hg'. unfold is_revealed, marked. simpl.
  apply (NpFacts.peek_poke false _ _ _ x y x' y' true Hr Hg Hg').
Qed.

Lemma grows_marked (b : Board) (x y : Z) :
  wf b -> on_grid b x y -> grows b (marked b x y).
Proof.
  intros Hwf Hg. split; try reflexivity.
  - simpl. apply NpFacts.shape_poke. apply Hwf.
  - intros x' y' Hg' Hr. rewrite (is_revealed_marked b x y x' y' Hwf Hg Hg').
    destruct (bool_decide _); [reflexivity|exact Hr].
Qed.

Lemma mark_revealed_spec (s : reveal_state) (x y : Z) :
  wf s.1 -> on_grid s.1 x y ->
  mark_revealed x y s = Ok (marked s.1 x y, (x, y) :: s.2).
Proof.
  intros (_ & Hr & _) Hg. unfold mark_revealed, marked.
  rewrite (NpFacts.setitem_poke _ _ _ x y true Hr Hg). reflexivity.
Qed.

Lemma length_filter_mono {A} (P Q : A -> Prop)
      `{DP : !forall x, Decision (P x), DQ : !forall x, Decision (Q x)} (l : list A) :
  (forall x, x ∈ l -> P x -> Q x) ->
  (length (filter P l) <= length (filter Q l))%nat.
Proof.
  induction l as [|a l IH]; intros Himp; [reflexivity|].
  assert (IH' : (length (filter P l) <= length (filter Q l))%nat).
  { apply IH. intros x Hx. apply Himp. apply elem_of_cons. auto. }
  rewrite !filter_cons. destruct (decide (P a)) as [Hp|Hp].
  - rewrite decide_True by (apply Himp; [apply elem_of_cons; auto|exact Hp]).
    simpl. lia.
  - destruct (decide (Q a)); simpl; lia.
Qed.

Lemma length_filter_strict {A} (P Q : A -> Prop)
      `{DP : !forall x, Decision (P x), DQ : !forall x, Decision (Q x)} (l : list A) (x0 : A) :
  (forall x, x ∈ l -> P x -> Q x) -> x0 ∈ l -> Q x0 -> ~ P x0 ->
  (length (filter P l) < length (filter Q l))%nat.
Proof.
  intros Himp Hin Hq Hp. apply list_elem_of_split in Hin as (l1 & l2 & ->).
  rewrite !filter_app, !length_app, !filter_cons.
  rewrite decide_False by exact Hp. rewrite decide_True by exact Hq.
  assert ((length (filter P l1) <= length (filter Q l1))%nat).
  { apply length_filter_mono. intros x Hx. apply Himp. apply elem_of_app. auto. }
  assert ((length (filter P l2) <= length (filter Q l2))%nat).
  { apply length_filter_mono. intros x Hx. apply Himp.
    apply elem_of_app. right. apply elem_of_cons. auto. }
  simpl. lia.
Qed.

Lemma hidden_grows (b b' : Board) : grows b b' -> (hidden b' <= hidden b)%nat.
Proof.
  intros G. unfold hidden. rewrite (g_width _ _ G), (g_height _ _ G).
  apply length_filter_mono. intros p Hp Hr.
  apply elem_of_all_positions in Hp.
  apply (grows_still_hidden b b'); assumption.
Qed.

Lemma hidden_marked (b : Board) (x y : Z) :
  wf b -> on_grid b x y -> is_revealed b x y = false ->
  (hidden (marked b x y) < hidden b)%nat.
Proof.
  intros Hwf Hg Hr. unfold hidden.
  change (height (marked b x y)) with (height b).
  change (width (marked b x y)) with (width b).
  apply (length_filter_strict _ _ _ (x, y)).
  - intros p Hp Hm. apply elem_of_all_positions in Hp.
    apply (grows_still_hidden b (marked b x y)); auto using grows_marked.
  - apply elem_of_all_positions. exact Hg.
  - exact Hr.
  - simpl. rewrite (is_revealed_marked b x y x y Hwf Hg Hg).
    rewrite bool_decide_eq_true_2 by reflexivity. discriminate.
Qed.

Lemma flood_open (b : Board) (p c : cell) : flood b p c -> open b c.
Proof. intros H. destruct H; assumption. Qed.

Lemma grows_open (b b' : Board) (c : cell) : grows b b' -> open b' c -> open b c.
Proof.
  intros G (Hg & Hr & Hf). apply (grows_on_grid b b') in Hg; [|exact G].
  split; [exact Hg|]. split.
  - apply (grows_still_hidden b b'); assumption.
  - rewrite <- (grows_flagged b b') by exact G. exact Hf.
Qed.

(** A flood fill started, later, around a cell with number 0 that an
    earlier one gets to stays within the earlier one. *)
Lemma flood_shift (b b1 : Board) (p n c : cell) :
  grows b b1 -> flood b p n -> val b n.1 n.2 = 0 -> flood b1 n c -> flood b p c.
Proof.
  intros G Hn H0 Hc. induction Hc as [c Hadj Hop|c c' _ IH Hv Hadj Hop].
  - apply (flood_next b p n c); auto. apply (grows_open b b1); assumption.
  - apply (flood_next b p c c'); auto.
    + rewrite <- (grows_val b b1) by exact G. exact Hv.
    + apply (grows_open b b1); assumption.
Qed.

Lemma filled_start (p : cell) (s : reveal_state) : wf s.1 -> filled p [] s s.
Proof.
  intros Hwf. split; [apply grows_refl; exact Hwf|]. exists [].
  split; [reflexivity|]. split; [constructor|]. split; [|split; [|split]].
  - intros c. rewrite elem_of_nil. split; [tauto|].
    intros (_ & H1 & H2). congruence.
  - intros c Hc. apply elem_of_nil in Hc. contradiction.
  - intros d Hd. apply elem_of_nil in Hd. contradiction.
  - intros c Hc. apply elem_of_nil in Hc. contradiction.
Qed.

Lemma filled_skip (p : cell) (pre : list cell) (d : cell) (s s' : reveal_state) :
  filled p pre s s' ->
  d = (0, 0) \/ ~ on_grid s.1 (p.1 + d.1) (p.2 + d.2)
  \/ is_revealed s'.1 (p.1 + d.1) (p.2 + d.2) = true
  \/ is_flagged s.1 (p.1 + d.1) (p.2 + d.2) = true ->
  filled p (pre ++ [d]) s s'.
Proof.
  intros (G & log & E & ND & Iff & Snd & Cd & Cl) Hd.
  split; [exact G|]. exists log. repeat (split; [assumption|]).
  split; [|exact Cl].
  intros d' Hin Hne Hg Hf. apply elem_of_app in Hin as [Hin|Hin].
  - apply Cd; assumption.
  - apply list_elem_of_singleton in Hin. subst d'.
    destruct Hd as [Hd| [Hd| [Hd|Hd]]]; [contradiction|contradiction|exact Hd|congruence].
Qed.

Lemma filled_step (p : cell) (pre : list cell) (d : cell)
      (s s1 s2 : reveal_state) :
  let n : cell := (p.1 + d.1, p.2 + d.2) in
  wf s.1 -> filled p pre s s1 ->
  d ∈ offsets -> d <> (0, 0) -> open s1.1 n ->
  (val s.1 n.1 n.2 = 0 /\ filled n offsets (marked s1.1 n.1 n.2, n :: s1.2) s2)
  \/ (val s.1 n.1 n.2 <> 0 /\ s2 = (marked s1.1 n.1 n.2, n :: s1.2)) ->
  filled p (pre ++ [d]) s s2.
Proof.
  intros n Hwf (G1 & log1 & E1 & ND1 & Iff1 & Snd1 & Cd1 & Cl1) Hd Hne Hop Hcase.
  set (b := s.1) in *. set (b1 := s1.1) in *.
  set (b2 := marked b1 n.1 n.2) in *.
  assert (Hwf1 : wf b1) by (apply (grows_wf b b1); assumption).
  pose proof Hop as (Hg1 & Hr1 & Hf1).
  assert (Gm : grows b1 b2) by (apply grows_marked; assumption).
  assert (G12 : grows b b2) by (apply (grows_trans b b1 b2); assumption).
  assert (Hwf2 : wf b2) by (apply (grows_wf b b2); assumption).
  assert (Hopb : open b n) by (apply (grows_open b b1); assumption).
  pose proof Hopb as (Hg & Hr & Hf).
  assert (Hadj : adjacent p n).
  { apply adjacent_offset. exists d. auto. }
  assert (Hfl : flood b p n) by (apply flood_first; assumption).
  assert (Hn2 : is_revealed b2 n.1 n.2 = true).
  { unfold b2. rewrite (is_revealed_marked b1 _ _ _ _ Hwf1 Hg1 Hg1).
    rewrite bool_decide_eq_true_2; reflexivity. }
  assert (F2 : grows b2 s2.1 /\ exists log2 : list cell,
             s2.2 = log2 ++ n :: s1.2 /\ NoDup log2 /\
             (forall c : cell, c ∈ log2 <->
                on_grid b2 c.1 c.2 /\ is_revealed b2 c.1 c.2 = false /\
                is_revealed s2.1 c.1 c.2 = true) /\
             (forall c : cell, c ∈ log2 -> flood b p c) /\
             (val b n.1 n.2 = 0 -> forall m : cell, adjacent n m ->
                on_grid b m.1 m.2 -> is_flagged b m.1 m.2 = false ->
                is_revealed s2.1 m.1 m.2 = true) /\
             (forall c : cell, c ∈ log2 -> val b c.1 c.2 = 0 ->
                forall m : cell, adjacent c m -> on_grid b m.1 m.2 ->
                  is_flagged b m.1 m.2 = false -> is_revealed s2.1 m.1 m.2 = true)).
  { destruct Hcase as [[Hz (G2 & log2 & E2 & ND2 & Iff2 & Snd2 & Cd2 & Cl2)]|[Hz ->]].
    - simpl in G2, E2, Iff2, Snd2, Cd2, Cl2. fold b2 in G2, Iff2, Snd2, Cd2, Cl2.
      split; [exact G2|]. exists log2. repeat (split; [assumption|]).
      split; [|split].
      + intros c Hc. apply (flood_shift b b2 p n c); auto.
      + intros _ m Hm Hgm Hfm. apply adjacent_offset in Hm as (d' & Hd' & Hne' & ->).
        simpl in *. apply (Cd2 d' Hd' Hne').
        * apply (grows_on_grid b b2); assumption.
        * rewrite (grows_flagged b b2) by exact G12. exact Hfm.
      + intros c Hc Hv m Hm Hgm Hfm. apply (Cl2 c Hc); auto.
        * rewrite (grows_val b b2) by exact G12. exact Hv.
        * apply (grows_on_grid b b2); assumption.
        * rewrite (grows_flagged b b2) by exact G12. exact Hfm.
    - simpl. fold b2. split; [apply grows_refl; exact Hwf2|]. exists [].
      split; [reflexivity|]. split; [constructor|]. split; [|split; [|split]].
      + intros c. rewrite elem_of_nil. split; [tauto|].
        intros (_ & H1 & H2). congruence.
      + intros c Hc. apply elem_of_nil in Hc. contradiction.
      + intros Hz'. contradiction.
      + intros c Hc. apply elem_of_nil in Hc. contradiction. }
  destruct F2 as (G2 & log2 & E2 & ND2 & Iff2 & Snd2 & Cn & Cl2).
  assert (G : grows b s2.1) by (apply (grows_trans b b2); assumption).
  assert (G1' : grows b1 s2.1) by (apply (grows_trans b1 b2); assumption).
  assert (Hn1 : n ∉ log1).
  { intros Hin. apply Iff1 in Hin as (_ & _ & Hin). fold b1 in Hin. congruence. }
  split; [exact G|]. exists (log2 ++ n :: log1).
  split; [|split; [|split; [|split; [|split]]]].
  - rewrite E2, E1, <- app_assoc. reflexivity.
  - apply NoDup_app. split; [exact ND2|]. split; [|constructor; assumption].
    intros c Hc Hin. apply Iff2 in Hc as (Hgc & Hrc & _).
    apply elem_of_cons in Hin as [->|Hin]; [congruence|].
    apply Iff1 in Hin as (Hgc1 & _ & Hin). fold b1 in Hin.
    apply (grows_on_grid b b1) in Hgc1; [|exact G1].
    rewrite (g_mono _ _ Gm _ _ Hgc1 Hin) in Hrc. discriminate.
  - intros c. rewrite elem_of_app, elem_of_cons. split.
    + intros [Hc| [->|Hc]].
      * apply Iff2 in Hc as (Hgc & Hrc & Hsc).
        apply (grows_on_grid b b2) in Hgc; [|exact G12].
        split; [exact Hgc|]. split; [|exact Hsc].
        apply (grows_still_hidden b b2); assumption.
      * split; [exact Hg|]. split; [exact Hr|].
        apply (g_mono _ _ G2); [|exact Hn2].
        apply (grows_on_grid b b2); assumption.
      * apply Iff1 in Hc as (Hgc & Hrc & Hsc). split; [exact Hgc|].
        split; [exact Hrc|]. apply (g_mono _ _ G1'); [|exact Hsc].
        apply (grows_on_grid b b1); assumption.
    + intros (Hgc & Hrc & Hsc).
      assert (Hgc1 : on_grid b1 c.1 c.2) by (apply (grows_on_grid b b1); assumption).
      destruct (is_revealed b2 c.1 c.2) eqn:E.
      * unfold b2 in E. rewrite (is_revealed_marked b1 _ _ _ _ Hwf1 Hg1 Hgc1) in E.
        destruct (bool_decide ((c.1, c.2) = (n.1, n.2))) eqn:Ec.
        -- apply bool_decide_eq_true in Ec. right. left.
           destruct c, n. simpl in *. exact Ec.
        -- right. right. apply Iff1. auto.
      * left. apply Iff2. split; [|auto].
        apply (grows_on_grid b b2); assumption.
  - intros c Hc. apply elem_of_app in Hc as [Hc|Hc]; [apply Snd2; exact Hc|].
    apply elem_of_cons in Hc as [->|Hc]; [exact Hfl|apply Snd1; exact Hc].
  - intros d' Hin Hne' Hgd Hfd. apply elem_of_app in Hin as [Hin|Hin].
    + apply (g_mono _ _ G1').
      * apply (grows_on_grid b b1); assumption.
      * apply Cd1; assumption.
    + apply list_elem_of_singleton in Hin. subst d'.
      apply (g_mono _ _ G2); [|exact Hn2].
      apply (grows_on_grid b b2); assumption.
  - intros c Hc Hv m Hm Hgm Hfm. apply elem_of_app in Hc as [Hc|Hc].
    + apply (Cl2 c Hc Hv m); assumption.
    + apply elem_of_cons in Hc as [->|Hc].
      * apply (Cn Hv m); assumption.
      * apply (g_mono _ _ G1').
        -- apply (grows_on_grid b b1); assumption.
        -- apply (Cl1 c Hc Hv m); assumption.
Qed.

Lemma reveal_adjacent_S (fuel' : nat) (x y : Z) (s : reveal_state) :
  reveal_adjacent (S fuel') x y s
  = for_each offsets (fun d => visit fuel' x y d.1 d.2) s.
Proof.
  unfold offsets. rewrite <- (for_each_nested _ _ (visit fuel' x y)). reflexivity.
Qed.

(** With more fuel than there are hidden cells, [_reveal_adjacent]
    returns, and its effect is the one described by [filled]. *)
Lemma reveal_adjacent_filled (fuel : nat) :
  forall (x y : Z) (s : reveal_state),
    wf s.1 -> (hidden s.1 < fuel)%nat ->
    exists s', reveal_adjacent fuel x y s = Ok s' /\ filled (x, y) offsets s s'.
Proof.
  induction fuel as [|f IH]; intros x y s Hwf Hfuel; [lia|].
  rewrite reveal_adjacent_S.
  apply (for_each_invariant (fun pre s1 => filled (x, y) pre s s1)).
  { apply filled_start. exact Hwf. }
  intros pre d post s1 Hl HF.
  assert (Hd : d ∈ offsets).
  { rewrite Hl. apply elem_of_app. right. apply elem_of_cons. auto. }
  pose proof HF as (G1 & _).
  assert (Hwf1 : wf s1.1) by (apply (grows_wf s.1); assumption).
  unfold visit.
  destruct ((d.1 =? 0) && (d.2 =? 0)) eqn:E0.
  { exists s1. split; [reflexivity|]. apply filled_skip; [exact HF|]. left.
    apply andb_true_iff in E0 as [H1 H2]. apply Z.eqb_eq in H1, H2.
    destruct d; simpl in *; congruence. }
  assert (Hne : d <> (0, 0)).
  { intros ->. simpl in E0. discriminate. }
  cbv zeta.
  destruct (inside s1.1 (x + d.1) (y + d.2)) eqn:Ein.
  2:{ exists s1. split; [reflexivity|]. apply filled_skip; [exact HF|].
      right. left. intros Hg. apply (grows_on_grid s.1 s1.1 _ _ G1) in Hg.
      apply inside_spec in Hg. simpl in Hg. congruence. }
  apply inside_spec in Ein.
  rewrite (get_revealed _ _ _ Hwf1 Ein). simpl.
  destruct (is_revealed s1.1 (x + d.1) (y + d.2)) eqn:Er; simpl.
  { exists s1. split; [reflexivity|]. apply filled_skip; [exact HF|]. auto. }
  rewrite (get_flagged _ _ _ Hwf1 Ein). simpl.
  destruct (is_flagged s1.1 (x + d.1) (y + d.2)) eqn:Ef; simpl.
  { exists s1. split; [reflexivity|]. apply filled_skip; [exact HF|].
    right. right. right. rewrite <- (grows_flagged s.1 s1.1) by exact G1. exact Ef. }
  rewrite (mark_revealed_spec s1 _ _ Hwf1 Ein).
  rewrite bind_Ok. cbn [fst snd].
  change (board (marked s1.1 (x + d.1) (y + d.2))) with (board s1.1).
  assert (Gm : grows s1.1 (marked s1.1 (x + d.1) (y + d.2)))
    by (apply grows_marked; assumption).
  assert (Hwf2 : wf (marked s1.1 (x + d.1) (y + d.2)))
    by (apply (grows_wf s1.1); assumption).
  assert (Hg2 : on_grid (marked s1.1 (x + d.1) (y + d.2)) (x + d.1) (y + d.2))
    by exact Ein.
  rewrite (get_board _ _ _ Hwf1 Ein). simpl.
  rewrite (grows_val s.1 s1.1 _ _ G1).
  assert (Hop : open s1.1 (x + d.1, y + d.2)) by (split; [exact Ein|split; assumption]).
  destruct (val s.1 (x + d.1) (y + d.2) =? 0) eqn:Ev.
  - apply Z.eqb_eq in Ev.
    destruct (IH (x + d.1) (y + d.2)
                 (marked s1.1 (x + d.1) (y + d.2), (x + d.1, y + d.2) :: s1.2))
      as (s2 & Hrun & HF2).
    + exact Hwf2.
    + simpl. pose proof (hidden_marked s1.1 _ _ Hwf1 Ein Er).
      pose proof (hidden_grows s.1 s1.1 G1). lia.
    + exists s2. split; [exact Hrun|].
      apply (filled_step (x, y) pre d s s1 s2); auto.
  - apply Z.eqb_neq in Ev. eexists. split; [reflexivity|].
    apply (filled_step (x, y) pre d s s1); auto.
Qed.

(** What a completed [_reveal_adjacent] has marked is exactly what the
    flood fill gets to. *)
Lemma filled_flood (p : cell) (s s' : reveal_state) :
  filled p offsets s s' ->
  grows s.1 s'.1 /\
  exists log : list cell,
    s'.2 = log ++ s.2 /\ NoDup log /\
    (forall c : cell, c ∈ log <-> flood s.1 p c) /\
    (forall c : cell, on_grid s.1 c.1 c.2 ->
       is_revealed s'.1 c.1 c.2 = true <->
       is_revealed s.1 c.1 c.2 = true \/ c ∈ log).
Proof.
  intros (G & log & E & ND & Iff & Snd & Cd & Cl).
  split; [exact G|]. exists log. split; [exact E|]. split; [exact ND|].
  split.
  - intros c. split; [apply Snd|].
    intros Hf. induction Hf as [c Hadj Hop|c c' _ IH Hv Hadj Hop].
    + destruct Hop as (Hg & Hr & Hf). apply Iff. split; [exact Hg|].
      split; [exact Hr|].
      apply adjacent_offset in Hadj as (d & Hd & Hne & ->). simpl in *.
      apply Cd; assumption.
    + destruct Hop as (Hg & Hr & Hf). apply Iff. split; [exact Hg|].
      split; [exact Hr|]. apply (Cl c IH Hv c'); assumption.
  - intros c Hg. split.
    + intros Hr'. destruct (is_revealed s.1 c.1 c.2) eqn:E0; [auto|].
      right. apply Iff. auto.
    + intros [Hr|Hin]; [apply (g_mono _ _ G); assumption|].
      apply Iff in Hin. tauto.
Qed.

Lemma cleared_nonzero (b : Board) (p c : cell) :
  val b p.1 p.2 <> 0 -> cleared b p c <-> c = p.
Proof.
  intros Hv. split; [|intros ->; constructor].
  intros H. induction H as [|c c' _ IH Hz _ _]; [reflexivity|].
  subst c. contradiction.
Qed.

Lemma cleared_zero (b : Board) (p c : cell) :
  wf b -> open b p -> val b p.1 p.2 = 0 ->
  cleared b p c <-> c = p \/ flood (marked b p.1 p.2) p c.
Proof.
  intros Hwf (Hg & Hr & Hf) Hz.
  assert (G : grows b (marked b p.1 p.2)) by (apply grows_marked; assumption).
  assert (Hopen1 : forall c', open b c' -> c' <> p -> open (marked b p.1 p.2) c').
  { intros c' (Hg' & Hr' & Hf') Hne. split; [exact Hg'|]. split; [|exact Hf'].
    rewrite (is_revealed_marked b _ _ _ _ Hwf Hg Hg').
    rewrite bool_decide_eq_false_2; [exact Hr'|].
    intros Heq. apply Hne. destruct c', p. simpl in *. exact Heq. }
  split.
  - intros H. induction H as [|c c' Hc IH Hv Hadj Hop]; [auto|].
    destruct (decide (c' = p)) as [->|Hne]; [auto|]. right.
    destruct IH as [->|IH].
    + apply flood_first; auto.
    + apply (flood_next _ _ c c'); auto.
  - intros [->|H]; [constructor|].
    induction H as [c Hadj Hop|c c' _ IH Hv Hadj Hop].
    + apply (cleared_next b p p c); auto; [constructor|].
      apply (grows_open b (marked b p.1 p.2)); assumption.
    + apply (cleared_next b p c c'); auto.
      apply (grows_open b (marked b p.1 p.2)); assumption.
Qed.

(** [reveal] on a flagged or revealed cell. *)
Lemma reveal_noop (fuel : nat) (b : Board) (x y : Z) :
  wf b -> on_grid b x y ->
  is_flagged b x y = true \/ is_revealed b x y = true ->
  reveal fuel b x y = Ok (true, (b, [])).
Proof.
  intros Hwf Hg H. unfold reveal.
  rewrite (get_flagged b x y Hwf Hg). simpl.
  destruct (is_flagged b x y); [reflexivity|].
  rewrite (get_revealed b x y Hwf Hg). simpl.
  destruct (is_revealed b x y); [reflexivity|].
  destruct H; discriminate.
Qed.

(** [reveal] on a cell that is neither flagged nor revealed. *)
Lemma reveal_open (fuel : nat) (b : Board) (x y : Z) :
  wf b -> open b (x, y) -> (hidden b <= fuel)%nat ->
  exists (b' : Board) (log : list cell),
    reveal fuel b x y = Ok (negb (val b x y =? -1), (b', log)) /\
    grows b b' /\ NoDup log /\
    (forall c : cell, c ∈ log <-> cleared b (x, y) c) /\
    (forall c : cell, on_grid b c.1 c.2 ->
       is_revealed b' c.1 c.2 = true <-> is_revealed b c.1 c.2 = true \/ c ∈ log).
Proof.
  intros Hwf Hop Hfuel. pose proof Hop as (Hg & Hr & Hf). simpl in Hg, Hr, Hf.
  assert (G : grows b (marked b x y)) by (apply grows_marked; assumption).
  assert (Hwf1 : wf (marked b x y)) by (apply (grows_wf b); assumption).
  assert (Hsingle : forall c : cell, on_grid b c.1 c.2 ->
            is_revealed (marked b x y) c.1 c.2 = true <->
            is_revealed b c.1 c.2 = true \/ c ∈ [(x, y)]).
  { intros c Hgc. rewrite (is_revealed_marked b _ _ _ _ Hwf Hg Hgc).
    rewrite list_elem_of_singleton.
    destruct (bool_decide ((c.1, c.2) = (x, y))) eqn:E.
    - apply bool_decide_eq_true in E. destruct c. simpl in *. tauto.
    - apply bool_decide_eq_false in E. split; [auto|].
      intros [H|H]; [exact H|]. destruct c. simpl in *. contradiction. }
  unfold reveal.
  rewrite (get_flagged b x y Hwf Hg), Hf. simpl.
  rewrite (get_revealed b x y Hwf Hg), Hr. simpl.
  rewrite (mark_revealed_spec (b, []) x y Hwf Hg).
  rewrite bind_Ok. cbn [fst snd].
  change (board (marked b x y)) with (board b).
  rewrite (get_board b x y Hwf Hg). rewrite !bind_Ok.
  destruct (val b x y =? -1) eqn:Em.
  { apply Z.eqb_eq in Em. exists (marked b x y), [(x, y)].
    split; [reflexivity|]. split; [exact G|].
    split; [apply NoDup_singleton|]. split; [|exact Hsingle].
    intros c. rewrite list_elem_of_singleton. symmetry.
    apply cleared_nonzero. simpl. lia. }
  destruct (val b x y =? 0) eqn:Ez.
  2:{ apply Z.eqb_neq in Ez. exists (marked b x y), [(x, y)].
      split; [reflexivity|]. split; [exact G|].
      split; [apply NoDup_singleton|]. split; [|exact Hsingle].
      intros c. rewrite list_elem_of_singleton. symmetry.
      apply cleared_nonzero. exact Ez. }
  apply Z.eqb_eq in Ez.
  destruct (reveal_adjacent_filled fuel x y (marked b x y, [(x, y)])) as (s' & Hrun & HF).
  { exact Hwf1. }
  { simpl. pose proof (hidden_marked b x y Hwf Hg Hr). lia. }
  rewrite Hrun, bind_Ok. destruct s' as [b' log'].
  apply filled_flood in HF as (G' & log & E & ND & Hfl & Hrev). simpl in *.
  subst log'. exists b', (log ++ [(x, y)]).
  split; [reflexivity|]. split; [apply (grows_trans b (marked b x y)); assumption|].
  assert (Hxy : (x, y) ∉ log).
  { intros Hin. apply Hfl in Hin. apply flood_open in Hin as (_ & Hin & _).
    simpl in Hin. rewrite (is_revealed_marked b _ _ _ _ Hwf Hg Hg) in Hin.
    rewrite bool_decide_eq_true_2 in Hin by reflexivity. discriminate. }
  split; [|split].
  - apply NoDup_app. split; [exact ND|]. split; [|apply NoDup_singleton].
    intros c Hc Hin. apply list_elem_of_singleton in Hin. subst c. contradiction.
  - intros c. rewrite elem_of_app, list_elem_of_singleton.
    rewrite (cleared_zero b (x, y) c Hwf Hop Ez). simpl. rewrite Hfl. tauto.
  - intros c Hgc. rewrite (Hrev c Hgc), (Hsingle c Hgc).
    rewrite elem_of_app. tauto.
Qed.

(** [reveal] on a hidden, unflagged mine: the cell is marked and nothing
    else happens. *)
Lemma reveal_mine (fuel : nat) (b : Board) (x y : Z) :
  wf b -> open b (x, y) -> val b x y = -1 ->
  reveal fuel b x y = Ok (false, (marked b x y, [(x, y)])).
Proof.
  intros Hwf (Hg & Hr & Hf) Hv. simpl in Hg, Hr, Hf. unfold reveal.
  rewrite (get_flagged b x y Hwf Hg), Hf. simpl.
  rewrite (get_revealed b x y Hwf Hg), Hr. simpl.
  rewrite (mark_revealed_spec (b, []) x y Hwf Hg).
  rewrite bind_Ok. cbn [fst snd].
  change (board (marked b x y)) with (board b).
  rewrite (get_board b x y Hwf Hg), bind_Ok, Hv. reflexivity.
Qed.

(** On a grid whose numbers are right, nothing [reveal] marks from a
    cell that is not a mine is a mine. *)
Lemma cleared_safe (b : Board) (p c : cell) :
  numbers_ok b -> on_grid b p.1 p.2 -> val b p.1 p.2 <> -1 ->
  cleared b p c -> on_grid b c.1 c.2 /\ val b c.1 c.2 <> -1.
Proof.
  intros Hnum Hg Hv H. induction H as [|c c' _ [IHg IHv] Hz Hadj (Hg' & _)]; [auto|].
  split; [exact Hg'|].
  apply (mines_around_zero b c.1 c.2 c'); [|destruct c; exact Hadj|exact Hg'].
  rewrite <- (Hnum c.1 c.2 IHg IHv). exact Hz.
Qed.

(** On a grid without mines every count is zero. *)
Lemma mines_around_no_mines (b : Board) (x y : Z) :
  (forall u v, on_grid b u v -> val b u v <> -1) -> mines_around b x y = 0.
Proof.
  intros Hno.
  assert (Hm : forall u v, mine_at b u v = 0).
  { intros u v. unfold mine_at. destruct (inside b u v) eqn:E; [|reflexivity].
    apply inside_spec in E. apply Hno in E. apply Z.eqb_neq in E.
    rewrite E. reflexivity. }
  unfold mines_around. rewrite !Hm. reflexivity.
Qed.

(** On a fresh grid without mines and flags, [reveal] gets from any cell
    to every cell. *)
Lemma cleared_everywhere (b : Board) (p : cell) :
  (forall u v, on_grid b u v -> val b u v = 0) ->
  (forall u v, on_grid b u v -> is_flagged b u v = false) ->
  (forall u v, on_grid b u v -> is_revealed b u v = false) ->
  on_grid b p.1 p.2 ->
  forall c : cell, on_grid b c.1 c.2 -> cleared b p c.
Proof.
  intros Hz Hf Hr Hp.
  assert (Hn : forall (n : nat) (c : cell), on_grid b c.1 c.2 ->
            Z.abs (c.1 - p.1) <= Z.of_nat n -> Z.abs (c.2 - p.2) <= Z.of_nat n ->
            cleared b p c).
  { induction n as [|n IH]; intros [cx cy] Hg H1 H2; simpl in *.
    - assert (cx = p.1) by lia. assert (cy = p.2) by lia.
      destruct p. simpl in *. subst. constructor.
    - destruct (decide (Z.abs (cx - p.1) <= Z.of_nat n /\ Z.abs (cy - p.2) <= Z.of_nat n))
        as [[H1' H2']|Hfar]; [apply (IH (cx, cy)); assumption|].
      set (sx := if decide (cx < p.1) then cx + 1
                 else if decide (p.1 < cx) then cx - 1 else cx).
      set (sy := if decide (cy < p.2) then cy + 1
                 else if decide (p.2 < cy) then cy - 1 else cy).
      assert (Hs : (-1 <= cx - sx <= 1 /\ -1 <= cy - sy <= 1) /\
                   (sx, sy) <> (cx, cy) /\
                   on_grid b sx sy /\
                   Z.abs (sx - p.1) <= Z.of_nat n /\ Z.abs (sy - p.2) <= Z.of_nat n).
      { unfold on_grid, in_bounds in Hg, Hp |- *. unfold sx, sy.
        repeat case_decide; (split; [lia|split; [intros [=]; lia|lia]]). }
      destruct Hs as (Hnear & Hne & Hgs & Hd1 & Hd2).
      apply (cleared_next b p (sx, sy) (cx, cy)).
      + apply (IH (sx, sy)); assumption.
      + apply Hz. exact Hgs.
      + split; [congruence|exact Hnear].
      + split; [exact Hg|]. split; [apply Hr|apply Hf]; exact Hg. }
  intros c Hg.
  apply (Hn (Z.to_nat (Z.max (Z.abs (c.1 - p.1)) (Z.abs (c.2 - p.2)))) c Hg); lia.
Qed.

Lemma for_each_mono {A S} (l : list A) (body body' : A -> S -> result S) :
  (forall a s s', body a s = Ok s' -> body' a s = Ok s') ->
  forall s s', for_each l body s = Ok s' -> for_each l body' s = Ok s'.
Proof.
  intros Hb. induction l as [|a l IH]; intros s s' H; simpl in *; [exact H|].
  apply bind_Ok_inv in H as (s1 & H1 & H2).
  rewrite (Hb a s s1 H1). simpl. apply IH. exact H2.
Qed.

(** A run of the flood fill that returns is not changed by more fuel. *)
Lemma reveal_adjacent_more_fuel (fuel : nat) :
  forall x y s s',
    reveal_adjacent fuel x y s = Ok s' -> reveal_adjacent (S fuel) x y s = Ok s'.
Proof.
  induction fuel as [|f IH]; intros x y s s' H; [discriminate|].
  rewrite reveal_adjacent_S in H |- *.
  revert H. apply for_each_mono. clear s s'. intros d s s'. unfold visit.
  destruct ((d.1 =? 0) && (d.2 =? 0)); [auto|]. cbv zeta.
  destruct (inside s.1 (x + d.1) (y + d.2)); [|auto].
  destruct (Np.getitem (revealed s.1) (x + d.1) (y + d.2)) as [r| |];
    simpl; [|discriminate|discriminate].
  destruct r; simpl; [auto|].
  destruct (Np.getitem (flagged s.1) (x + d.1) (y + d.2)) as [fl| |];
    simpl; [|discriminate|discriminate].
  destruct fl; simpl; [auto|].
  destruct (mark_revealed (x + d.1) (y + d.2) s) as [s1| |];
    simpl; [|discriminate|discriminate].
  destruct (Np.getitem (board s1.1) (x + d.1) (y + d.2)) as [v| |];
    simpl; [|discriminate|discriminate].
  destruct (v =? 0); [apply IH|auto].
Qed.

(** The result of [reveal] does not depend on the fuel, once there is
    enough of it. *)
Lemma reveal_more_fuel (fuel fuel' : nat) (b : Board) (x y : Z) r :
  (fuel <= fuel')%nat -> reveal fuel b x y = Ok r -> reveal fuel' b x y = Ok r.
Proof.
  intros Hle. induction Hle as [|f Hle IH]; [auto|].
  intros H. specialize (IH H). revert IH. unfold reveal.
  destruct (Np.getitem (flagged b) x y) as [fl| |]; cbn [bind]; [|auto|auto].
  destruct fl; [auto|].
  destruct (Np.getitem (revealed b) x y) as [rv| |]; cbn [bind]; [|auto|auto].
  destruct rv; [auto|].
  destruct (mark_revealed x y (b, [])) as [s1| |]; cbn [bind]; [|auto|auto].
  destruct (Np.getitem (board s1.1) x y) as [v| |]; cbn [bind]; [|auto|auto].
  destruct (v =? -1); [auto|]. destruct (v =? 0); [|auto].
  destruct (reveal_adjacent f x y s1) as [s2| |] eqn:E; cbn [bind];
    [|discriminate|discriminate].
  rewrite (reveal_adjacent_more_fuel f x y s1 s2 E). auto.
Qed.

(** ** The depth of the recursion *)

Lemma for_each_deeper {A S} (l : list A) (body body' : A -> S -> result S) :
  (forall a s, body a s <> OutOfFuel -> body' a s = body a s) ->
  forall s, for_each l body s <> OutOfFuel -> for_each l body' s = for_each l body s.
Proof.
  intros Hb. induction l as [|a l IH]; intros s H; simpl in *; [reflexivity|].
  destruct (body a s) as [s1|e|] eqn:E.
  - rewrite (Hb a s) by congruence. rewrite E. cbn [bind] in *. apply IH, H.
  - rewrite (Hb a s) by congruence. rewrite E. reflexivity.
  - exfalso. apply H. reflexivity.
Qed.

(** A run of the flood fill that stays within the depth allowed, whether
    it returns or raises, is the same run when more depth is allowed. *)
Lemma reveal_adjacent_deeper (fuel : nat) :
  forall x y s,
    reveal_adjacent fuel x y s <> OutOfFuel ->
    reveal_adjacent (S fuel) x y s = reveal_adjacent fuel x y s.
Proof.
  induction fuel as [|f IH]; intros x y s H; [exfalso; apply H; reflexivity|].
  rewrite (reveal_adjacent_S f) in H.
  rewrite (reveal_adjacent_S (S f)), (reveal_adjacent_S f).
  revert H. apply for_each_deeper. clear s. intros d s. unfold visit.
  destruct ((d.1 =? 0) && (d.2 =? 0)); [auto|]. cbv zeta.
  destruct (inside s.1 (x + d.1) (y + d.2)); [|auto].
  destruct (Np.getitem (revealed s.1) (x + d.1) (y + d.2)) as [r| |];
    cbn [bind]; [|auto|auto].
  destruct r; cbn [negb]; [auto|].
  destruct (Np.getitem (flagged s.1) (x + d.1) (y + d.2)) as [fl| |];
    cbn [bind]; [|auto|auto].
  destruct fl; cbn [negb]; [auto|].
  destruct (mark_revealed (x + d.1) (y + d.2) s) as [s1| |];
    cbn [bind]; [|auto|auto].
  destruct (Np.getitem (board s1.1) (x + d.1) (y + d.2)) as [v| |];
    cbn [bind]; [|auto|auto].
  destruct (v =? 0); [apply IH|auto].
Qed.

Lemma reveal_deeper (fuel fuel' : nat) (b : Board) (x y : Z) :
  (fuel <= fuel')%nat -> reveal fuel b x y <> OutOfFuel ->
  reveal fuel' b x y = reveal fuel b x y.
Proof.
  intros Hle. induction Hle as [|f Hle IH]; [auto|].
  intros H. specialize (IH H). rewrite <- IH in H |- *. clear IH. revert H.
  unfold reveal.
  destruct (Np.getitem (flagged b) x y) as [fl| |]; cbn [bind]; [|auto|auto].
  destruct fl; [auto|].
  destruct (Np.getitem (revealed b) x y) as [rv| |]; cbn [bind]; [|auto|auto].
  destruct rv; [auto|].
  destruct (mark_revealed x y (b, [])) as [s1| |]; cbn [bind]; [|auto|auto].
  destruct (Np.getitem (board s1.1) x y) as [v| |]; cbn [bind]; [|auto|auto].
  destruct (v =? -1); [auto|]. destruct (v =? 0); [|auto].
  intros H. rewrite (reveal_adjacent_deeper f x y s1); [reflexivity|].
  intros E. apply H. rewrite E. reflexivity.
Qed.

(** A reveal that exceeds the depth allowed exceeds every smaller one. *)
Lemma reveal_too_deep (fuel fuel' : nat) (b : Board) (x y : Z) :
  (fuel <= fuel')%nat -> reveal fuel' b x y = OutOfFuel ->
  reveal fuel b x y = OutOfFuel.
Proof.
  intros Hle H. destruct (reveal fuel b x y) as [r|e|] eqn:E; [| |reflexivity].
  - rewrite (reveal_deeper fuel fuel' b x y Hle) in H by congruence. congruence.
  - rewrite (reveal_deeper fuel fuel' b x y Hle) in H by congruence. congruence.
Qed.

(** ** Claims about [reveal] *)

(** C3. The contract of [reveal] on a cell of the grid.  On a flagged or
    revealed cell it returns [True] (the move is not a mine hit), marks
    nothing and leaves the board as it is.  On any other cell it marks
    the cell revealed and returns [False] exactly when the cell is a
    mine; on a mine nothing but that one cell is marked.  A second
    [reveal] of the same cell then changes nothing. *)
Theorem reveal_contract (fuel : nat) (b : Board) (x y : Z) :
  wf b -> on_grid b x y ->
  (is_flagged b x y = true \/ is_revealed b x y = true ->
   reveal fuel b x y = Ok (true, (b, []))) /\
  (is_flagged b x y = false -> is_revealed b x y = false ->
   (hidden b <= fuel)%nat ->
   exists (r : bool) (b' : Board) (log : list cell),
     reveal fuel b x y = Ok (r, (b', log)) /\
     is_revealed b' x y = true /\
     (r = false <-> val b x y = -1) /\
     (val b x y = -1 -> b' = marked b x y /\ log = [(x, y)]) /\
     (forall fuel', reveal fuel' b' x y = Ok (true, (b', [])))).
Proof.
  intros Hwf Hg. split; [apply reveal_noop; assumption|].
  intros Hf Hr Hfuel.
  assert (Hop : open b (x, y)) by (split; [exact Hg|split; assumption]).
  destruct (reveal_open fuel b x y Hwf Hop Hfuel) as (b' & log & Hrun & G & ND & Hlog & Hrev).
  assert (Hr' : is_revealed b' x y = true).
  { apply (Hrev (x, y) Hg). right. apply Hlog. constructor. }
  exists (negb (val b x y =? -1)), b', log.
  split; [exact Hrun|]. split; [exact Hr'|]. split; [|split].
  - rewrite negb_false_iff. apply Z.eqb_eq.
  - intros Hv. rewrite (reveal_mine fuel b x y Hwf Hop Hv) in Hrun.
    injection Hrun as _ <- <-. auto.
  - intros fuel'. apply reveal_noop; [apply (grows_wf b); assumption| |auto].
    apply (grows_on_grid b b'); assumption.
Qed.

Lemma reveal_contract_witness :
  exists b : Board,
    new_board 2 2 1 (fun _ => 0%nat) = Ok b /\
    reveal 4 b 0 0 = Ok (false, (marked b 0 0, [(0, 0)])).
Proof.
  eexists. split; [vm_compute; reflexivity|].
  match goal with |- reveal _ ?b _ _ = _ =>
    assert (Hwf : wf b) by
      (unfold wf, Np.shape; simpl; repeat split; try lia; repeat constructor);
    assert (Hg : on_grid b 0 0) by (unfold on_grid, in_bounds; simpl; lia);
    destruct (proj2 (reveal_contract 4 b 0 0 Hwf Hg) eq_refl eq_refl)
      as (r & b' & log & Hrun & _ & _ & Hmine & _)
  end.
  - vm_compute. lia.
  - destruct (Hmine eq_refl) as [-> ->].
    destruct r; [vm_compute in Hrun; discriminate|exact Hrun].
Defined.

(** C10. On a grid whose numbers are right, [reveal] on a hidden,
    unflagged cell that is not a mine returns, marks no mine, and leaves
    the [revealed] entry of every mine as it was. *)
Theorem reveal_discloses_no_mine (fuel : nat) (b : Board) (x y : Z) :
  wf b -> numbers_ok b -> open b (x, y) -> val b x y <> -1 ->
  (hidden b <= fuel)%nat ->
  exists (b' : Board) (log : list cell),
    reveal fuel b x y = Ok (true, (b', log)) /\
    (forall c : cell, c ∈ log -> on_grid b c.1 c.2 /\ val b c.1 c.2 <> -1) /\
    (forall c : cell, on_grid b c.1 c.2 -> val b' c.1 c.2 = -1 ->
       is_revealed b' c.1 c.2 = is_revealed b c.1 c.2).
Proof.
  intros Hwf Hnum Hop Hv Hfuel. pose proof Hop as (Hg & _).
  destruct (reveal_open fuel b x y Hwf Hop Hfuel)
    as (b' & log & Hrun & G & ND & Hlog & Hrev).
  apply Z.eqb_neq in Hv. rewrite Hv in Hrun. apply Z.eqb_neq in Hv.
  exists b', log. split; [exact Hrun|].
  assert (Hsafe : forall c : cell, c ∈ log -> on_grid b c.1 c.2 /\ val b c.1 c.2 <> -1).
  { intros c Hc. apply Hlog in Hc. apply (cleared_safe b (x, y) c); assumption. }
  split; [exact Hsafe|].
  intros c Hgc Hmine. rewrite (grows_val b b') in Hmine by exact G.
  destruct (is_revealed b' c.1 c.2) eqn:E.
  - apply (Hrev c Hgc) in E as [E|E]; [congruence|].
    apply Hsafe in E as [_ E]. contradiction.
  - symmetry. apply (grows_still_hidden b b'); assumption.
Qed.

Lemma corner_mine_board_wf : wf corner_mine_board.
Proof.
  unfold wf, Np.shape. simpl. repeat split; try lia; repeat constructor.
Defined.

Lemma empty_board_wf : wf empty_board.
Proof.
  unfold wf, Np.shape. simpl. repeat split; try lia; repeat constructor.
Defined.

(** Properties of all cells of a 3x3 grid are checked cell by cell. *)
Lemma on_grid_3x3 (b : Board) (P : Z -> Z -> Prop) :
  height b = 3 -> width b = 3 ->
  P 0 0 -> P 0 1 -> P 0 2 -> P 1 0 -> P 1 1 -> P 1 2 -> P 2 0 -> P 2 1 -> P 2 2 ->
  forall x y, on_grid b x y -> P x y.
Proof.
  intros Hh Hw ????????? x y [Hx Hy]. rewrite Hh in Hx. rewrite Hw in Hy.
  assert (Hc : (x = 0 \/ x = 1 \/ x = 2) /\ (y = 0 \/ y = 1 \/ y = 2)) by lia.
  destruct Hc as [[->| [->| ->]] [->| [->| ->]]]; assumption.
Defined.

Lemma corner_mine_board_numbers : numbers_ok corner_mine_board.
Proof.
  unfold numbers_ok.
  apply (on_grid_3x3 corner_mine_board
           (fun x y => val corner_mine_board x y <> -1 ->
                       val corner_mine_board x y = mines_around corner_mine_board x y));
    try reflexivity; vm_compute; congruence.
Defined.

Lemma reveal_discloses_no_mine_witness :
  exists (b' : Board) (log : list cell),
    reveal 9 corner_mine_board 2 2 = Ok (true, (b', log)) /\
    (forall c : cell, c ∈ log ->
       on_grid corner_mine_board c.1 c.2 /\ val corner_mine_board c.1 c.2 <> -1) /\
    (forall c : cell, on_grid corner_mine_board c.1 c.2 -> val b' c.1 c.2 = -1 ->
       is_revealed b' c.1 c.2 = is_revealed corner_mine_board c.1 c.2).
Proof.
  apply (reveal_discloses_no_mine 9 corner_mine_board 2 2).
  - exact corner_mine_board_wf.
  - exact corner_mine_board_numbers.
  - unfold open, on_grid, in_bounds. simpl. repeat split; lia.
  - vm_compute. congruence.
  - vm_compute. lia.
Defined.

(** X27. The flood fill, given the depth.  On every well-shaped grid
    [reveal] of a cell of the grid returns when the interpreter allows at
    least as many nested calls as there are hidden cells, and it marks no
    cell twice.  From a hidden, unflagged cell it marks exactly the cells
    of [cleared]: the cell itself and, again and again, the hidden
    unflagged neighbours of the marked cells whose number is 0.  On a
    grid without mines and flags on which no cell is revealed yet it
    marks every cell of the grid, each once, and afterwards all cells are
    revealed. *)
Theorem flood_fill (fuel : nat) (b : Board) (x y : Z) :
  wf b -> on_grid b x y -> (hidden b <= fuel)%nat ->
  exists (r : bool) (b' : Board) (log : list cell),
    reveal fuel b x y = Ok (r, (b', log)) /\
    NoDup log /\
    (open b (x, y) ->
       (forall c : cell, c ∈ log <-> cleared b (x, y) c) /\
       (forall c : cell, on_grid b c.1 c.2 ->
          is_revealed b' c.1 c.2 = true <->
          is_revealed b c.1 c.2 = true \/ c ∈ log)) /\
    ((forall u v, on_grid b u v -> val b u v <> -1) -> numbers_ok b ->
     (forall u v, on_grid b u v -> is_flagged b u v = false) ->
     (forall u v, on_grid b u v -> is_revealed b u v = false) ->
       (forall c : cell, c ∈ log <-> on_grid b c.1 c.2) /\
       (forall u v, on_grid b u v -> is_revealed b' u v = true)).
Proof.
  intros Hwf Hg Hfuel.
  destruct (decide (open b (x, y))) as [Hop|Hnop].
  - destruct (reveal_open fuel b x y Hwf Hop Hfuel)
      as (b' & log & Hrun & G & ND & Hlog & Hrev).
    exists (negb (val b x y =? -1)), b', log.
    split; [exact Hrun|]. split; [exact ND|]. split; [auto|].
    intros Hno Hnum Hnf Hnr.
    assert (Hz : forall u v, on_grid b u v -> val b u v = 0).
    { intros u v Huv. rewrite (Hnum u v Huv (Hno u v Huv)).
      apply mines_around_no_mines. exact Hno. }
    assert (Hall : forall c : cell, c ∈ log <-> on_grid b c.1 c.2).
    { intros c. rewrite Hlog. split.
      - intros Hc. apply (cleared_safe b (x, y) c Hnum Hg (Hno x y Hg) Hc).
      - apply (cleared_everywhere b (x, y)); assumption. }
    split; [exact Hall|].
    intros u v Huv. apply (Hrev (u, v) Huv). right. apply Hall. exact Huv.
  - assert (Hnoop : is_flagged b x y = true \/ is_revealed b x y = true).
    { destruct (is_flagged b x y) eqn:Ef; [auto|].
      destruct (is_revealed b x y) eqn:Er; [auto|].
      exfalso. apply Hnop. split; [exact Hg|auto]. }
    exists true, b, []. split; [apply reveal_noop; assumption|].
    split; [constructor|]. split; [intros Hop; contradiction|].
    intros _ _ Hnf Hnr. exfalso. apply Hnop. split; [exact Hg|]. simpl. auto.
Qed.

Lemma flood_fill_witness :
  exists (r : bool) (b' : Board) (log : list cell),
    reveal 9 empty_board 1 1 = Ok (r, (b', log)) /\
    NoDup log /\
    (forall c : cell, c ∈ log <-> on_grid empty_board c.1 c.2) /\
    (forall u v, on_grid empty_board u v -> is_revealed b' u v = true).
Proof.
  destruct (flood_fill 9 empty_board 1 1) as (r & b' & log & Hrun & ND & _ & Hall).
  - exact empty_board_wf.
  - unfold on_grid, in_bounds. simpl. lia.
  - vm_compute. lia.
  - exists r, b', log. split; [exact Hrun|]. split; [exact ND|]. apply Hall.
    + apply (on_grid_3x3 empty_board (fun u v => val empty_board u v <> -1));
        try reflexivity; vm_compute; congruence.
    + unfold numbers_ok.
      apply (on_grid_3x3 empty_board
               (fun u v => val empty_board u v <> -1 ->
                           val empty_board u v = mines_around empty_board u v));
        try reflexivity; vm_compute; congruence.
    + apply (on_grid_3x3 empty_board (fun u v => is_flagged empty_board u v = false));
        reflexivity.
    + apply (on_grid_3x3 empty_board (fun u v => is_revealed empty_board u v = false));
        reflexivity.
Defined.

(** C4. The flood fill is a recursion of the interpreter, one call deep
    for every cell it goes through, and it does not terminate on every
    grid.  On the 32x32 board without mines, on which nothing is revealed
    or flagged, [reveal] at (0, 0) needs 1023 nested calls of
    [_reveal_adjacent]: it returns when that many are allowed and ends in
    [RecursionError] when fewer are, as under CPython's recursion limit
    of 1000. *)
Theorem flood_fill_exceeds_recursion_limit :
  exists b : Board,
    (forall rnd, new_board 32 32 0 rnd = Ok b) /\
    (forall x y, on_grid b x y ->
       val b x y = 0 /\ is_revealed b x y = false /\ is_flagged b x y = false) /\
    (forall fuel, reveal fuel b 0 0 = OutOfFuel <-> (fuel < 1023)%nat) /\
    (forall fuel, (fuel <= recursion_limit)%nat -> reveal fuel b 0 0 = OutOfFuel).
Proof.
  set (b := mkBoard 32 32 0 (replicate 32 (replicate 32 0))
                    (replicate 32 (replicate 32 false))
                    (replicate 32 (replicate 32 false)) ∅).
  assert (Hlow : reveal 1022 b 0 0 = OutOfFuel) by (vm_compute; reflexivity).
  assert (Hhigh : exists r, reveal 1023 b 0 0 = Ok r)
    by (eexists; vm_compute; reflexivity).
  exists b. split; [intros rnd; vm_compute; reflexivity|]. split; [|split].
  - intros x y [Hx Hy]. cbn [height width b] in Hx, Hy.
    unfold val, is_revealed, is_flagged, Np.peek, Np.getitem. cbn [board revealed flagged b].
    rewrite !NpFacts.norm_index_in by (rewrite ?length_replicate; lia). cbn [bind].
    rewrite !lookup_replicate_2 by lia. rewrite !NpFacts.norm_index_in
      by (rewrite ?length_replicate; lia). cbn [bind].
    rewrite !lookup_replicate_2 by lia. auto.
  - intros fuel. split.
    + intros H. destruct (le_lt_dec 1023 fuel) as [Hge|Hlt]; [|exact Hlt].
      destruct Hhigh as [r Hr].
      rewrite (reveal_more_fuel 1023 fuel b 0 0 r Hge Hr) in H. discriminate.
    + intros Hlt. apply (reveal_too_deep fuel 1022); [lia|exact Hlow].
  - intros fuel Hle. apply (reveal_too_deep fuel 1022); [|exact Hlow].
    unfold recursion_limit in Hle. lia.
Qed.

(** X28. The flood fill does not go on through a cell that is revealed
    already, so a grid without mines and flags need not be revealed as a
    whole by one [reveal].  On the 1x5 board without mines, flag (0, 1)
    and (0, 3), reveal (0, 2) and take the two flags off again: [reveal]
    at (0, 0) then marks (0, 0) and (0, 1) only, and (0, 3) and (0, 4)
    stay hidden. *)
Theorem flood_fill_stops_at_revealed_cells :
  exists (b0 b b' : Board),
    (forall rnd, new_board 5 1 0 rnd = Ok b0) /\
    run 5 [ToggleFlag 0 1; ToggleFlag 0 3; Reveal 0 2;
           ToggleFlag 0 1; ToggleFlag 0 3] b0 = Ok b /\
    board b = [[0; 0; 0; 0; 0]] /\
    flagged b = [[false; false; false; false; false]] /\
    revealed b = [[false; false; true; false; false]] /\
    (forall fuel, (5 <= fuel)%nat ->
       reveal fuel b 0 0 = Ok (true, (b', [(0, 1); (0, 0)]))) /\
    revealed b' = [[true; true; true; false; false]] /\
    is_won b' = false.
Proof.
  eexists. eexists. eexists.
  split; [intros rnd; vm_compute; reflexivity|].
  split; [vm_compute; reflexivity|].
  split; [reflexivity|]. split; [reflexivity|]. split; [reflexivity|].
  split.
  { intros fuel Hle. apply (reveal_more_fuel 5 fuel); [exact Hle|].
    vm_compute. reflexivity. }
  split; reflexivity.
Qed.

(** ** Winning *)

Lemma peek_lookup {A} (d : A) (a : list (list A)) h w x y :
  Np.shape a h w -> in_bounds h w x y ->
  exists row, a !! Z.to_nat x = Some row /\
              row !! Z.to_nat y = Some (Np.peek d a x y).
Proof.
  intros Hs [Hx Hy].
  destruct (NpFacts.shape_row a h w x Hs Hx) as (row & Hrow & Hlen).
  exists row. split; [exact Hrow|].
  destruct Hs as (Hh & Hw & Hl & _).
  unfold Np.peek, Np.getitem. rewrite NpFacts.norm_index_in by lia. simpl.
  rewrite Hrow. rewrite NpFacts.norm_index_in by lia. simpl.
  destruct (lookup_lt_is_Some_2 row (Z.to_nat y)) as [v Hv]; [lia|].
  rewrite Hv. reflexivity.
Qed.

Lemma all_true_spec (a : list (list bool)) h w :
  Np.shape a h w ->
  Np.all_true a = true <->
  forall x y, in_bounds h w x y -> Np.peek false a x y = true.
Proof.
  intros Hs. unfold Np.all_true. rewrite forallb_forall. split.
  - intros Hall x y Hb.
    destruct (peek_lookup false a h w x y Hs Hb) as (row & Hrow & Hv).
    assert (Hr : forallb (fun c => eqb c true) row = true).
    { apply Hall. apply list_elem_of_In. eapply list_elem_of_lookup_2; eauto. }
    rewrite forallb_forall in Hr.
    apply eqb_prop. apply Hr. apply list_elem_of_In.
    eapply list_elem_of_lookup_2; eauto.
  - intros Hall row Hin. apply list_elem_of_In in Hin.
    apply list_elem_of_lookup in Hin as [i Hi].
    apply forallb_forall. intros c Hc. apply list_elem_of_In in Hc.
    apply list_elem_of_lookup in Hc as [j Hj].
    pose proof Hs as (Hh & Hw & Hl & Hrows).
    assert (Hlen : length row = Z.to_nat w).
    { rewrite Forall_forall in Hrows. apply Hrows.
      eapply list_elem_of_lookup_2; eauto. }
    pose proof (lookup_lt_Some _ _ _ Hi). pose proof (lookup_lt_Some _ _ _ Hj).
    assert (Hb : in_bounds h w (Z.of_nat i) (Z.of_nat j))
      by (unfold in_bounds; lia).
    destruct (peek_lookup false a h w _ _ Hs Hb) as (row' & Hrow' & Hv).
    rewrite Nat2Z.id in Hrow', Hv.
    assert (row' = row) by congruence. subst row'.
    rewrite Hj in Hv. injection Hv as ->.
    rewrite (Hall _ _ Hb). reflexivity.
Qed.

Lemma shape_or_eq (r : list (list bool)) (a : list (list Z)) h w v :
  Np.shape r h w -> Np.shape a h w ->
  Np.shape (Np.or_ r (Np.eq_scalar a v)) h w /\
  forall x y, in_bounds h w x y ->
    Np.peek false (Np.or_ r (Np.eq_scalar a v)) x y
    = Np.peek false r x y || (Np.peek 0 a x y =? v).
Proof.
  intros Hr Ha.
  pose proof Hr as (Hh & Hw & Hlr & Hrr). pose proof Ha as (_ & _ & Hla & Hra).
  assert (Hshape : Np.shape (Np.or_ r (Np.eq_scalar a v)) h w).
  { unfold Np.or_, Np.eq_scalar. split; [exact Hh|split; [exact Hw|split]].
    - rewrite length_zip_with, length_map. lia.
    - apply Forall_forall. intros row Hin.
      apply list_elem_of_lookup in Hin as [i Hi].
      rewrite lookup_zip_with in Hi.
      destruct (r !! i) as [rr|] eqn:Er; [|discriminate]. simpl in Hi.
      rewrite list_lookup_fmap in Hi.
      destruct (a !! i) as [ra|] eqn:Ea; [|discriminate]. simpl in Hi.
      injection Hi as <-. rewrite length_zip_with, length_map.
      rewrite Forall_forall in Hrr. rewrite Forall_forall in Hra.
      rewrite (Hrr rr), (Hra ra); [lia| |];
        eapply list_elem_of_lookup_2; eauto. }
  split; [exact Hshape|].
  intros x y Hb.
  destruct (peek_lookup false r h w x y Hr Hb) as (rr & Hrr' & Hrv).
  destruct (peek_lookup 0 a h w x y Ha Hb) as (ra & Hra' & Hav).
  destruct (peek_lookup false _ h w x y Hshape Hb) as (ro & Hro & Hov).
  unfold Np.or_, Np.eq_scalar in Hro.
  rewrite lookup_zip_with, Hrr' in Hro. simpl in Hro.
  rewrite list_lookup_fmap, Hra' in Hro. simpl in Hro.
  injection Hro as <-.
  rewrite lookup_zip_with, Hrv in Hov. simpl in Hov.
  rewrite list_lookup_fmap, Hav in Hov. simpl in Hov.
  injection Hov as <-. reflexivity.
Qed.

(** C5. On a well-shaped board [is_won] is true exactly when every cell
    of the grid is revealed or a mine, that is, when every cell that is
    not a mine is revealed. *)
Theorem is_won_spec (b : Board) :
  wf b ->
  (is_won b = true <->
   forall x y, on_grid b x y -> is_revealed b x y = true \/ val b x y = -1) /\
  (is_won b = true <->
   forall x y, on_grid b x y -> val b x y <> -1 -> is_revealed b x y = true).
Proof.
  intros (Ha & Hr & _).
  destruct (shape_or_eq (revealed b) (board b) _ _ (-1) Hr Ha) as [Hs Hpeek].
  assert (H1 : is_won b = true <->
               forall x y, on_grid b x y -> is_revealed b x y = true \/ val b x y = -1).
  { unfold is_won. rewrite (all_true_spec _ _ _ Hs). split.
    - intros H x y Hg. specialize (H x y Hg). rewrite (Hpeek x y Hg) in H.
      apply orb_true_iff in H as [H|H]; [left; exact H|right].
      apply Z.eqb_eq in H. exact H.
    - intros H x y Hg. rewrite (Hpeek x y Hg). apply orb_true_iff.
      destruct (H x y Hg) as [H'|H']; [left; exact H'|right].
      apply Z.eqb_eq. exact H'. }
  split; [exact H1|]. rewrite H1. split.
  - intros H x y Hg Hne. destruct (H x y Hg); [assumption|contradiction].
  - intros H x y Hg. destruct (decide (val b x y = -1)); [auto|].
    left. apply H; assumption.
Qed.

Lemma is_won_spec_witness :
  is_won corner_mine_board = true <->
  forall x y, on_grid corner_mine_board x y ->
    is_revealed corner_mine_board x y = true \/ val corner_mine_board x y = -1.
Proof. exact (proj1 (is_won_spec corner_mine_board corner_mine_board_wf)). Defined.

(** ** Moving a mine *)

(** C2. The contract of [reposition_mine] for two cells of the grid, on
    a well-shaped board whose mine set mirrors the grid.  If [from_pos]
    holds no mine or [to_pos] holds one, the board is returned as it is.
    Otherwise the mine leaves [from_pos], which gets the count of the
    mines around it, [to_pos] becomes a mine, the mine set loses
    [from_pos] and gains [to_pos], no other cell gains or loses a mine,
    and the value of every cell outside the two 3x3 blocks centred at
    [from_pos] and [to_pos] is kept; the masks and dimensions are kept. *)
Theorem reposition_mine_contract (b : Board) (from_pos to_pos : cell) :
  wf b -> mines_mirror b ->
  on_grid b from_pos.1 from_pos.2 -> on_grid b to_pos.1 to_pos.2 ->
  (val b from_pos.1 from_pos.2 <> -1 \/ val b to_pos.1 to_pos.2 = -1 ->
   reposition_mine b from_pos to_pos = Ok b) /\
  (val b from_pos.1 from_pos.2 = -1 -> val b to_pos.1 to_pos.2 <> -1 ->
   exists b' : Board,
     reposition_mine b from_pos to_pos = Ok b' /\
     val b' from_pos.1 from_pos.2 = mines_around b' from_pos.1 from_pos.2 /\
     val b' from_pos.1 from_pos.2 <> -1 /\
     val b' to_pos.1 to_pos.2 = -1 /\
     mine_positions b' = mine_positions b ∖ {[from_pos]} ∪ {[to_pos]} /\
     (forall c : cell, on_grid b c.1 c.2 -> c <> from_pos -> c <> to_pos ->
        (val b' c.1 c.2 = -1 <-> val b c.1 c.2 = -1)) /\
     (forall c : cell, on_grid b c.1 c.2 ->
        ~ near from_pos c -> ~ near to_pos c -> val b' c.1 c.2 = val b c.1 c.2) /\
     width b' = width b /\ height b' = height b /\ mine_count b' = mine_count b /\
     revealed b' = revealed b /\ flagged b' = flagged b).
Proof.
  destruct from_pos as [x1 y1], to_pos as [x2 y2]. simpl.
  intros Hwf Hmir Hg1 Hg2. split; [apply reposition_mine_noop; assumption|].
  intros Hv1 Hv2.
  assert (Hin : (x1, y1) ∈ mine_positions b) by (apply Hmir; simpl; auto).
  destruct (reposition_mine_moves b x1 y1 x2 y2 Hwf Hg1 Hg2 Hv1 Hv2 Hin)
    as (a & Hrun & Ha & Hlay & Hnear & Hfar).
  cbv zeta in *. eexists. split; [exact Hrun|].
  assert (Hne : (x1, y1) <> (x2, y2)) by (intros [= -> ->]; contradiction).
  assert (Hfrom : val (set_mine_positions (set_board b a)
                    (mine_positions b ∖ {[(x1, y1)]} ∪ {[(x2, y2)]})) x1 y1 <> -1).
  { apply Z.eqb_neq. pose proof (Hlay (x1, y1) Hg1) as H. cbn [fst snd] in H.
    rewrite H. rewrite bool_decide_eq_false_2 by exact Hne.
    rewrite bool_decide_eq_true_2 by reflexivity. reflexivity. }
  split; [|split; [exact Hfrom|split; [|split; [reflexivity|split; [|split]]]]].
  - apply (Hnear (x1, y1) Hg1); [|exact Hfrom].
    left. unfold near. simpl. lia.
  - apply Z.eqb_eq. pose proof (Hlay (x2, y2) Hg2) as H. cbn [fst snd] in H.
    rewrite H. rewrite bool_decide_eq_true_2 by reflexivity. reflexivity.
  - intros c Hg Hc1 Hc2. rewrite <- !Z.eqb_eq. rewrite (Hlay c Hg).
    rewrite !bool_decide_eq_false_2 by assumption. simpl. tauto.
  - exact Hfar.
  - repeat split; reflexivity.
Qed.

Lemma corner_mine_board_mirror : mines_mirror corner_mine_board.
Proof.
  intros [px py]. unfold corner_mine_board at 1. simpl.
  rewrite elem_of_singleton. split.
  - intros [= -> ->]. split; [unfold on_grid, in_bounds; simpl; lia|reflexivity].
  - intros [Hg Hv]. revert Hv.
    apply (on_grid_3x3 corner_mine_board
             (fun x y => val corner_mine_board x y = -1 -> (x, y) = (0, 0)));
      try reflexivity; try exact Hg; vm_compute; congruence.
Defined.

Lemma reposition_mine_contract_witness :
  exists b' : Board,
    reposition_mine corner_mine_board (0, 0) (2, 2) = Ok b' /\
    val b' 0 0 <> -1 /\ val b' 2 2 = -1 /\
    mine_positions b' = mine_positions corner_mine_board ∖ {[(0, 0)]} ∪ {[(2, 2)]}.
Proof.
  destruct (reposition_mine_contract corner_mine_board (0, 0) (2, 2))
    as [_ Hmove].
  - exact corner_mine_board_wf.
  - exact corner_mine_board_mirror.
  - unfold on_grid, in_bounds. simpl. lia.
  - unfold on_grid, in_bounds. simpl. lia.
  - destruct Hmove as (b' & Hrun & _ & H1 & H2 & H3 & _).
    + reflexivity.
    + vm_compute. congruence.
    + exists b'. auto.
Defined.

(** ** Sampling mines *)

Lemma sample_spec (k : nat) (rnd : nat -> nat) :
  forall pool : list Z,
    NoDup pool -> (k <= length pool)%nat ->
    length (Rng.sample pool k rnd) = k /\
    NoDup (Rng.sample pool k rnd) /\
    forall v, v ∈ Rng.sample pool k rnd -> v ∈ pool.
Proof.
  induction k as [|k IH]; intros pool Hnd Hlen; simpl.
  - split; [reflexivity|]. split; [constructor|].
    intros v Hv. apply elem_of_nil in Hv. contradiction.
  - assert (Hi : (rnd k mod length pool < length pool)%nat)
      by (apply Nat.mod_upper_bound; lia).
    destruct (lookup_lt_is_Some_2 pool _ Hi) as [v Hv]. rewrite Hv.
    assert (Hsplit := take_drop_middle pool _ v Hv).
    assert (Hnd' : NoDup (delete (rnd k mod length pool)%nat pool)).
    { apply (sublist_NoDup _ pool); [exact Hnd|apply sublist_delete]. }
    assert (Hv' : v ∉ delete (rnd k mod length pool)%nat pool).
    { rewrite delete_take_drop. rewrite <- Hsplit in Hnd.
      apply NoDup_app in Hnd as (_ & Hdis & Hnd2).
      apply NoDup_cons in Hnd2 as [Hnotin _].
      intros Hin. apply elem_of_app in Hin as [Hin|Hin]; [|contradiction].
      apply (Hdis v Hin). apply elem_of_cons. auto. }
    destruct (IH (delete (rnd k mod length pool)%nat pool) Hnd') as (Hl & Hn & Hsub).
    { rewrite length_delete by eauto. lia. }
    split; [simpl; rewrite Hl; reflexivity|]. split.
    + constructor; [|exact Hn]. intros Hin. apply Hv'. apply Hsub. exact Hin.
    + intros u Hu. apply elem_of_cons in Hu as [->|Hu].
      * eapply list_elem_of_lookup_2; eauto.
      * eapply list_elem_of_delete_inv. apply Hsub. exact Hu.
Qed.

(** [choice] succeeds exactly when [0 <= k <= n], and then yields [k]
    distinct indices below [n]. *)
Lemma choice_ok (n k : Z) (rnd : nat -> nat) :
  0 <= k <= n ->
  exists l, Rng.choice n k rnd = Ok l /\
            length l = Z.to_nat k /\ NoDup l /\
            forall i, i ∈ l -> 0 <= i < n.
Proof.
  intros Hk. unfold Rng.choice.
  assert (E1 : (n <=? 0) && negb (k =? 0) = false).
  { destruct (Z.leb_spec n 0); [|reflexivity].
    assert (k = 0) by lia. subst k. reflexivity. }
  rewrite E1. destruct (Z.ltb_spec n k); [lia|].
  destruct (Z.ltb_spec k 0); [lia|].
  destruct (sample_spec (Z.to_nat k) rnd (range n)) as (Hl & Hn & Hsub).
  - apply NoDup_seqZ.
  - unfold range, range2. rewrite length_seqZ. lia.
  - eexists. split; [reflexivity|]. split; [exact Hl|]. split; [exact Hn|].
    intros i Hi. apply Hsub in Hi. apply elem_of_range in Hi. exact Hi.
Qed.

Lemma choice_err (n k : Z) (rnd : nat -> nat) :
  0 <= n -> k < 0 \/ n < k -> Rng.choice n k rnd = Raise ValueError.
Proof.
  intros Hn Hk. unfold Rng.choice.
  destruct ((n <=? 0) && negb (k =? 0)); [reflexivity|].
  destruct (Z.ltb_spec n k); [reflexivity|].
  destruct (Z.ltb_spec k 0); [reflexivity|lia].
Qed.

Lemma sample_ext (k : nat) (rnd rnd' : nat -> nat) :
  (forall j, (j < k)%nat -> rnd j = rnd' j) ->
  forall pool, Rng.sample pool k rnd = Rng.sample pool k rnd'.
Proof.
  induction k as [|k IH]; intros Hext pool; simpl; [reflexivity|].
  rewrite <- (Hext k) by lia.
  destruct (pool !! _); [|reflexivity].
  f_equal. apply IH. intros j Hj. apply Hext. lia.
Qed.

(** Every selection of distinct entries of the pool, in any order, is
    the sample of some sequence of draws. *)
Lemma sample_complete (l : list Z) :
  NoDup l ->
  forall pool, (forall v, v ∈ l -> v ∈ pool) ->
  exists rnd, Rng.sample pool (length l) rnd = l.
Proof.
  induction 1 as [|v l Hv Hnd IH]; intros pool Hsub.
  - exists (fun _ => 0%nat). reflexivity.
  - assert (Hin : v ∈ pool) by (apply Hsub, elem_of_cons; auto).
    apply list_elem_of_lookup_1 in Hin as [i Hi].
    pose proof (lookup_lt_Some _ _ _ Hi) as Hlt.
    destruct (IH (delete i pool)) as [rnd' Hrnd'].
    { intros u Hu. assert (Hup : u ∈ pool) by (apply Hsub, elem_of_cons; auto).
      assert (Hne : u <> v) by (intros ->; contradiction).
      rewrite delete_take_drop.
      rewrite <- (take_drop_middle pool i v Hi) in Hup.
      apply elem_of_app in Hup as [Hup|Hup]; [apply elem_of_app; auto|].
      apply elem_of_cons in Hup as [Hup|Hup]; [contradiction|].
      apply elem_of_app. auto. }
    exists (fun j => if (j =? length l)%nat then i else rnd' j).
    simpl. rewrite Nat.eqb_refl, (Nat.mod_small i) by exact Hlt.
    rewrite Hi. f_equal. rewrite <- Hrnd' at 2.
    apply sample_ext. intros j Hj.
    destruct (Nat.eqb_spec j (length l)); [lia|reflexivity].
Qed.

(** Every list of distinct indices below [n] is an outcome of [choice]. *)
Lemma choice_complete (n : Z) (l : list Z) :
  0 <= n -> NoDup l -> (forall i, i ∈ l -> 0 <= i < n) ->
  exists rnd, Rng.choice n (Z.of_nat (length l)) rnd = Ok l.
Proof.
  intros Hn Hnd Hrange.
  destruct (sample_complete l Hnd (range n)) as [rnd Hrnd].
  { intros v Hv. apply elem_of_range, Hrange, Hv. }
  exists rnd. unfold Rng.choice. rewrite Nat2Z.id, Hrnd.
  assert (Hlen : Z.of_nat (length l) <= n).
  { assert (Hsub : l ⊆+ range n).
    { apply NoDup_submseteq; [exact Hnd|].
      intros v Hv. apply elem_of_range, Hrange, Hv. }
    apply submseteq_length in Hsub. unfold range, range2 in Hsub.
    rewrite length_seqZ in Hsub. lia. }
  assert (E : (n <=? 0) && negb (Z.of_nat (length l) =? 0) = false).
  { destruct (Z.leb_spec n 0); [|reflexivity].
    assert (Z.of_nat (length l) = 0) as -> by lia. reflexivity. }
  rewrite E.
  destruct (Z.ltb_spec n (Z.of_nat (length l))); [lia|].
  destruct (Z.ltb_spec (Z.of_nat (length l)) 0); [lia|reflexivity].
Qed.

Lemma length_product (xs ys : list Z) :
  length (x ← xs; y ← ys; [(x, y)]) = (length xs * length ys)%nat.
Proof.
  induction xs as [|x xs IH]; [reflexivity|].
  change ((x :: xs) ≫= (fun x => ys ≫= (fun y => [(x, y)])))
    with ((ys ≫= (fun y => [(x, y)])) ++ (xs ≫= (fun x => ys ≫= (fun y => [(x, y)])))).
  rewrite length_app, IH.
  assert (Hrow : length (ys ≫= (fun y => [(x, y)])) = length ys).
  { clear. induction ys as [|y ys IHy]; [reflexivity|]. simpl. rewrite <- IHy.
    reflexivity. }
  rewrite Hrow. simpl. reflexivity.
Qed.

Lemma length_all_positions (h w : Z) :
  0 <= h -> 0 <= w -> Z.of_nat (length (all_positions h w)) = h * w.
Proof.
  intros Hh Hw. unfold all_positions. rewrite length_product.
  unfold range, range2. rewrite !length_seqZ. lia.
Qed.

Lemma NoDup_all_positions (h w : Z) : NoDup (all_positions h w).
Proof.
  unfold all_positions. apply NoDup_bind.
  - intros x1 x2 p _ _ H1 H2.
    apply list_elem_of_bind in H1 as (y1 & H1 & _).
    apply list_elem_of_bind in H2 as (y2 & H2 & _).
    apply list_elem_of_singleton in H1, H2. congruence.
  - intros x _. apply NoDup_bind.
    + intros y1 y2 p _ _ H1 H2.
      apply list_elem_of_singleton in H1, H2. congruence.
    + intros y _. apply NoDup_singleton.
    + apply NoDup_seqZ.
  - apply NoDup_seqZ.
Qed.

Lemma hidden_bound (b : Board) :
  wf b -> Z.of_nat (hidden b) <= height b * width b.
Proof.
  intros ((Hh & Hw & _) & _). unfold hidden.
  rewrite <- (length_all_positions _ _ Hh Hw).
  apply inj_le. apply length_filter.
Qed.

(** ** Counting the mines around a cell *)

Lemma elem_of_neighbours8 (p c : cell) : c ∈ neighbours8 p <-> adjacent p c.
Proof.
  unfold neighbours8. rewrite list_elem_of_In, in_map_iff, adjacent_offset.
  split.
  - intros (d & <- & Hd). exists d. apply list_elem_of_In in Hd.
    rewrite elem_of_offsets. split; [|split; [|reflexivity]];
      rewrite !elem_of_cons, elem_of_nil in Hd;
      destruct Hd as [->|[->|[->|[->|[->|[->|[->|[->|[]]]]]]]]];
      simpl; first [lia|discriminate].
  - intros ([d1 d2] & Hd & Hne & ->). exists (d1, d2). split; [reflexivity|].
    apply elem_of_offsets in Hd. simpl in Hd. apply list_elem_of_In.
    assert (Hc : (d1 = -1 \/ d1 = 0 \/ d1 = 1) /\ (d2 = -1 \/ d2 = 0 \/ d2 = 1)) by lia.
    rewrite !elem_of_cons.
    destruct Hc as [[->| [->| ->]] [->| [->| ->]]]; try contradiction; auto 10.
Qed.

Lemma NoDup_neighbours8 (p : cell) : NoDup (neighbours8 p).
Proof.
  unfold neighbours8.
  change (NoDup ((fun d : cell => (p.1 + d.1, p.2 + d.2))
                 <$> [(-1, -1); (-1, 0); (-1, 1); (0, -1); (0, 1); (1, -1); (1, 0); (1, 1)])).
  apply NoDup_fmap_2.
  - intros [a1 a2] [b1 b2] [= H1 H2]. simpl in *. f_equal; lia.
  - apply (bool_decide_unpack _). vm_compute. exact I.
Qed.

Lemma length_filter_sum {A} (P : A -> Prop) `{DP : !forall a, Decision (P a)}
      (l : list A) :
  Z.of_nat (length (filter P l))
  = fold_right (fun a acc => (if decide (P a) then 1 else 0) + acc) 0 l.
Proof.
  induction l as [|a l IH]; [reflexivity|].
  rewrite filter_cons. simpl fold_right. rewrite <- IH.
  destruct (decide (P a)); simpl length; lia.
Qed.

Lemma mine_at_decide (b : Board) (u v : Z) :
  mine_at b u v = if decide (on_grid b u v /\ val b u v = -1) then 1 else 0.
Proof.
  unfold mine_at. destruct (decide _) as [[Hg Hv]|Hn].
  - rewrite (inside_true b u v Hg). apply Z.eqb_eq in Hv. rewrite Hv. reflexivity.
  - destruct (inside b u v) eqn:E; [|reflexivity]. apply inside_spec in E.
    destruct (Z.eqb_spec (val b u v) (-1)); [tauto|reflexivity].
Qed.

(** [mines_around] is the number of cells of the grid that are next to
    [(x, y)] and hold a mine. *)
Lemma mines_around_count (b : Board) (x y : Z) :
  mines_around b x y = Z.of_nat (length (mine_neighbours b x y)).
Proof.
  assert (Hperm : mine_neighbours b x y
                  ≡ₚ filter (fun c : cell => on_grid b c.1 c.2 /\ val b c.1 c.2 = -1)
                            (neighbours8 (x, y))).
  { apply NoDup_Permutation.
    - apply NoDup_filter, NoDup_all_positions.
    - apply NoDup_filter, NoDup_neighbours8.
    - intros c. unfold mine_neighbours.
      rewrite !list_elem_of_filter, elem_of_all_positions, elem_of_neighbours8.
      tauto. }
  rewrite Hperm, length_filter_sum. unfold neighbours8.
  cbn [map fold_right fst snd]. rewrite <- !mine_at_decide.
  unfold mines_around. lia.
Qed.

(** The number invariant, in terms of that count. *)
Lemma numbers_ok_count (b : Board) :
  numbers_ok b <->
  forall x y, on_grid b x y -> val b x y <> -1 ->
    val b x y = Z.of_nat (length (mine_neighbours b x y)).
Proof.
  unfold numbers_ok. split; intros H x y Hg Hv.
  - rewrite <- mines_around_count. apply H; assumption.
  - rewrite mines_around_count. apply H; assumption.
Qed.

(** ** Initial placement *)

Lemma list_getitem_in {A} (l : list A) (idx : Z) :
  0 <= idx < Z.of_nat (length l) ->
  exists v, l !! Z.to_nat idx = Some v /\ list_getitem l idx = Ok v.
Proof.
  intros H. destruct (lookup_lt_is_Some_2 l (Z.to_nat idx)) as [v Hv]; [lia|].
  exists v. split; [exact Hv|]. unfold list_getitem.
  rewrite NpFacts.norm_index_in by exact H. simpl. rewrite Hv. reflexivity.
Qed.

(** The set built from the sampled indices has one cell per index. *)
Lemma chosen_spec (positions : list cell) (l : list Z) :
  NoDup positions ->
  forall s0 : gset cell,
    NoDup l -> (forall i, i ∈ l -> 0 <= i < Z.of_nat (length positions)) ->
    (forall p, p ∈ s0 ->
       p ∈ positions /\ forall i, i ∈ l -> positions !! Z.to_nat i <> Some p) ->
    exists s' : gset cell,
      for_each l (fun idx (s : gset cell) =>
                    let* p := list_getitem positions idx in Ok (s ∪ {[p]})) s0
      = Ok s' /\
      size s' = (size s0 + length l)%nat /\
      forall p, p ∈ s' -> p ∈ positions.
Proof.
  intros Hpos. induction l as [|idx l IH]; intros s0 Hnd Hrange Hs0.
  - exists s0. simpl. split; [reflexivity|]. split; [lia|].
    intros p Hp. apply Hs0. exact Hp.
  - apply NoDup_cons in Hnd as [Hnotin Hnd].
    destruct (list_getitem_in positions idx) as (p & Hp & Hget).
    { apply Hrange. apply elem_of_cons. auto. }
    assert (Hfresh : p ∉ s0).
    { intros Hin. apply Hs0 in Hin as [_ Hin].
      apply (Hin idx); [apply elem_of_cons; auto|exact Hp]. }
    destruct (IH (s0 ∪ {[p]}) Hnd) as (s' & Hrun & Hsize & Hsub).
    + intros i Hi. apply Hrange. apply elem_of_cons. auto.
    + intros q Hq. apply elem_of_union in Hq as [Hq|Hq].
      * destruct (Hs0 q Hq) as [Hq1 Hq2]. split; [exact Hq1|].
        intros i Hi. apply Hq2. apply elem_of_cons. auto.
      * apply elem_of_singleton in Hq. subst q.
        split; [eapply list_elem_of_lookup_2; eauto|].
        intros i Hi Hlook.
        assert (Z.to_nat i = Z.to_nat idx)
          by (eapply (NoDup_lookup positions); eauto).
        assert (0 <= i) by (apply Hrange; apply elem_of_cons; auto).
        assert (0 <= idx) by (apply Hrange; apply elem_of_cons; auto).
        assert (i = idx) by lia. subst i. contradiction.
    + exists s'. simpl. rewrite Hget. simpl. split; [exact Hrun|].
      split; [|exact Hsub].
      rewrite Hsize, size_union by (apply disjoint_singleton_r; exact Hfresh).
      rewrite size_singleton. lia.
Qed.

(** The loop that lays the chosen cells as mines on a cleared board. *)
Lemma place_mines_spec (b : Board) (chosen : gset cell) :
  wf b -> (forall x y, on_grid b x y -> val b x y = 0) -> mine_positions b = ∅ ->
  (forall p, p ∈ chosen -> p ∈ all_positions (height b) (width b)) ->
  exists a,
    for_each (all_positions (height b) (width b)) (fun pos b =>
      if bool_decide (pos ∈ chosen) then
        let '(x, y) := pos in
        let* a := Np.setitem (board b) x y (-1) in
        Ok (set_mine_positions (set_board b a) (mine_positions b ∪ {[(x, y)]}))
      else Ok b) b
    = Ok (set_mine_positions (set_board b a) chosen) /\
    Np.shape a (height b) (width b) /\
    forall x y, on_grid b x y ->
      Np.peek 0 a x y = if bool_decide ((x, y) ∈ chosen) then -1 else 0.
Proof.
  intros Hwf Hzero Hempty Hsub.
  set (body := fun (pos : cell) (b : Board) =>
      if bool_decide (pos ∈ chosen) then
        let '(x, y) := pos in
        let* a := Np.setitem (board b) x y (-1) in
        Ok (set_mine_positions (set_board b a) (mine_positions b ∪ {[(x, y)]}))
      else Ok b).
  set (P := fun (pre : list cell) (s : Board) =>
    exists a (m : gset cell),
      s = set_mine_positions (set_board b a) m /\
      Np.shape a (height b) (width b) /\
      (forall x y, on_grid b x y ->
         Np.peek 0 a x y
         = if bool_decide ((x, y) ∈ pre) && bool_decide ((x, y) ∈ chosen)
           then -1 else 0) /\
      (forall p, p ∈ m <-> p ∈ pre /\ p ∈ chosen)).
  destruct (for_each_invariant P (all_positions (height b) (width b)) body b)
    as (s' & Hrun & a & m & -> & Ha & Hval & Hm).
  - exists (board b), ∅. split; [rewrite <- Hempty; destruct b; reflexivity|].
    split; [apply Hwf|]. split.
    + intros x y Hg. rewrite bool_decide_eq_false_2 by apply not_elem_of_nil.
      simpl. apply Hzero. exact Hg.
    + intros p. rewrite elem_of_nil. split; [|tauto].
      intros Hp. apply not_elem_of_empty in Hp. contradiction.
  - intros pre [cx cy] post s1 Hl (a & m & -> & Ha & Hval & Hm).
    assert (Hc : on_grid b cx cy).
    { apply (elem_of_all_positions _ _ (cx, cy)). rewrite Hl.
      apply elem_of_app. right. apply elem_of_cons. auto. }
    assert (Hmem : forall q : cell, q ∈ pre ++ [(cx, cy)] <-> q ∈ pre \/ q = (cx, cy)).
    { intros q. rewrite elem_of_app, list_elem_of_singleton. tauto. }
    unfold body. destruct (bool_decide ((cx, cy) ∈ chosen)) eqn:Ec.
    + apply bool_decide_eq_true in Ec. simpl.
      rewrite (NpFacts.setitem_poke a _ _ cx cy (-1) Ha Hc). simpl.
      eexists. split; [reflexivity|].
      exists (poke a cx cy (-1)), (m ∪ {[(cx, cy)]}).
      split; [reflexivity|]. split; [apply NpFacts.shape_poke; exact Ha|]. split.
      * intros x y Hg.
        rewrite (NpFacts.peek_poke 0 a _ _ cx cy x y _ Ha Hc Hg), (Hval x y Hg).
        destruct (decide ((x, y) = (cx, cy))) as [Heq|Hne].
        -- rewrite (bool_decide_eq_true_2 _ Heq). rewrite Heq.
           rewrite (bool_decide_eq_true_2 ((cx, cy) ∈ pre ++ [(cx, cy)]))
             by (apply Hmem; auto).
           rewrite (bool_decide_eq_true_2 _ Ec). reflexivity.
        -- rewrite (bool_decide_eq_false_2 _ Hne).
           assert (Hiff : (x, y) ∈ pre ++ [(cx, cy)] <-> (x, y) ∈ pre)
             by (rewrite Hmem; tauto).
           rewrite (bool_decide_ext _ _ Hiff). reflexivity.
      * intros p. rewrite elem_of_union, elem_of_singleton, Hm, Hmem.
        split; [intros [[H1 H2]| ->]; auto|tauto].
    + apply bool_decide_eq_false in Ec.
      eexists. split; [reflexivity|]. exists a, m. split; [reflexivity|].
      split; [exact Ha|]. split.
      * intros x y Hg. rewrite (Hval x y Hg).
        destruct (decide ((x, y) = (cx, cy))) as [Heq|Hne].
        -- rewrite Heq. rewrite (bool_decide_eq_false_2 _ Ec).
           rewrite !andb_false_r. reflexivity.
        -- assert (Hiff : (x, y) ∈ pre ++ [(cx, cy)] <-> (x, y) ∈ pre)
             by (rewrite Hmem; tauto).
           rewrite (bool_decide_ext _ _ Hiff). reflexivity.
      * intros p. rewrite Hm, Hmem. split; [tauto|].
        intros [[H1| ->] H2]; [auto|contradiction].
  - assert (Heq : m = chosen).
    { apply set_eq. intros p. rewrite Hm. split; [tauto|]. auto. }
    subst m. exists a. split; [exact Hrun|]. split; [exact Ha|].
    intros x y Hg. rewrite (Hval x y Hg).
    rewrite (bool_decide_eq_true_2 ((x, y) ∈ all_positions (height b) (width b)))
      by (apply (elem_of_all_positions _ _ (x, y)); exact Hg).
    reflexivity.
Qed.

(** [initialize_board] on a board with well-shaped arrays: with
    [0 <= mine_count <= height * width] it returns a consistent board
    with all cells hidden and unflagged. *)
Lemma initialize_board_ok (b : Board) (rnd : nat -> nat) :
  wf b -> 0 <= mine_count b <= height b * width b ->
  exists b',
    initialize_board b rnd = Ok b' /\ consistent b' /\
    width b' = width b /\ height b' = height b /\ mine_count b' = mine_count b /\
    (forall x y, on_grid b x y ->
       is_revealed b' x y = false /\ is_flagged b' x y = false).
Proof.
  intros (Hb & Hr & Hf) Hmc. pose proof Hb as (Hh & Hw & _).
  set (b0 := set_mine_positions
               (set_flagged
                  (set_revealed (set_board b (Np.fill (board b) 0))
                                (Np.fill (revealed b) false))
                  (Np.fill (flagged b) false)) ∅).
  assert (Hwf0 : wf b0).
  { split; [|split]; simpl; apply NpFacts.shape_fill; assumption. }
  assert (Hz0 : forall x y, on_grid b0 x y -> val b0 x y = 0).
  { intros x y Hg. apply (NpFacts.peek_fill 0 (board b) _ _ x y 0 Hb Hg). }
  unfold initialize_board. cbv zeta.
  cbn [set_mine_positions set_flagged set_revealed set_board
       height width mine_count board revealed flagged mine_positions].
  match goal with |- context [for_each (all_positions _ _) _ ?bb] =>
    change bb with b0
  end.
  rewrite (length_all_positions _ _ Hh Hw).
  destruct (choice_ok (height b * width b) (mine_count b) rnd Hmc)
    as (l & Hchoice & Hlen & Hnd & Hrange).
  rewrite Hchoice, bind_Ok.
  destruct (chosen_spec (all_positions (height b) (width b)) l
              (NoDup_all_positions _ _) ∅ Hnd) as (chosen & Hchosen & Hsize & Hsub).
  { intros i Hi. rewrite (length_all_positions _ _ Hh Hw). apply Hrange. exact Hi. }
  { intros p Hp. apply not_elem_of_empty in Hp. contradiction. }
  rewrite Hchosen, bind_Ok.
  destruct (place_mines_spec b0 chosen Hwf0 Hz0 eq_refl Hsub) as (a & Hplace & Ha & Hval).
  change (height b0) with (height b) in Hplace. change (width b0) with (width b) in Hplace.
  rewrite Hplace, bind_Ok.
  set (b1 := set_mine_positions (set_board b0 a) chosen) in *.
  assert (Hwf1 : wf b1).
  { destruct Hwf0 as (_ & Hr0 & Hf0). split; [exact Ha|split; assumption]. }
  destruct (update_numbers_spec b1 Hwf1) as (a2 & Hrun & Ha2 & Hval2).
  destruct (update_numbers_ok b1 _ Hwf1 Hrun) as (Hwf2 & Hnum2 & _ & Hlay2).
  exists (set_board b1 a2). split; [exact Hrun|]. split; [split|].
  - exact Hwf2.
  - exact Hnum2.
  - intros p. change (mine_positions (set_board b1 a2)) with chosen.
    change (on_grid (set_board b1 a2) p.1 p.2) with (on_grid b0 p.1 p.2).
    split.
    + intros Hp. assert (Hg : on_grid b0 p.1 p.2)
        by (apply elem_of_all_positions, Hsub, Hp).
      split; [exact Hg|]. apply Z.eqb_eq. rewrite (Hlay2 _ _ Hg).
      unfold val, b1. simpl. rewrite (Hval _ _ Hg).
      rewrite bool_decide_eq_true_2; [reflexivity|]. destruct p; exact Hp.
    + intros [Hg Hv]. apply Z.eqb_eq in Hv. rewrite (Hlay2 _ _ Hg) in Hv.
      unfold val, b1 in Hv. simpl in Hv. rewrite (Hval _ _ Hg) in Hv.
      destruct (bool_decide ((p.1, p.2) ∈ chosen)) eqn:E; [|discriminate].
      apply bool_decide_eq_true in E. destruct p; exact E.
  - change (mine_positions (set_board b1 a2)) with chosen.
    change (mine_count (set_board b1 a2)) with (mine_count b).
    rewrite Hsize, size_empty, Hlen. lia.
  - split; [reflexivity|]. split; [reflexivity|]. split; [reflexivity|].
    intros x y Hg. split.
    + apply (NpFacts.peek_fill false (revealed b) _ _ x y false Hr Hg).
    + apply (NpFacts.peek_fill false (flagged b) _ _ x y false Hf Hg).
Qed.

Lemma initialize_board_err (b : Board) (rnd : nat -> nat) :
  wf b -> mine_count b < 0 \/ height b * width b < mine_count b ->
  initialize_board b rnd = Raise ValueError.
Proof.
  intros (Hb & _) Hmc. pose proof Hb as (Hh & Hw & _).
  unfold initialize_board. cbv zeta.
  cbn [set_mine_positions set_flagged set_revealed set_board
       height width mine_count board revealed flagged mine_positions].
  rewrite (length_all_positions _ _ Hh Hw).
  rewrite choice_err; [reflexivity|lia|exact Hmc].
Qed.

Lemma full_ok {A} (h w : Z) (v : A) :
  0 <= h -> 0 <= w ->
  exists a, Np.full h w v = Ok a /\ Np.shape a h w.
Proof.
  intros Hh Hw. unfold Np.full.
  destruct (Z.ltb_spec h 0); [lia|]. destruct (Z.ltb_spec w 0); [lia|]. simpl.
  eexists. split; [reflexivity|]. split; [exact Hh|split; [exact Hw|split]].
  - apply length_replicate.
  - apply Forall_replicate. apply length_replicate.
Qed.

(** [Board(width, height, mine_count)] for non-negative dimensions. *)
Lemma new_board_ok (w h mc : Z) (rnd : nat -> nat) :
  0 <= w -> 0 <= h -> 0 <= mc <= w * h ->
  exists b,
    new_board w h mc rnd = Ok b /\ consistent b /\
    width b = w /\ height b = h /\ mine_count b = mc /\
    (forall x y, on_grid b x y ->
       is_revealed b x y = false /\ is_flagged b x y = false).
Proof.
  intros Hw Hh Hmc. unfold new_board.
  destruct (full_ok h w 0 Hh Hw) as (a1 & E1 & S1).
  destruct (full_ok h w false Hh Hw) as (a2 & E2 & S2).
  rewrite E1, bind_Ok, E2, !bind_Ok.
  destruct (initialize_board_ok (mkBoard w h mc a1 a2 a2 ∅) rnd)
    as (b' & Hrun & Hcons & Hw' & Hh' & Hmc' & Hfresh).
  - split; [exact S1|split; exact S2].
  - simpl. lia.
  - exists b'. split; [exact Hrun|]. split; [exact Hcons|]. simpl in *.
    split; [exact Hw'|]. split; [exact Hh'|]. split; [exact Hmc'|].
    intros x y Hg. apply Hfresh. unfold on_grid in *. simpl.
    rewrite <- Hh', <- Hw'. exact Hg.
Qed.

Lemma new_board_err (w h mc : Z) (rnd : nat -> nat) :
  0 <= w -> 0 <= h -> mc < 0 \/ w * h < mc ->
  new_board w h mc rnd = Raise ValueError.
Proof.
  intros Hw Hh Hmc. unfold new_board.
  destruct (full_ok h w 0 Hh Hw) as (a1 & E1 & S1).
  destruct (full_ok h w false Hh Hw) as (a2 & E2 & S2).
  rewrite E1, bind_Ok, E2, !bind_Ok.
  apply initialize_board_err.
  - split; [exact S1|split; exact S2].
  - simpl. lia.
Qed.

Lemma new_board_bad_dims (w h mc : Z) (rnd : nat -> nat) :
  w < 0 \/ h < 0 -> new_board w h mc rnd = Raise ValueError.
Proof.
  intros H. unfold new_board, Np.full.
  assert (E : (h <? 0) || (w <? 0) = true).
  { apply orb_true_iff. rewrite !Z.ltb_lt. tauto. }
  rewrite E. reflexivity.
Qed.

(** ** Sequences of operations *)

Lemma grows_eq (b b' : Board) : grows b b' -> b' = set_revealed b (revealed b').
Proof.
  intros [Hw Hh Hc Hb Hf Hm _ _]. destruct b'. simpl in *. subst.
  reflexivity.
Qed.

Lemma consistent_grows (b b' : Board) : consistent b -> grows b b' -> consistent b'.
Proof.
  intros [Hwf Hnum Hmir Hcnt] G.
  pose proof (grows_wf b b' Hwf G) as Hwf'.
  rewrite (grows_eq b b' G) in Hwf' |- *.
  split; [exact Hwf'|exact Hnum|exact Hmir|exact Hcnt].
Qed.

Lemma toggle_flag_spec (b : Board) (x y : Z) :
  wf b -> on_grid b x y ->
  toggle_flag b x y
  = Ok (if is_revealed b x y then b
        else set_flagged b (poke (flagged b) x y (negb (is_flagged b x y)))).
Proof.
  intros Hwf Hg. unfold toggle_flag.
  rewrite (get_revealed b x y Hwf Hg), bind_Ok.
  destruct (is_revealed b x y); simpl; [reflexivity|].
  rewrite (get_flagged b x y Hwf Hg), bind_Ok.
  destruct Hwf as (_ & _ & Hf).
  rewrite (NpFacts.setitem_poke _ _ _ x y _ Hf Hg). reflexivity.
Qed.

Lemma toggle_flag_consistent (b : Board) (x y : Z) :
  consistent b -> on_grid b x y ->
  exists b', toggle_flag b x y = Ok b' /\ consistent b' /\
             width b' = width b /\ height b' = height b.
Proof.
  intros Hc Hg. pose proof Hc as [Hwf Hnum Hmir Hcnt].
  rewrite (toggle_flag_spec b x y Hwf Hg).
  destruct (is_revealed b x y); [exists b; auto|].
  eexists. split; [reflexivity|]. split; [|auto].
  split; [|exact Hnum|exact Hmir|exact Hcnt].
  destruct Hwf as (Hb & Hr & Hf).
  split; [exact Hb|split; [exact Hr|]]. apply NpFacts.shape_poke. exact Hf.
Qed.

Lemma reveal_consistent (fuel : nat) (b : Board) (x y : Z) :
  consistent b -> on_grid b x y -> height b * width b <= Z.of_nat fuel ->
  exists r, reveal fuel b x y = Ok r /\ consistent r.2.1 /\
            width r.2.1 = width b /\ height r.2.1 = height b.
Proof.
  intros Hc Hg Hfuel. pose proof Hc as [Hwf _ _ _].
  assert (Hh : (hidden b <= fuel)%nat) by (pose proof (hidden_bound b Hwf); lia).
  destruct (decide (open b (x, y))) as [Hop|Hnop].
  - destruct (reveal_open fuel b x y Hwf Hop Hh) as (b' & log & Hrun & G & _).
    eexists. split; [exact Hrun|]. simpl.
    split; [apply (consistent_grows b); assumption|].
    split; [apply G|apply G].
  - assert (Hnoop : is_flagged b x y = true \/ is_revealed b x y = true).
    { destruct (is_flagged b x y) eqn:Ef; [auto|].
      destruct (is_revealed b x y) eqn:Er; [auto|].
      exfalso. apply Hnop. split; [exact Hg|auto]. }
    eexists. split; [apply reveal_noop; assumption|]. simpl. auto.
Qed.

Lemma run_consistent (fuel : nat) (ops : list op) :
  forall b : Board,
    consistent b -> height b * width b <= Z.of_nat fuel ->
    Forall (op_in_bounds (height b) (width b)) ops ->
    exists b', run fuel ops b = Ok b' /\ consistent b' /\
               width b' = width b /\ height b' = height b.
Proof.
  unfold run. induction ops as [|o ops IH]; intros b Hc Hfuel Hops.
  - exists b. simpl. auto.
  - apply Forall_cons in Hops as [Ho Hops].
    assert (Hstep : exists b1, apply_op fuel o b = Ok b1 /\ consistent b1 /\
                               width b1 = width b /\ height b1 = height b).
    { destruct o as [x y|x y|from_pos to_pos]; simpl in Ho |- *.
      - destruct (reveal_consistent fuel b x y Hc Ho Hfuel) as (r & Hrun & H).
        exists r.2.1. rewrite Hrun. auto.
      - apply toggle_flag_consistent; assumption.
      - destruct Ho. apply reposition_mine_consistent; assumption. }
    destruct Hstep as (b1 & Hrun1 & Hc1 & Hw1 & Hh1).
    destruct (IH b1 Hc1) as (b' & Hrun & Hc' & Hw' & Hh').
    + rewrite Hw1, Hh1. exact Hfuel.
    + rewrite Hw1, Hh1. exact Hops.
    + exists b'. simpl. rewrite Hrun1, bind_Ok. split; [exact Hrun|].
      split; [exact Hc'|]. split; congruence.
Qed.

Lemma new_board_inv (w h mc : Z) (rnd : nat -> nat) (b : Board) :
  new_board w h mc rnd = Ok b ->
  consistent b /\ width b = w /\ height b = h /\ mine_count b = mc.
Proof.
  intros Hrun.
  destruct (decide (w < 0 \/ h < 0)) as [Hd|Hd].
  { rewrite new_board_bad_dims in Hrun by exact Hd. discriminate. }
  destruct (decide (mc < 0 \/ w * h < mc)) as [Hm|Hm].
  { rewrite new_board_err in Hrun by lia. discriminate. }
  destruct (new_board_ok w h mc rnd) as (b' & Hrun' & Hc & Hw & Hh & Hmc & _);
    try lia.
  rewrite Hrun in Hrun'. injection Hrun' as <-. auto.
Qed.

(** ** Claims about the grid invariant and construction *)

(** C1. Every board that construction returns is consistent: each cell
    that is not a mine stores the number of mines among its neighbours
    on the grid, the mine set is the set of cells with value -1, and its
    size is [mine_count].  From such a board every sequence of [reveal],
    [toggle_flag] and [reposition_mine] calls on cells of the grid runs
    to the end and returns a consistent board. *)
Theorem grid_invariant (w h mc : Z) (rnd : nat -> nat) (b0 : Board) :
  new_board w h mc rnd = Ok b0 ->
  consistent b0 /\
  forall (fuel : nat) (ops : list op),
    h * w <= Z.of_nat fuel -> Forall (op_in_bounds h w) ops ->
    exists b', run fuel ops b0 = Ok b' /\ consistent b'.
Proof.
  intros Hnew. destruct (new_board_inv w h mc rnd b0 Hnew) as (Hc & Hw & Hh & _).
  split; [exact Hc|]. intros fuel ops Hfuel Hops.
  destruct (run_consistent fuel ops b0 Hc) as (b' & Hrun & Hc' & _).
  - rewrite Hw, Hh. exact Hfuel.
  - rewrite Hw, Hh. exact Hops.
  - exists b'. auto.
Qed.

Lemma grid_invariant_witness :
  consistent corner_mine_board /\
  exists b',
    run 9 [Reveal 2 2; ToggleFlag 0 0; RepositionMine (0, 0) (1, 1); Reveal 0 0]
        corner_mine_board = Ok b' /\ consistent b'.
Proof.
  assert (Hnew : new_board 3 3 1 (fun _ => 0%nat) = Ok corner_mine_board)
    by (vm_compute; reflexivity).
  destruct (grid_invariant 3 3 1 (fun _ => 0%nat) corner_mine_board Hnew) as [Hc Hrun].
  split; [exact Hc|]. apply Hrun; [lia|].
  repeat constructor; simpl; lia.
Defined.

(** C6, as the code has it.  For non-negative dimensions, construction
    raises an error when [mine_count] is negative or larger than the
    number of cells, and otherwise returns a consistent board with
    exactly [mine_count] mines; a board filled with mines is accepted. *)
Theorem new_board_precondition (w h mc : Z) (rnd : nat -> nat) :
  0 <= w -> 0 <= h ->
  (mc < 0 \/ w * h < mc -> new_board w h mc rnd = Raise ValueError) /\
  (0 <= mc <= w * h ->
   exists b, new_board w h mc rnd = Ok b /\ consistent b /\
             Z.of_nat (size (mine_positions b)) = mc /\
             width b = w /\ height b = h).
Proof.
  intros Hw Hh. split; [apply new_board_err; assumption|].
  intros Hmc.
  destruct (new_board_ok w h mc rnd Hw Hh Hmc) as (b & Hrun & Hc & Hw' & Hh' & Hmc' & _).
  exists b. split; [exact Hrun|]. split; [exact Hc|].
  split; [rewrite (cons_count b Hc); exact Hmc'|auto].
Qed.

Lemma new_board_precondition_witness :
  new_board 2 2 5 (fun _ => 0%nat) = Raise ValueError /\
  exists b, new_board 2 2 4 (fun _ => 0%nat) = Ok b /\ consistent b /\
            Z.of_nat (size (mine_positions b)) = 4 /\ width b = 2 /\ height b = 2.
Proof.
  destruct (new_board_precondition 2 2 5 (fun _ => 0%nat)) as [Herr _]; [lia|lia|].
  destruct (new_board_precondition 2 2 4 (fun _ => 0%nat)) as [_ Hok]; [lia|lia|].
  split; [apply Herr; lia|apply Hok; lia].
Defined.

(** C6 as stated fails: with as many mines as cells, construction
    returns a board, every cell of which is a mine. *)
Lemma new_board_full_grid_accepted :
  1 >= 1 * 1 /\
  exists b, new_board 1 1 1 (fun _ => 0%nat) = Ok b /\ val b 0 0 = -1.
Proof.
  split; [lia|]. eexists. split; [vm_compute; reflexivity|reflexivity].
Qed.

(** ** Danger zones *)

Lemma all_pairs_3 (t : cell -> cell -> bool) (a b c : cell) :
  for_each (range 3) (fun i =>
    for_each (range2 (i + 1) 3) (fun j (so_far : bool) =>
      if so_far then
        let* mi := list_getitem [a; b; c] i in
        let* mj := list_getitem [a; b; c] j in
        Ok (t mi mj)
      else Ok false)) true
  = Ok (t a b && t a c && t b c).
Proof. cbv. destruct (t a b), (t a c); reflexivity. Qed.

Lemma are_moves_clustered_3 (a b c : cell) :
  are_moves_clustered [a; b; c]
  = Ok ((manhattan_distance a b <=? 3) && (manhattan_distance a c <=? 3)
        && (manhattan_distance b c <=? 3)).
Proof.
  apply (all_pairs_3 (fun mi mj => manhattan_distance mi mj <=? 3)).
Qed.

Lemma get_cluster_center_3 (a b c : cell) :
  get_cluster_center [a; b; c]
  = Ok ((a.1 + b.1 + c.1) / 3, (a.2 + b.2 + c.2) / 3).
Proof. reflexivity. Qed.

Lemma last3_app {A} (pre : list A) (a b c : A) :
  last3 (pre ++ [a; b; c]) = [a; b; c].
Proof.
  unfold last3. rewrite length_app. simpl.
  replace (length pre + 3 - 3)%nat with (length pre) by lia.
  apply drop_app_length.
Qed.

(** C8. [record_move] appends the move, drops every danger zone farther
    than 5 from it and keeps the others in order; when the history then
    holds three moves or more and the last three are pairwise within
    distance 3, the floor of their mean is appended as a zone unless it
    is among the kept ones.  The moves (0,0), (1,0), (0,1) on a new
    controller leave the one zone (0,0). *)
Theorem record_move_spec (F : Type) (zones : list cell) (df tp : F) (x y : Z) :
  let kept := List.filter (fun pos => manhattan_distance pos (x, y) <=? 5) zones in
  (forall z, z ∈ kept <-> z ∈ zones /\ manhattan_distance z (x, y) <= 5) /\
  record_move (mkAI [] zones df tp) x y = Ok (mkAI [(x, y)] kept df tp) /\
  (forall a,
     record_move (mkAI [a] zones df tp) x y = Ok (mkAI [a; (x, y)] kept df tp)) /\
  (forall pre a b,
     let center := ((a.1 + b.1 + x) / 3, (a.2 + b.2 + y) / 3) in
     record_move (mkAI (pre ++ [a; b]) zones df tp) x y
     = Ok (mkAI (pre ++ [a; b; (x, y)])
                (if (manhattan_distance a b <=? 3)
                    && (manhattan_distance a (x, y) <=? 3)
                    && (manhattan_distance b (x, y) <=? 3)
                 then if bool_decide (center ∈ kept) then kept else kept ++ [center]
                 else kept)
                df tp)) /\
  (let* a1 := record_move (mkAI [] [] df tp) 0 0 in
   let* a2 := record_move a1 1 0 in
   record_move a2 0 1)
  = Ok (mkAI [(0, 0); (1, 0); (0, 1)] [(0, 0)] df tp).
Proof.
  intros kept. split; [|split; [|split; [|split]]].
  - intros z. unfold kept. rewrite !list_elem_of_In, filter_In, Z.leb_le.
    reflexivity.
  - reflexivity.
  - intros a. reflexivity.
  - intros pre a b center. unfold record_move, update_danger_zones.
    cbn [move_history danger_zones difficulty_factor transform_probability
         set_danger_zones].
    fold kept. rewrite <- app_assoc. cbn [app].
    assert (Hlen : (3 <=? Z.of_nat (length (pre ++ [a; b; (x, y)]))) = true).
    { apply Z.leb_le. rewrite length_app. simpl. lia. }
    rewrite Hlen, last3_app, are_moves_clustered_3, bind_Ok.
    destruct ((manhattan_distance a b <=? 3) && (manhattan_distance a (x, y) <=? 3)
              && (manhattan_distance b (x, y) <=? 3)); [|reflexivity].
    rewrite get_cluster_center_3, bind_Ok. cbn [fst snd]. fold center.
    destruct (bool_decide (center ∈ kept)); reflexivity.
  - reflexivity.
Qed.

(** ** Loops that collect cells *)

Lemma for_each_collect {A} (l : list A) (body : A -> list A -> result (list A))
      (keep : A -> bool) :
  (forall a acc, a ∈ l -> body a acc = Ok (if keep a then acc ++ [a] else acc)) ->
  forall acc, for_each l body acc = Ok (acc ++ List.filter keep l).
Proof.
  induction l as [|a l IH]; intros Hbody acc; simpl.
  - rewrite app_nil_r. reflexivity.
  - rewrite Hbody by (apply elem_of_cons; auto). simpl.
    rewrite IH by (intros a' acc' Ha'; apply Hbody; apply elem_of_cons; auto).
    destruct (keep a); [|reflexivity]. rewrite <- app_assoc. reflexivity.
Qed.

Lemma unrevealed_cells_spec (b : Board) :
  wf b ->
  unrevealed_cells b
  = Ok (List.filter (fun c : cell => negb (is_revealed b c.1 c.2))
                    (all_positions (height b) (width b))).
Proof.
  intros Hwf. unfold unrevealed_cells.
  rewrite (for_each_nested _ _ (fun x y acc =>
             let* r := Np.getitem (revealed b) x y in
             if negb r then Ok (acc ++ [(x, y)]) else Ok acc)).
  rewrite (for_each_collect _ _ (fun c : cell => negb (is_revealed b c.1 c.2)));
    [reflexivity|].
  intros [x y] acc Hin. apply elem_of_all_positions in Hin. simpl in *.
  rewrite (get_revealed b x y Hwf Hin), bind_Ok.
  destruct (is_revealed b x y); reflexivity.
Qed.

Lemma get_safe_moves_spec (b : Board) :
  wf b ->
  get_safe_moves b
  = Ok (List.filter (fun c : cell => negb (is_revealed b c.1 c.2)
                                     && negb (is_flagged b c.1 c.2)
                                     && negb (val b c.1 c.2 =? -1))
                    (all_positions (height b) (width b))).
Proof.
  intros Hwf. unfold get_safe_moves.
  rewrite (for_each_nested _ _ (fun x y safe_moves =>
             let* r := Np.getitem (revealed b) x y in
             if negb r then
               let* f := Np.getitem (flagged b) x y in
               if negb f then
                 let* v := Np.getitem (board b) x y in
                 if negb (v =? -1) then Ok (safe_moves ++ [(x, y)])
                 else Ok safe_moves
               else Ok safe_moves
             else Ok safe_moves)).
  rewrite (for_each_collect _ _
             (fun c : cell => negb (is_revealed b c.1 c.2)
                              && negb (is_flagged b c.1 c.2)
                              && negb (val b c.1 c.2 =? -1)));
    [reflexivity|].
  intros [x y] acc Hin. apply elem_of_all_positions in Hin. simpl in *.
  rewrite (get_revealed b x y Hwf Hin), bind_Ok.
  destruct (is_revealed b x y); simpl; [reflexivity|].
  rewrite (get_flagged b x y Hwf Hin), bind_Ok.
  destruct (is_flagged b x y); simpl; [reflexivity|].
  rewrite (get_board b x y Hwf Hin), bind_Ok.
  destruct (negb (val b x y =? -1)); reflexivity.
Qed.

Lemma find_safe_transformation_spot_spec (b : Board) (r : nat) :
  wf b ->
  find_safe_transformation_spot b r
  = match spot_candidates b with
    | [] => Ok (0, 0)
    | l => list_getitem l (Z.of_nat (Rng.randint (length l) r))
    end.
Proof.
  intros Hwf. unfold find_safe_transformation_spot.
  rewrite (for_each_nested _ _ (fun x y acc =>
             let* rv := Np.getitem (revealed b) x y in
             if negb rv && negb (bool_decide ((x, y) ∈ mine_positions b))
             then Ok (acc ++ [(x, y)]) else Ok acc)).
  rewrite (for_each_collect _ _
             (fun c : cell => negb (is_revealed b c.1 c.2)
                              && negb (bool_decide (c ∈ mine_positions b)))).
  - rewrite bind_Ok, app_nil_l. fold (all_positions (height b) (width b)).
    fold (spot_candidates b). destruct (spot_candidates b); reflexivity.
  - intros [x y] acc Hin. apply elem_of_all_positions in Hin. simpl in *.
    rewrite (get_revealed b x y Hwf Hin), bind_Ok.
    destruct (negb (is_revealed b x y) && _); reflexivity.
Qed.

(** A draw from a list that is not empty is one of its entries. *)
Lemma randint_pick {A} (l : list A) (r : nat) :
  l <> [] ->
  exists v, l !! Rng.randint (length l) r = Some v /\
            list_getitem l (Z.of_nat (Rng.randint (length l) r)) = Ok v.
Proof.
  intros Hne. assert (length l <> 0%nat) by (destruct l; simpl; congruence).
  assert (Hlt : (Rng.randint (length l) r < length l)%nat)
    by (apply Nat.mod_upper_bound; assumption).
  destruct (list_getitem_in l (Z.of_nat (Rng.randint (length l) r))) as (v & Hv & Hget);
    [lia|].
  rewrite Nat2Z.id in Hv. eauto.
Qed.

(** ** Defusal *)

Lemma elem_of_spot_candidates (b : Board) (c : cell) :
  c ∈ spot_candidates b <->
  on_grid b c.1 c.2 /\ is_revealed b c.1 c.2 = false /\ c ∉ mine_positions b.
Proof.
  unfold spot_candidates. rewrite list_elem_of_In, filter_In, <- list_elem_of_In.
  rewrite elem_of_all_positions, andb_true_iff, !negb_true_iff.
  rewrite bool_decide_eq_false. reflexivity.
Qed.

(** X29. The defusal while a hidden cell without a mine is left.  On a
    well-shaped board whose mine set mirrors the grid and that has a
    hidden cell without a mine, the spot chosen for a defusal is a hidden
    cell of the grid that is no mine, whatever the draws; and when the
    tile-transformation step picks a hidden mine, it repositions that
    mine to this spot. *)
Theorem defusal_target (b : Board) (r_pick r_spot r_first : nat) (coin : bool) :
  wf b -> mines_mirror b ->
  (exists c : cell, on_grid b c.1 c.2 /\ is_revealed b c.1 c.2 = false /\
                    val b c.1 c.2 <> -1) ->
  exists t : cell,
    find_safe_transformation_spot b r_spot = Ok t /\
    on_grid b t.1 t.2 /\ is_revealed b t.1 t.2 = false /\
    val b t.1 t.2 <> -1 /\ (t ∉ mine_positions b) /\
    exists unrevealed : list cell,
      unrevealed_cells b = Ok unrevealed /\
      forall p : cell,
        unrevealed !! Rng.randint (length unrevealed) r_pick = Some p ->
        p ∈ mine_positions b ->
        transform_random_tile b r_pick r_spot r_first coin = reposition_mine b p t.
Proof.
  intros Hwf Hmir (c & Hgc & Hrc & Hvc).
  assert (Hc : c ∈ spot_candidates b).
  { apply elem_of_spot_candidates. split; [exact Hgc|]. split; [exact Hrc|].
    intros Hin. apply Hmir in Hin as [_ Hin]. contradiction. }
  assert (Hne : spot_candidates b <> []).
  { intros He. rewrite He in Hc. apply elem_of_nil in Hc. exact Hc. }
  destruct (randint_pick (spot_candidates b) r_spot Hne) as (t & Ht & Hget).
  assert (Hspot : find_safe_transformation_spot b r_spot = Ok t).
  { rewrite (find_safe_transformation_spot_spec b r_spot Hwf).
    destruct (spot_candidates b); [contradiction|exact Hget]. }
  apply list_elem_of_lookup_2 in Ht.
  apply elem_of_spot_candidates in Ht as (Hgt & Hrt & Hmt).
  exists t. split; [exact Hspot|]. split; [exact Hgt|]. split; [exact Hrt|].
  split; [|split; [exact Hmt|]].
  { intros Hv. apply Hmt. apply Hmir. auto. }
  eexists. split; [apply unrevealed_cells_spec; exact Hwf|].
  intros p Hp Hpm. unfold transform_random_tile.
  rewrite (unrevealed_cells_spec b Hwf), bind_Ok.
  set (l := List.filter _ _) in *.
  assert (Hl : l <> []).
  { intros He. rewrite He in Hp. rewrite lookup_nil in Hp. discriminate. }
  destruct (randint_pick l r_pick Hl) as (p' & Hp' & Hgetp).
  assert (p' = p) by congruence. subst p'.
  destruct l; [contradiction|].
  rewrite Hgetp, bind_Ok.
  rewrite bool_decide_eq_true_2 by exact Hpm.
  rewrite Hspot, bind_Ok. reflexivity.
Qed.

Lemma defusal_target_witness :
  exists t : cell,
    find_safe_transformation_spot corner_mine_board 4 = Ok t /\
    is_revealed corner_mine_board t.1 t.2 = false /\
    val corner_mine_board t.1 t.2 <> -1 /\
    transform_random_tile corner_mine_board 0 4 0 false
    = reposition_mine corner_mine_board (0, 0) t.
Proof.
  destruct (defusal_target corner_mine_board 0 4 0 false)
    as (t & Hspot & _ & Hr & Hv & _ & l & Hl & Hmove).
  - exact corner_mine_board_wf.
  - exact corner_mine_board_mirror.
  - exists (1, 1). split; [unfold on_grid, in_bounds; simpl; lia|].
    split; [reflexivity|vm_compute; congruence].
  - exists t. split; [exact Hspot|]. split; [exact Hr|]. split; [exact Hv|].
    apply Hmove.
    + assert (Hl' : unrevealed_cells corner_mine_board
                    = Ok (all_positions 3 3)) by (vm_compute; reflexivity).
      rewrite Hl in Hl'. injection Hl' as ->. reflexivity.
    + change ((0, 0) ∈ ({[(0, 0)]} : gset (Z * Z))).
      apply elem_of_singleton. reflexivity.
Defined.

(** C9. The defusal can put the mine on a revealed cell.  On the 3x3
    board built with its mine at (2, 2), [reveal] at (0, 0) uncovers the
    eight other cells and the game is won.  No hidden cell is without a
    mine then: [_find_safe_transformation_spot] returns its fallback
    (0, 0), a revealed cell, and [_transform_random_tile], which picks
    the hidden mine, moves it there.  The board then has a mine under a
    revealed cell and is no longer won.  One left click at (0, 0) on the
    new board does all of this, through the update of the board state
    that follows every successful reveal. *)
Theorem defusal_takes_back_the_win :
  exists (b0 b b' : Board) (log : list cell),
    new_board 3 3 1 (fun _ => 8%nat) = Ok b0 /\
    elements (mine_positions b0) = [(2, 2)] /\
    reveal 9 b0 0 0 = Ok (true, (b, log)) /\
    is_won b = true /\
    unrevealed_cells b = Ok [(2, 2)] /\
    bool_decide ((2, 2) ∈ mine_positions b) = true /\
    find_safe_transformation_spot b 0 = Ok (0, 0) /\
    is_revealed b 0 0 = true /\
    transform_random_tile b 0 0 0 false = Ok b' /\
    val b' 0 0 = -1 /\ is_revealed b' 0 0 = true /\
    elements (mine_positions b') = [(0, 0)] /\
    is_won b' = false /\
    exists g' : Game Z,
      mouse_button_down 1 5 8 20 Z.add Z.sub (fun a b => a / b) (fun z => 10 * z)
        Z.ltb 9 elements (mkDraws (fun _ => false) true 0 0 0 false)
        (mkGame b0 (new_controller 1 10) false false false 0 false None true
                0 0 0 Medium)
        (5, 65) 1 = Ok g' /\
      the_board g' = b' /\ game_over g' = false.
Proof.
  eexists. eexists. eexists. eexists.
  split; [vm_compute; reflexivity|].
  split; [vm_compute; reflexivity|].
  split; [vm_compute; reflexivity|].
  split; [vm_compute; reflexivity|].
  split; [vm_compute; reflexivity|].
  split; [vm_compute; reflexivity|].
  split; [vm_compute; reflexivity|].
  split; [vm_compute; reflexivity|].
  split; [vm_compute; reflexivity|].
  split; [vm_compute; reflexivity|].
  split; [vm_compute; reflexivity|].
  split; [vm_compute; reflexivity|].
  split; [vm_compute; reflexivity|].
  eexists. split; [vm_compute; reflexivity|].
  split; vm_compute; reflexivity.
Qed.

(** ** Row-major order *)

Lemma StronglySorted_seq (a n : nat) : StronglySorted lt (seq a n).
Proof.
  revert a. induction n as [|n IH]; intros a; simpl; constructor.
  - apply IH.
  - apply Forall_forall. intros i Hi. apply list_elem_of_In, in_seq in Hi. lia.
Qed.

Lemma StronglySorted_seqZ (m n : Z) : StronglySorted Z.lt (seqZ m n).
Proof.
  unfold seqZ.
  apply (StronglySorted_fmap (fun i : nat => Z.of_nat i + m) lt Z.lt).
  - intros x y Hxy. lia.
  - apply StronglySorted_seq.
Qed.

Lemma all_positions_sorted (h w : Z) :
  StronglySorted row_major_before (all_positions h w).
Proof.
  unfold all_positions, range, range2.
  assert (Hrow : forall x ys, StronglySorted Z.lt ys ->
            StronglySorted row_major_before (ys ≫= (fun y => [(x, y)]))).
  { intros x ys Hys. induction Hys as [|y ys _ IH Hall]; [constructor|].
    change ((y :: ys) ≫= (fun y => [(x, y)]))
      with ((x, y) :: (ys ≫= (fun y => [(x, y)]))).
    constructor; [exact IH|]. apply Forall_forall. intros p Hp.
    apply list_elem_of_bind in Hp as (y' & Hp & Hy').
    apply list_elem_of_singleton in Hp. subst p.
    rewrite Forall_forall in Hall. right. simpl. split; [reflexivity|].
    apply Hall. exact Hy'. }
  generalize (StronglySorted_seqZ 0 (w - 0)). generalize (seqZ 0 (w - 0)).
  intros ys Hys.
  generalize (StronglySorted_seqZ 0 (h - 0)). generalize (seqZ 0 (h - 0)).
  intros xs Hxs. induction Hxs as [|x xs _ IH Hall]; [constructor|].
  change ((x :: xs) ≫= (fun x => ys ≫= (fun y => [(x, y)])))
    with ((ys ≫= (fun y => [(x, y)])) ++ (xs ≫= (fun x => ys ≫= (fun y => [(x, y)])))).
  apply StronglySorted_app_2; [|apply Hrow; exact Hys|exact IH].
  intros p1 p2 H1 H2.
  apply list_elem_of_bind in H1 as (y1 & H1 & _).
  apply list_elem_of_singleton in H1. subst p1.
  apply list_elem_of_bind in H2 as (x2 & H2 & Hx2).
  apply list_elem_of_bind in H2 as (y2 & H2 & _).
  apply list_elem_of_singleton in H2. subst p2.
  rewrite Forall_forall in Hall. left. simpl. apply Hall. exact Hx2.
Qed.

Lemma StronglySorted_filter {A} (R : A -> A -> Prop) (f : A -> bool) (l : list A) :
  StronglySorted R l -> StronglySorted R (List.filter f l).
Proof.
  induction 1 as [|a l _ IH Hall]; simpl; [constructor|].
  destruct (f a); [|exact IH]. constructor; [exact IH|].
  apply Forall_forall. intros x Hx. apply list_elem_of_In, filter_In in Hx as [Hx _].
  rewrite Forall_forall in Hall. apply Hall. apply list_elem_of_In. exact Hx.
Qed.

Lemma row_major_before_asym (c c' : cell) :
  row_major_before c c' -> row_major_before c' c -> False.
Proof. unfold row_major_before. lia. Qed.

(** ** Hints *)

Section Hint.

Variable F : Type.
Variables (fzero fhalf : F) (fadd fmul : F -> F -> F).
Variable of_int : Z -> F.
Variable flt : F -> F -> bool.

(** The comparison of floats that are not NaN is a strict weak order. *)
Hypothesis flt_irrefl : forall a, flt a a = false.
Hypothesis flt_trans : forall a b c, flt a b = true -> flt b c = true -> flt a c = true.
Hypothesis flt_weak :
  forall a b c, flt a b = true -> flt a c = true \/ flt c b = true.

Local Abbreviation risk_of := (calculate_move_risk fzero fhalf fadd fmul of_int).
Local Abbreviation score := (risk_score fzero fhalf fadd fmul of_int).
Local Abbreviation hint := (get_hint fzero fhalf fadd fmul of_int flt).

Lemma for_each_sum {A} (l : list A) (body : A -> F -> result F)
      (keep : A -> bool) (term : A -> F) :
  (forall a r, body a r = Ok (if keep a then fadd r (term a) else r)) ->
  forall r, for_each l body r = Ok (fold_left fadd (map term (List.filter keep l)) r).
Proof.
  intros Hbody. induction l as [|a l IH]; intros r; simpl; [reflexivity|].
  rewrite Hbody. simpl. rewrite IH. destruct (keep a); reflexivity.
Qed.

(** On a hidden cell the code computes the score of the specification:
    the cell itself, which the loops also visit, adds nothing. *)
Lemma calculate_move_risk_spec (ai : AIController F) (b : Board) (c : cell) :
  wf b -> is_revealed b c.1 c.2 = false ->
  risk_of ai b c = Ok (score ai b c).
Proof.
  intros Hwf Hr. destruct c as [x y]. simpl in Hr.
  unfold calculate_move_risk, risk_score, fsum. rewrite fold_left_app.
  rewrite (for_each_sum _ _ (fun z => manhattan_distance (x, y) z <=? 3)
             (fun z => fmul (of_int (4 - manhattan_distance (x, y) z))
                            (difficulty_factor ai))).
  2:{ intros z r. destruct (manhattan_distance (x, y) z <=? 3); reflexivity. }
  rewrite bind_Ok. fold (zone_terms fmul of_int ai (x, y)).
  rewrite (for_each_nested _ _ (fun dx dy risk_score =>
             if inside b (x + dx) (y + dy) then
               let* r := Np.getitem (revealed b) (x + dx) (y + dy) in
               if r then
                 let* v := Np.getitem (board b) (x + dx) (y + dy) in
                 Ok (fadd risk_score (fmul (of_int v) fhalf))
               else Ok risk_score
             else Ok risk_score)).
  rewrite (for_each_sum _ _
             (fun d : cell => inside b (x + d.1) (y + d.2)
                              && is_revealed b (x + d.1) (y + d.2))
             (fun d : cell => fmul (of_int (val b (x + d.1) (y + d.2))) fhalf)).
  2:{ intros [dx dy] r. simpl.
      destruct (inside b (x + dx) (y + dy)) eqn:Ein; [|reflexivity].
      apply inside_spec in Ein.
      rewrite (get_revealed b _ _ Hwf Ein), bind_Ok.
      destruct (is_revealed b (x + dx) (y + dy)); [|reflexivity].
      rewrite (get_board b _ _ Hwf Ein). reflexivity. }
  f_equal. f_equal. unfold neighbour_terms, neighbours8.
  rewrite filter_map_swap, map_map. cbn [fst snd].
  change ([-1; 0; 1] ≫= (fun x0 : Z => [-1; 0; 1] ≫= (fun y0 : Z => [(x0, y0)])))
    with ([(-1, -1); (-1, 0); (-1, 1); (0, -1)]
          ++ (0, 0) :: [(0, 1); (1, -1); (1, 0); (1, 1)]).
  change [(-1, -1); (-1, 0); (-1, 1); (0, -1); (0, 1); (1, -1); (1, 0); (1, 1)]
    with ([(-1, -1); (-1, 0); (-1, 1); (0, -1)]
          ++ [(0, 1); (1, -1); (1, 0); (1, 1)]).
  rewrite !List.filter_app. f_equal. f_equal.
  change (List.filter ?f ((0, 0) :: ?l))
    with (if f (0, 0) then (0, 0) :: List.filter f l else List.filter f l).
  cbn [fst snd]. rewrite !Z.add_0_r, Hr, andb_false_r. reflexivity.
Qed.

(** [min] returns an item such that every item before it has a larger
    key and no item after it has a smaller one. *)
Lemma py_min_spec {A} (key : A -> F) (l : list A) :
  l <> [] ->
  exists (c : A) (pre post : list A),
    py_min flt key l = Ok c /\ l = pre ++ c :: post /\
    (forall e, e ∈ pre -> flt (key c) (key e) = true) /\
    (forall e, e ∈ post -> flt (key e) (key c) = false).
Proof.
  intros Hne. destruct l as [|a l]; [contradiction|]. clear Hne. simpl.
  set (step := fun best item : A => if flt (key item) (key best) then item else best).
  assert (Hgen : forall l pre best post,
            (forall e, e ∈ pre -> flt (key best) (key e) = true) ->
            (forall e, e ∈ post -> flt (key e) (key best) = false) ->
            exists pre' post',
              pre ++ best :: post ++ l = pre' ++ fold_left step l best :: post' /\
              (forall e, e ∈ pre' -> flt (key (fold_left step l best)) (key e) = true) /\
              (forall e, e ∈ post' -> flt (key e) (key (fold_left step l best)) = false)).
  { clear a l. induction l as [|x l IH]; intros pre best post Hpre Hpost.
    - exists pre, post. rewrite app_nil_r. auto.
    - cbn [fold_left].
      assert (Hs : step best x = if flt (key x) (key best) then x else best)
        by reflexivity.
      destruct (flt (key x) (key best)) eqn:E; rewrite Hs.
      + destruct (IH (pre ++ best :: post) x []) as (pre' & post' & Heq & H1 & H2).
        * intros e He. apply elem_of_app in He as [He|He].
          { apply (flt_trans _ (key best)); [exact E|apply Hpre; exact He]. }
          apply elem_of_cons in He as [->|He]; [exact E|].
          destruct (flt_weak _ _ (key e) E) as [H|H]; [exact H|].
          rewrite (Hpost e He) in H. discriminate.
        * intros e He. apply elem_of_nil in He. contradiction.
        * exists pre', post'. split; [|split; assumption]. rewrite <- Heq.
          rewrite <- !app_assoc. reflexivity.
      + destruct (IH pre best (post ++ [x])) as (pre' & post' & Heq & H1 & H2).
        * exact Hpre.
        * intros e He. apply elem_of_app in He as [He|He]; [apply Hpost; exact He|].
          apply list_elem_of_singleton in He. subst e. exact E.
        * exists pre', post'. split; [|split; assumption]. rewrite <- Heq.
          rewrite <- !app_assoc. reflexivity. }
  destruct (Hgen l [] a []) as (pre' & post' & Heq & H1 & H2).
  - intros e He. apply elem_of_nil in He. contradiction.
  - intros e He. apply elem_of_nil in He. contradiction.
  - exists (fold_left step l a), pre', post'. auto.
Qed.

Lemma for_each_scores (ai : AIController F) (b : Board) (l : list cell)
      (g : cell -> F) :
  (forall m, m ∈ l -> risk_of ai b m = Ok (g m)) ->
  forall acc,
    for_each l (fun move move_scores =>
                  let* score := risk_of ai b move in
                  Ok (move_scores ++ [(score, move)])) acc
    = Ok (acc ++ map (fun m => (g m, m)) l).
Proof.
  induction l as [|m l IH]; intros Hg acc; simpl.
  - rewrite app_nil_r. reflexivity.
  - rewrite Hg by (apply elem_of_cons; auto). simpl.
    rewrite IH by (intros m' Hm'; apply Hg; apply elem_of_cons; auto).
    rewrite <- app_assoc. reflexivity.
Qed.

Lemma get_safe_moves_safe (b : Board) (c : cell) :
  c ∈ List.filter (fun c : cell => negb (is_revealed b c.1 c.2)
                                   && negb (is_flagged b c.1 c.2)
                                   && negb (val b c.1 c.2 =? -1))
                  (all_positions (height b) (width b))
  <-> safe_cell b c.
Proof.
  unfold safe_cell. rewrite list_elem_of_In, filter_In, <- list_elem_of_In.
  rewrite elem_of_all_positions, !andb_true_iff, !negb_true_iff, Z.eqb_neq.
  tauto.
Qed.

(** C7. [get_hint] on a well-shaped board, for a comparison of scores
    that is a strict weak order.  The score the code computes for a safe
    cell (hidden, unflagged, no mine) is the sum, added in order, of
    [(4 - distance) * difficulty_factor] over the danger zones within
    distance 3 and of [0.5 * value] over the revealed neighbours on the
    grid.  Without a safe cell the hint is [None].  Otherwise it is a
    safe cell whose score no safe cell undercuts, and every safe cell
    before it in row-major order has a larger score. *)
Theorem get_hint_spec (ai : AIController F) (b : Board) :
  wf b ->
  (forall c, safe_cell b c -> risk_of ai b c = Ok (score ai b c)) /\
  ((forall c, ~ safe_cell b c) -> hint ai b = Ok None) /\
  ((exists c, safe_cell b c) ->
   exists c, hint ai b = Ok (Some c) /\ safe_cell b c /\
     (forall c', safe_cell b c' ->
        flt (score ai b c') (score ai b c) = false) /\
     (forall c', safe_cell b c' -> row_major_before c' c ->
        flt (score ai b c) (score ai b c') = true)).
Proof.
  intros Hwf.
  assert (Hrisk : forall c, safe_cell b c -> risk_of ai b c = Ok (score ai b c)).
  { intros c (_ & Hr & _). apply calculate_move_risk_spec; assumption. }
  split; [exact Hrisk|].
  unfold get_hint. rewrite (get_safe_moves_spec b Hwf), bind_Ok.
  set (L := List.filter _ _).
  assert (HL : forall c, c ∈ L <-> safe_cell b c) by apply get_safe_moves_safe.
  assert (Hsorted : StronglySorted row_major_before L).
  { apply StronglySorted_filter, all_positions_sorted. }
  clearbody L. split.
  - intros Hnone. destruct L as [|c L]; [reflexivity|].
    exfalso. apply (Hnone c), HL, elem_of_cons. auto.
  - intros (c0 & Hc0). apply HL in Hc0.
    assert (Hne : L <> []).
    { intros ->. apply elem_of_nil in Hc0. exact Hc0. }
    rewrite (for_each_scores ai b L (score ai b))
      by (intros m Hm; apply Hrisk, HL, Hm).
    rewrite app_nil_l.
    destruct (py_min_spec (@fst F cell) (map (fun m => (score ai b m, m)) L))
      as (best & pre0 & post0 & Hmin & Hsplit & Hpre & Hpost).
    { destruct L; [contradiction|discriminate]. }
    apply map_eq_app in Hsplit as (pre & rest & HLeq & Hpre0 & Hrest).
    apply map_eq_cons in Hrest as (c & post & -> & Hbest & Hpost0).
    subst best pre0 post0.
    assert (Hgoal : (match L with
                     | [] => Ok None
                     | _ :: _ =>
                         let* move_scores := Ok (map (fun m => (score ai b m, m)) L) in
                         let* best := py_min flt fst move_scores in
                         Ok (Some best.2)
                     end) = Ok (Some c)).
    { destruct L; [contradiction|]. rewrite bind_Ok, Hmin. reflexivity. }
    exists c. split; [exact Hgoal|].
    assert (Hc : c ∈ L).
    { rewrite HLeq. apply elem_of_app. right. apply elem_of_cons. auto. }
    split; [apply HL; exact Hc|].
    assert (Hasym : forall u v, flt u v = true -> flt v u = false).
    { intros u v Huv. destruct (flt v u) eqn:E; [|reflexivity].
      rewrite <- (flt_irrefl u). symmetry. apply (flt_trans u v u); assumption. }
    assert (Hbefore : forall e, e ∈ pre ->
              flt (score ai b c) (score ai b e) = true).
    { intros e He. apply (Hpre (score ai b e, e)).
      apply list_elem_of_In.
      apply (in_map (fun m => (score ai b m, m))).
      apply list_elem_of_In. exact He. }
    assert (Hafter : forall e, e ∈ post ->
              flt (score ai b e) (score ai b c) = false).
    { intros e He. apply (Hpost (score ai b e, e)).
      apply list_elem_of_In.
      apply (in_map (fun m => (score ai b m, m))).
      apply list_elem_of_In. exact He. }
    split.
    + intros c' Hc'. apply HL in Hc'. rewrite HLeq in Hc'.
      apply elem_of_app in Hc' as [Hc'|Hc'].
      * apply Hasym, Hbefore. exact Hc'.
      * apply elem_of_cons in Hc' as [->|Hc']; [apply flt_irrefl|].
        apply Hafter. exact Hc'.
    + intros c' Hc' Hrm. apply HL in Hc'. rewrite HLeq in Hc', Hsorted.
      apply elem_of_app in Hc' as [Hc'|Hc']; [apply Hbefore; exact Hc'|].
      exfalso. apply StronglySorted_app in Hsorted as (_ & _ & Hs).
      apply StronglySorted_cons in Hs as [Hall _].
      apply elem_of_cons in Hc' as [->|Hc'].
      * apply (row_major_before_asym c c); assumption.
      * rewrite Forall_forall in Hall.
        apply (row_major_before_asym c c'); [apply Hall; exact Hc'|exact Hrm].
Qed.

End Hint.

(** Integers with their order are an instance of the float interface. *)
Lemma get_hint_spec_witness :
  exists c : cell,
    get_hint 0 1 Z.add Z.mul (fun z => z) Z.ltb (mkAI [] [] 1 1) corner_mine_board
    = Ok (Some c) /\
    safe_cell corner_mine_board c.
Proof.
  destruct (get_hint_spec Z 0 1 Z.add Z.mul (fun z => z) Z.ltb)
    with (ai := mkAI (F := Z) [] [] 1 1) (b := corner_mine_board)
    as (_ & _ & Hsome).
  - apply Z.ltb_irrefl.
  - intros a b c. rewrite !Z.ltb_lt. lia.
  - intros a b c. rewrite !Z.ltb_lt. lia.
  - exact corner_mine_board_wf.
  - destruct Hsome as (c & Hc & Hsafe & _).
    + exists (1, 1). unfold safe_cell, on_grid, in_bounds. simpl.
      repeat split; try lia; try reflexivity. vm_compute. congruence.
    + exists c. auto.
Defined.

(** ** Worked examples *)

(** On the 3x3 grid with its mine at (0, 0), revealing (2, 2) reveals the
    eight cells without a mine, leaves (0, 0) hidden, and wins. *)
Example reveal_far_corner :
  exists (b' : Board) (log : list cell),
    reveal 9 corner_mine_board 2 2 = Ok (true, (b', log)) /\
    length log = 8%nat /\
    is_revealed b' 0 0 = false /\
    is_won corner_mine_board = false /\ is_won b' = true.
Proof.
  eexists. eexists. split; [vm_compute; reflexivity|].
  repeat split; vm_compute; reflexivity.
Qed.

(** Moving that mine from (0, 0) to (2, 2) renumbers the grid. *)
Example reposition_corner_mine :
  exists b' : Board,
    reposition_mine corner_mine_board (0, 0) (2, 2) = Ok b' /\
    board b' = [[0; 0; 0]; [0; 1; 1]; [0; 1; -1]] /\
    elements (mine_positions b') = [(2, 2)].
Proof.
  eexists. split; [vm_compute; reflexivity|].
  split; vm_compute; reflexivity.
Qed.

(** A reveal of a reveal is a no-op; a flag protects a cell. *)
Example reveal_twice_and_flag :
  match reveal 9 corner_mine_board 0 1 with
  | Ok (true, (b1, [(0, 1)])) =>
      reveal 9 b1 0 1 = Ok (true, (b1, [])) /\
      match toggle_flag b1 0 0 with
      | Ok b2 => reveal 9 b2 0 0 = Ok (true, (b2, []))
      | _ => False
      end
  | _ => False
  end.
Proof. vm_compute. split; reflexivity. Qed.

(** With integers as scores, a danger zone at the centre of the empty 3x3
    grid and difficulty 1: the corners score 2, the edges 3, and the hint
    is the first corner in row-major order. *)
Example hint_avoids_zone :
  get_hint 0 1 Z.add Z.mul (fun z => z) Z.ltb (mkAI [] [(1, 1)] 1 1) empty_board
  = Ok (Some (0, 0)) /\
  calculate_move_risk 0 1 Z.add Z.mul (fun z => z) (mkAI [] [(1, 1)] 1 1)
                      empty_board (0, 0) = Ok 2 /\
  calculate_move_risk 0 1 Z.add Z.mul (fun z => z) (mkAI [] [(1, 1)] 1 1)
                      empty_board (0, 1) = Ok 3.
Proof. repeat split; vm_compute; reflexivity. Qed.

(** * Further properties of the board *)

(** ** Arrays are determined by their entries *)

Lemma ndarray_ext {A} (d : A) (a a' : list (list A)) h w :
  Np.shape a h w -> Np.shape a' h w ->
  (forall x y, in_bounds h w x y -> Np.peek d a x y = Np.peek d a' x y) ->
  a = a'.
Proof.
  intros Ha Ha' E. apply list_eq. intros i.
  destruct (decide (i < Z.to_nat h)%nat) as [Hi|Hi].
  - destruct (decide (0 < Z.to_nat w)%nat) as [Hw|Hw].
    + assert (Hb : in_bounds h w (Z.of_nat i) 0) by (unfold in_bounds; lia).
      destruct (peek_lookup d a h w _ _ Ha Hb) as (row & Hr & _).
      destruct (peek_lookup d a' h w _ _ Ha' Hb) as (row' & Hr' & _).
      rewrite Nat2Z.id in Hr, Hr'. rewrite Hr, Hr'. f_equal.
      apply list_eq. intros j.
      destruct (decide (j < Z.to_nat w)%nat) as [Hj|Hj].
      * assert (Hb' : in_bounds h w (Z.of_nat i) (Z.of_nat j))
          by (unfold in_bounds; lia).
        destruct (peek_lookup d a h w _ _ Ha Hb') as (r1 & Hr1 & Hv1).
        destruct (peek_lookup d a' h w _ _ Ha' Hb') as (r2 & Hr2 & Hv2).
        rewrite Nat2Z.id in Hr1, Hr2, Hv1, Hv2.
        rewrite Hr in Hr1. rewrite Hr' in Hr2.
        injection Hr1 as <-. injection Hr2 as <-.
        rewrite Hv1, Hv2. f_equal. apply E, Hb'.
      * destruct Ha as (_ & _ & _ & Fa), Ha' as (_ & _ & _ & Fa').
        rewrite Forall_forall in Fa, Fa'.
        assert (L1 : length row = Z.to_nat w)
          by (apply Fa; eapply list_elem_of_lookup_2; eauto).
        assert (L2 : length row' = Z.to_nat w)
          by (apply Fa'; eapply list_elem_of_lookup_2; eauto).
        rewrite !lookup_ge_None_2 by lia. reflexivity.
    + destruct Ha as (_ & _ & La & Fa), Ha' as (_ & _ & La' & Fa').
      rewrite Forall_forall in Fa, Fa'.
      destruct (lookup_lt_is_Some_2 a i) as [row Hr]; [lia|].
      destruct (lookup_lt_is_Some_2 a' i) as [row' Hr']; [lia|].
      rewrite Hr, Hr'. f_equal.
      assert (L1 : length row = Z.to_nat w)
        by (apply Fa; eapply list_elem_of_lookup_2; eauto).
      assert (L2 : length row' = Z.to_nat w)
        by (apply Fa'; eapply list_elem_of_lookup_2; eauto).
      destruct row, row'; simpl in *; try lia. reflexivity.
  - destruct Ha as (_ & _ & La & _), Ha' as (_ & _ & La' & _).
    rewrite !lookup_ge_None_2 by lia. reflexivity.
Qed.

Lemma poke_same {A} (d : A) (a : list (list A)) h w x y :
  Np.shape a h w -> in_bounds h w x y -> poke a x y (Np.peek d a x y) = a.
Proof.
  intros Ha Hb. apply (ndarray_ext d _ _ h w); [apply NpFacts.shape_poke, Ha|exact Ha|].
  intros x' y' Hb'. rewrite (NpFacts.peek_poke d a h w) by assumption.
  case_bool_decide as E; [|reflexivity]. injection E as -> ->. reflexivity.
Qed.

Lemma poke_poke {A} (d : A) (a : list (list A)) h w x y (v v' : A) :
  Np.shape a h w -> in_bounds h w x y ->
  poke (poke a x y v) x y v' = poke a x y v'.
Proof.
  intros Ha Hb.
  apply (ndarray_ext d _ _ h w); [repeat apply NpFacts.shape_poke; exact Ha
                                 |apply NpFacts.shape_poke, Ha|].
  intros x' y' Hb'.
  rewrite (NpFacts.peek_poke d _ h w) by (try apply NpFacts.shape_poke; assumption).
  rewrite !(NpFacts.peek_poke d a h w) by assumption.
  case_bool_decide; reflexivity.
Qed.

Lemma board_eq (b b' : Board) :
  width b' = width b -> height b' = height b -> mine_count b' = mine_count b ->
  board b' = board b -> revealed b' = revealed b -> flagged b' = flagged b ->
  mine_positions b' = mine_positions b -> b' = b.
Proof. destruct b, b'; simpl; intros; subst; reflexivity. Qed.

(** ** Counting adjacent mines *)

(** X1. [_count_adjacent_mines] never raises, whatever the coordinates
    (also off the grid): it returns the number of cells of the grid that
    are adjacent to [(x, y)] and hold a mine, a number from 0 to 8. *)
Theorem count_adjacent_mines_counts (b : Board) (x y : Z) :
  wf b ->
  exists n, count_adjacent_mines b x y = Ok n /\
            n = Z.of_nat (length (mine_neighbours b x y)) /\
            0 <= n <= 8.
Proof.
  intros Hwf. exists (mines_around b x y).
  split; [apply count_adjacent_mines_spec, Hwf|].
  split; [apply mines_around_count|apply mines_around_range].
Qed.

Lemma count_adjacent_mines_counts_witness :
  exists n, count_adjacent_mines corner_mine_board (-1) (-1) = Ok n /\
            n = Z.of_nat (length (mine_neighbours corner_mine_board (-1) (-1))) /\
            0 <= n <= 8.
Proof. apply (count_adjacent_mines_counts corner_mine_board (-1) (-1)), corner_mine_board_wf. Defined.

(** ** Refreshing all numbers *)

Lemma update_numbers_fixpoint (b : Board) :
  wf b -> numbers_ok b -> update_numbers b = Ok b.
Proof.
  intros Hwf Hn. destruct (update_numbers_spec b Hwf) as (a & -> & Sa & Ha).
  f_equal. apply board_eq; try reflexivity. simpl.
  apply (ndarray_ext 0 _ _ (height b) (width b)); [exact Sa|apply Hwf|].
  intros x y Hb. rewrite Ha by exact Hb.
  destruct (val b x y =? -1) eqn:E; simpl; [reflexivity|].
  symmetry. apply Hn; [exact Hb|]. apply Z.eqb_neq, E.
Qed.

(** X2. [_update_numbers] on a well-shaped board never raises; it leaves
    the mines where they are, makes every other cell hold the number of
    mines around it, and changes nothing else.  Running it again, or on
    a board whose numbers are right already, changes nothing. *)
Theorem update_numbers_idempotent (b : Board) :
  wf b ->
  exists b',
    update_numbers b = Ok b' /\
    numbers_ok b' /\
    (forall x y, on_grid b x y -> val b' x y = -1 <-> val b x y = -1) /\
    same_masks b b' /\ mine_positions b' = mine_positions b /\
    update_numbers b' = Ok b' /\
    (numbers_ok b -> b' = b).
Proof.
  intros Hwf. destruct (update_numbers_spec b Hwf) as (a & E & Sa & Ha).
  destruct (update_numbers_ok b _ Hwf E) as (Hwf' & Hn & _ & Hm).
  exists (set_board b a). split; [exact E|]. split; [exact Hn|].
  split.
  { intros x y Hb. specialize (Hm x y Hb).
    rewrite <- !Z.eqb_eq. rewrite Hm. reflexivity. }
  split; [constructor; reflexivity|]. split; [reflexivity|].
  split; [apply update_numbers_fixpoint; assumption|].
  intros Hn0. pose proof (update_numbers_fixpoint b Hwf Hn0) as E0.
  rewrite E in E0. injection E0 as E0. exact E0.
Qed.

Lemma update_numbers_idempotent_witness :
  exists b',
    update_numbers (set_board corner_mine_board [[-1; 7; 7]; [7; 7; 7]; [7; 7; 7]])
    = Ok b' /\ b' = corner_mine_board /\ update_numbers b' = Ok b'.
Proof.
  destruct (update_numbers_idempotent
              (set_board corner_mine_board [[-1; 7; 7]; [7; 7; 7]; [7; 7; 7]]))
    as (b' & E & _ & _ & _ & _ & E' & _).
  - repeat split; simpl; try lia; repeat constructor.
  - exists b'. split; [exact E|]. split; [|exact E'].
    vm_compute in E. injection E as <-. reflexivity.
Defined.
(** ** Starting over *)

Lemma map_const_replicate {A B} (v : B) (l : list A) :
  map (fun _ => v) l = replicate (length l) v.
Proof. induction l as [|a l IH]; simpl; [reflexivity|]. rewrite IH. reflexivity. Qed.

Lemma fill_replicate {A} (a : list (list A)) h w (v : A) :
  Np.shape a h w ->
  Np.fill a v = replicate (Z.to_nat h) (replicate (Z.to_nat w) v).
Proof.
  intros (_ & _ & L & Fa). unfold Np.fill. rewrite <- L. clear L.
  induction Fa as [|row a Hrow Fa IH]; simpl; [reflexivity|].
  rewrite IH, map_const_replicate, Hrow. reflexivity.
Qed.

Lemma shape_replicate {A} h w (v : A) :
  0 <= h -> 0 <= w ->
  Np.shape (replicate (Z.to_nat h) (replicate (Z.to_nat w) v)) h w.
Proof.
  intros Hh Hw. split; [exact Hh|]. split; [exact Hw|].
  split; [apply length_replicate|].
  apply Forall_replicate, length_replicate.
Qed.

(** X3. [initialize_board] forgets the game played so far: on any
    well-shaped board, whatever its cells, masks and mine set, it does
    what [Board(width, height, mine_count)] does with the same draws,
    the same board or the same [ValueError]. *)
Theorem initialize_board_forgets (b : Board) (rnd : nat -> nat) :
  wf b ->
  initialize_board b rnd = new_board (width b) (height b) (mine_count b) rnd.
Proof.
  intros (Hb & Hr & Hf).
  assert (Hh : 0 <= height b) by apply Hb.
  assert (Hw : 0 <= width b) by apply Hb.
  unfold new_board, Np.full.
  replace (height b <? 0) with false by (symmetry; apply Z.ltb_ge; lia).
  replace (width b <? 0) with false by (symmetry; apply Z.ltb_ge; lia).
  cbn [orb bind]. unfold initialize_board.
  cbn [set_mine_positions set_flagged set_revealed set_board
       height width mine_count board revealed flagged mine_positions].
  rewrite (fill_replicate (board b) _ _ 0 Hb).
  rewrite (fill_replicate (revealed b) _ _ false Hr).
  rewrite (fill_replicate (flagged b) _ _ false Hf).
  rewrite !(fill_replicate _ (height b) (width b)) by (apply shape_replicate; lia).
  reflexivity.
Qed.

Lemma initialize_board_forgets_witness :
  initialize_board (marked corner_mine_board 2 2) (fun _ => 5%nat)
  = new_board 3 3 1 (fun _ => 5%nat).
Proof.
  apply (initialize_board_forgets (marked corner_mine_board 2 2)).
  repeat split; simpl; try lia; repeat constructor.
Defined.

(** ** Flags *)

Lemma toggle_flag_hidden (b : Board) (x y : Z) :
  wf b -> on_grid b x y -> is_revealed b x y = false ->
  let b1 := set_flagged b (poke (flagged b) x y (negb (is_flagged b x y))) in
  toggle_flag b x y = Ok b1 /\ wf b1 /\
  forall x' y', on_grid b x' y' ->
    is_flagged b1 x' y'
    = if bool_decide ((x', y') = (x, y)) then negb (is_flagged b x y)
      else is_flagged b x' y'.
Proof.
  intros Hwf Hg Er b1. rewrite (toggle_flag_spec b x y Hwf Hg), Er.
  split; [reflexivity|]. pose proof Hwf as (Hb & Hr & Hf). split.
  - split; [exact Hb|]. split; [exact Hr|]. apply NpFacts.shape_poke, Hf.
  - intros x' y' Hg'. unfold is_flagged, b1. simpl.
    apply (NpFacts.peek_poke false _ (height b) (width b)); assumption.
Qed.

(** X4. [toggle_flag] on a cell of the grid never raises.  On a revealed
    cell it does nothing.  On a hidden cell it inverts the flag of that
    cell and nothing else, so that toggling twice gives back the board
    one started from. *)
Theorem toggle_flag_twice (b : Board) (x y : Z) :
  wf b -> on_grid b x y ->
  exists b1,
    toggle_flag b x y = Ok b1 /\
    toggle_flag b1 x y = Ok b /\
    (is_revealed b x y = true -> b1 = b) /\
    (is_revealed b x y = false ->
     is_flagged b1 x y = negb (is_flagged b x y) /\
     forall x' y', on_grid b x' y' -> (x', y') <> (x, y) ->
       is_flagged b1 x' y' = is_flagged b x' y') /\
    width b1 = width b /\ height b1 = height b /\ mine_count b1 = mine_count b /\
    board b1 = board b /\ revealed b1 = revealed b /\
    mine_positions b1 = mine_positions b.
Proof.
  intros Hwf Hg. rewrite (toggle_flag_spec b x y Hwf Hg).
  destruct (is_revealed b x y) eqn:Er.
  - exists b. split; [reflexivity|].
    rewrite (toggle_flag_spec b x y Hwf Hg), Er.
    split; [reflexivity|]. split; [reflexivity|].
    split; [discriminate|]. repeat split; reflexivity.
  - destruct (toggle_flag_hidden b x y Hwf Hg Er) as (_ & Hwf1 & Hfl).
    set (b1 := set_flagged b (poke (flagged b) x y (negb (is_flagged b x y)))) in *.
    pose proof Hwf as (Hb & Hr & Hf).
    exists b1. split; [reflexivity|]. split.
    + rewrite (toggle_flag_spec b1 x y Hwf1 Hg).
      change (is_revealed b1 x y) with (is_revealed b x y). rewrite Er.
      f_equal. apply board_eq; try reflexivity. simpl.
      rewrite (Hfl x y Hg), bool_decide_true by reflexivity.
      rewrite negb_involutive.
      rewrite (poke_poke false _ (height b) (width b)) by assumption.
      apply (poke_same false _ (height b) (width b)); assumption.
    + split; [discriminate|]. split; [|repeat split; reflexivity].
      intros _. split.
      * rewrite (Hfl x y Hg), bool_decide_true by reflexivity. reflexivity.
      * intros x' y' Hg' Hne. rewrite (Hfl x' y' Hg'), bool_decide_false by exact Hne.
        reflexivity.
Qed.

Lemma toggle_flag_twice_witness :
  exists b1,
    toggle_flag corner_mine_board 0 0 = Ok b1 /\
    toggle_flag b1 0 0 = Ok corner_mine_board /\
    is_flagged b1 0 0 = true.
Proof.
  destruct (toggle_flag_twice corner_mine_board 0 0)
    as (b1 & E1 & E2 & _ & Hf & _).
  - apply corner_mine_board_wf.
  - unfold on_grid, in_bounds. simpl. lia.
  - exists b1. split; [exact E1|]. split; [exact E2|].
    destruct (Hf eq_refl) as [-> _]. reflexivity.
Defined.

(** ** Masks *)

Lemma same_masks_refl (b : Board) : same_masks b b.
Proof. constructor; reflexivity. Qed.

Lemma same_masks_trans (b1 b2 b3 : Board) :
  same_masks b1 b2 -> same_masks b2 b3 -> same_masks b1 b3.
Proof. intros [] []. constructor; congruence. Qed.

Lemma same_masks_on_grid (b b' : Board) x y :
  same_masks b b' -> on_grid b' x y <-> on_grid b x y.
Proof. intros [Hw Hh _ _ _]. unfold on_grid. rewrite Hw, Hh. reflexivity. Qed.

Lemma same_masks_revealed (b b' : Board) x y :
  same_masks b b' -> is_revealed b' x y = is_revealed b x y.
Proof. intros [_ _ _ Hr _]. unfold is_revealed. rewrite Hr. reflexivity. Qed.

Lemma same_masks_flagged (b b' : Board) x y :
  same_masks b b' -> is_flagged b' x y = is_flagged b x y.
Proof. intros [_ _ _ _ Hf]. unfold is_flagged. rewrite Hf. reflexivity. Qed.

Lemma exclusive_same_masks (b b' : Board) :
  same_masks b b' -> exclusive b -> exclusive b'.
Proof.
  intros Hs He x y Hg. rewrite (same_masks_revealed b b'), (same_masks_flagged b b')
    by exact Hs.
  apply He. apply (same_masks_on_grid b b'); assumption.
Qed.

Lemma reposition_mine_same_masks (b b' : Board) (from_pos to_pos : cell) :
  wf b -> mines_mirror b ->
  on_grid b from_pos.1 from_pos.2 -> on_grid b to_pos.1 to_pos.2 ->
  reposition_mine b from_pos to_pos = Ok b' -> same_masks b b'.
Proof.
  destruct from_pos as [x1 y1], to_pos as [x2 y2]. cbn [fst snd].
  intros Hwf Hmir H1 H2 E.
  destruct (decide (val b x1 y1 = -1 /\ val b x2 y2 <> -1)) as [[Ha Hb]|Hn].
  - destruct (reposition_mine_moves b x1 y1 x2 y2 Hwf H1 H2 Ha Hb)
      as (a & E' & _).
    { apply Hmir. simpl. auto. }
    cbv zeta in E'. rewrite E in E'. injection E' as ->. constructor; reflexivity.
  - rewrite reposition_mine_noop in E; try assumption.
    + injection E as <-. apply same_masks_refl.
    + destruct (decide (val b x1 y1 = -1)); [right|left; assumption].
      destruct (decide (val b x2 y2 = -1)); [assumption|]. exfalso. auto.
Qed.

(** ** Revealed cells carry no flag *)

Lemma cleared_open (b : Board) (p c : cell) :
  open b p -> cleared b p c -> open b c.
Proof. intros Hp H. induction H; assumption. Qed.

Lemma reveal_frame (fuel : nat) (b : Board) (x y : Z) :
  wf b -> on_grid b x y -> (hidden b <= fuel)%nat ->
  exists (r : bool) (b' : Board) (log : list cell),
    reveal fuel b x y = Ok (r, (b', log)) /\ grows b b' /\
    (forall c : cell, on_grid b c.1 c.2 -> is_revealed b' c.1 c.2 = true ->
       is_revealed b c.1 c.2 = true \/ is_flagged b c.1 c.2 = false).
Proof.
  intros Hwf Hg Hh.
  destruct (decide (open b (x, y))) as [Hop|Hnop].
  - destruct (reveal_open fuel b x y Hwf Hop Hh) as (b' & log & Hrun & G & _ & Hlog & Hrev).
    exists (negb (val b x y =? -1)), b', log. split; [exact Hrun|]. split; [exact G|].
    intros c Hc Hr. apply Hrev in Hr; [|exact Hc]. destruct Hr as [Hr|Hin]; [auto|].
    right. apply Hlog in Hin. apply (cleared_open b (x, y) c Hop Hin).
  - assert (Hnoop : is_flagged b x y = true \/ is_revealed b x y = true).
    { destruct (is_flagged b x y) eqn:Ef; [auto|].
      destruct (is_revealed b x y) eqn:Er; [auto|].
      exfalso. apply Hnop. split; [exact Hg|auto]. }
    exists true, b, []. split; [apply reveal_noop; assumption|].
    split; [apply grows_refl, Hwf|]. auto.
Qed.

(** X5. [reveal] on a cell of the grid changes the [revealed] mask only,
    and only from hidden to revealed: cells, flags, mine set and
    dimensions stay as they are, no revealed cell is hidden again, and a
    flagged cell is never revealed, neither by the click nor by the flood
    fill. *)
Theorem reveal_only_reveals (fuel : nat) (b : Board) (x y : Z) :
  wf b -> on_grid b x y -> (hidden b <= fuel)%nat ->
  exists (r : bool) (b' : Board) (log : list cell),
    reveal fuel b x y = Ok (r, (b', log)) /\
    width b' = width b /\ height b' = height b /\ mine_count b' = mine_count b /\
    board b' = board b /\ flagged b' = flagged b /\
    mine_positions b' = mine_positions b /\
    (forall c : cell, on_grid b c.1 c.2 -> is_revealed b c.1 c.2 = true ->
       is_revealed b' c.1 c.2 = true) /\
    (forall c : cell, on_grid b c.1 c.2 -> is_flagged b c.1 c.2 = true ->
       is_revealed b' c.1 c.2 = is_revealed b c.1 c.2).
Proof.
  intros Hwf Hg Hh.
  destruct (reveal_frame fuel b x y Hwf Hg Hh) as (r & b' & log & Hrun & G & Hfl).
  exists r, b', log. split; [exact Hrun|].
  destruct G as [Gw Gh Gc Gb Gf Gm _ Gmono].
  repeat (split; [assumption|]).
  split; [intros c; apply Gmono|].
  intros c Hc Hf. destruct (is_revealed b' c.1 c.2) eqn:E'.
  - destruct (Hfl c Hc E') as [Hr|Hr]; [congruence|congruence].
  - destruct (is_revealed b c.1 c.2) eqn:E; [|reflexivity].
    rewrite (Gmono _ _ Hc E) in E'. discriminate.
Qed.

Lemma reveal_only_reveals_witness :
  exists (r : bool) (b' : Board) (log : list cell),
    reveal 9 (set_flagged corner_mine_board
                [[false; false; false]; [false; false; false]; [false; true; false]])
           2 2 = Ok (r, (b', log)) /\
    is_revealed b' 2 1 = false.
Proof.
  set (b := set_flagged corner_mine_board
              [[false; false; false]; [false; false; false]; [false; true; false]]).
  destruct (reveal_only_reveals 9 b 2 2)
    as (r & b' & log & Hrun & _ & _ & _ & _ & _ & _ & _ & Hfl).
  - repeat split; simpl; try lia; repeat constructor.
  - unfold on_grid, in_bounds. simpl. lia.
  - vm_compute. lia.
  - exists r, b', log. split; [exact Hrun|].
    refine (eq_trans (Hfl (2, 1) _ _) _); [|reflexivity|reflexivity].
    unfold on_grid, in_bounds. simpl. lia.
Defined.

Lemma reveal_exclusive (fuel : nat) (b : Board) (x y : Z) r :
  wf b -> exclusive b -> on_grid b x y -> (hidden b <= fuel)%nat ->
  reveal fuel b x y = Ok r -> exclusive r.2.1.
Proof.
  intros Hwf He Hg Hh Hrun.
  destruct (reveal_frame fuel b x y Hwf Hg Hh) as (r0 & b' & log & Hrun' & G & Hfl).
  rewrite Hrun in Hrun'. injection Hrun' as ->. simpl.
  intros u v Hg' Hr. apply (grows_on_grid b b') in Hg'; [|exact G].
  rewrite (grows_flagged b b') by exact G.
  destruct (Hfl (u, v) Hg' Hr) as [H|H]; [apply He; assumption|exact H].
Qed.

Lemma toggle_flag_exclusive (b b' : Board) (x y : Z) :
  wf b -> exclusive b -> on_grid b x y ->
  toggle_flag b x y = Ok b' -> exclusive b'.
Proof.
  intros Hwf He Hg Hrun.
  destruct (is_revealed b x y) eqn:Er.
  - rewrite (toggle_flag_spec b x y Hwf Hg), Er in Hrun. injection Hrun as <-.
    exact He.
  - destruct (toggle_flag_hidden b x y Hwf Hg Er) as (E1 & _ & Hfl).
    rewrite Hrun in E1. injection E1 as ->.
    intros u v Hg' Hrv. change (on_grid b u v) in Hg'.
    change (is_revealed b u v = true) in Hrv.
    rewrite (Hfl u v Hg'). case_bool_decide as E.
    + injection E as -> ->. congruence.
    + apply He; assumption.
Qed.
Lemma new_board_fresh (w h mc : Z) (rnd : nat -> nat) (b : Board) :
  new_board w h mc rnd = Ok b ->
  consistent b /\ width b = w /\ height b = h /\ mine_count b = mc /\
  0 <= w /\ 0 <= h /\ 0 <= mc <= w * h /\
  forall x y, on_grid b x y -> is_revealed b x y = false /\ is_flagged b x y = false.
Proof.
  intros Hrun.
  destruct (decide (w < 0 \/ h < 0)) as [Hd|Hd].
  { rewrite new_board_bad_dims in Hrun by exact Hd. discriminate. }
  destruct (decide (mc < 0 \/ w * h < mc)) as [Hm|Hm].
  { rewrite new_board_err in Hrun by lia. discriminate. }
  destruct (new_board_ok w h mc rnd) as (b' & Hrun' & Hc & Hw & Hh & Hmc & Hfresh);
    try lia.
  rewrite Hrun in Hrun'. injection Hrun' as <-.
  repeat (split; [assumption || lia|]). exact Hfresh.
Qed.

Lemma run_exclusive (fuel : nat) (ops : list op) :
  forall b : Board,
    consistent b -> exclusive b -> height b * width b <= Z.of_nat fuel ->
    Forall (op_in_bounds (height b) (width b)) ops ->
    exists b', run fuel ops b = Ok b' /\ consistent b' /\ exclusive b' /\
               width b' = width b /\ height b' = height b.
Proof.
  unfold run. induction ops as [|o ops IH]; intros b Hc He Hfuel Hops.
  - exists b. simpl. auto.
  - apply Forall_cons in Hops as [Ho Hops].
    pose proof Hc as [Hwf _ Hmir _].
    assert (Hstep : exists b1, apply_op fuel o b = Ok b1 /\ consistent b1 /\
                               exclusive b1 /\
                               width b1 = width b /\ height b1 = height b).
    { destruct o as [x y|x y|from_pos to_pos]; simpl in Ho |- *.
      - destruct (reveal_consistent fuel b x y Hc Ho Hfuel) as (r & Hrun & H1 & H2).
        exists r.2.1. rewrite Hrun. split; [reflexivity|]. split; [exact H1|].
        split; [|exact H2].
        apply (reveal_exclusive fuel b x y r); try assumption.
        pose proof (hidden_bound b Hwf); lia.
      - destruct (toggle_flag_consistent b x y Hc Ho) as (b1 & Hrun & H1 & H2).
        exists b1. split; [exact Hrun|]. split; [exact H1|]. split; [|exact H2].
        apply (toggle_flag_exclusive b b1 x y); assumption.
      - destruct Ho as [Hf Ht].
        destruct (reposition_mine_consistent b from_pos to_pos Hc Hf Ht)
          as (b1 & Hrun & H1 & H2).
        exists b1. split; [exact Hrun|]. split; [exact H1|]. split; [|exact H2].
        apply (exclusive_same_masks b); [|exact He].
        apply (reposition_mine_same_masks b b1 from_pos to_pos); assumption. }
    destruct Hstep as (b1 & Hrun1 & Hc1 & He1 & Hw1 & Hh1).
    destruct (IH b1 Hc1 He1) as (b' & Hrun & Hc' & He' & Hw' & Hh').
    + rewrite Hw1, Hh1. exact Hfuel.
    + rewrite Hw1, Hh1. exact Hops.
    + exists b'. simpl. rewrite Hrun1, bind_Ok. split; [exact Hrun|].
      split; [exact Hc'|]. split; [exact He'|]. split; congruence.
Qed.

(** X6. No cell is ever both revealed and flagged: this holds for a newly
    constructed board and after every sequence of [reveal], [toggle_flag]
    and [reposition_mine] on cells of the grid. *)
Theorem revealed_never_flagged (w h mc : Z) (rnd : nat -> nat) (b0 : Board) :
  new_board w h mc rnd = Ok b0 ->
  exclusive b0 /\
  forall (fuel : nat) (ops : list op),
    h * w <= Z.of_nat fuel -> Forall (op_in_bounds h w) ops ->
    exists b', run fuel ops b0 = Ok b' /\ exclusive b'.
Proof.
  intros Hnew.
  destruct (new_board_fresh w h mc rnd b0 Hnew)
    as (Hc & Hw & Hh & _ & _ & _ & _ & Hfresh).
  assert (He : exclusive b0).
  { intros x y Hg Hr. destruct (Hfresh x y Hg) as [Hr' _]. congruence. }
  split; [exact He|]. intros fuel ops Hfuel Hops.
  destruct (run_exclusive fuel ops b0 Hc He) as (b' & Hrun & _ & He' & _).
  - rewrite Hw, Hh. exact Hfuel.
  - rewrite Hw, Hh. exact Hops.
  - exists b'. auto.
Qed.

Lemma revealed_never_flagged_witness :
  exclusive corner_mine_board /\
  exists b',
    run 9 [ToggleFlag 1 1; Reveal 2 2; ToggleFlag 2 2; ToggleFlag 1 1; Reveal 1 1]
        corner_mine_board = Ok b' /\ exclusive b'.
Proof.
  assert (Hnew : new_board 3 3 1 (fun _ => 0%nat) = Ok corner_mine_board)
    by (vm_compute; reflexivity).
  destruct (revealed_never_flagged 3 3 1 (fun _ => 0%nat) corner_mine_board Hnew)
    as [He Hrun].
  split; [exact He|]. apply Hrun; [lia|].
  repeat constructor; simpl; lia.
Defined.

(** ** Winning, once more *)

Lemma is_won_iff (b : Board) :
  wf b ->
  is_won b = true <->
  forall x y, on_grid b x y -> val b x y <> -1 -> is_revealed b x y = true.
Proof.
  intros (Ha & Hr & _).
  destruct (shape_or_eq (revealed b) (board b) _ _ (-1) Hr Ha) as [Hs Hpeek].
  unfold is_won. rewrite (all_true_spec _ _ _ Hs). split.
  - intros H x y Hg Hne. specialize (H x y Hg). rewrite (Hpeek x y Hg) in H.
    apply orb_true_iff in H as [H|H]; [exact H|].
    apply Z.eqb_eq in H. contradiction.
  - intros H x y Hg. rewrite (Hpeek x y Hg). apply orb_true_iff.
    destruct (decide (Np.peek 0 (board b) x y = -1)) as [E|E].
    + right. apply Z.eqb_eq. exact E.
    + left. apply H; assumption.
Qed.

(** X7. A game that is won stays won under [reveal] and [toggle_flag]:
    whatever cell of the grid they are called on, [is_won] is true
    afterwards as well. *)
Theorem is_won_stable (fuel : nat) (b : Board) (x y : Z) :
  wf b -> on_grid b x y -> (hidden b <= fuel)%nat -> is_won b = true ->
  (exists (r : bool) (b' : Board) (log : list cell),
     reveal fuel b x y = Ok (r, (b', log)) /\ is_won b' = true) /\
  (exists b', toggle_flag b x y = Ok b' /\ is_won b' = true).
Proof.
  intros Hwf Hg Hh Hwon. split.
  - destruct (reveal_frame fuel b x y Hwf Hg Hh) as (r & b' & log & Hrun & G & _).
    exists r, b', log. split; [exact Hrun|].
    apply is_won_iff; [apply (grows_wf b); assumption|].
    intros u v Hg' Hne. apply (grows_on_grid b b') in Hg'; [|exact G].
    rewrite (grows_val b b') in Hne by exact G.
    apply G; [exact Hg'|]. apply (proj1 (is_won_iff b Hwf) Hwon); assumption.
  - rewrite (toggle_flag_spec b x y Hwf Hg).
    destruct (is_revealed b x y); eexists; (split; [reflexivity|]); exact Hwon.
Qed.

Lemma is_won_stable_witness :
  exists (b0 b' : Board) (log : list cell),
    reveal 9 corner_mine_board 2 2 = Ok (true, (b0, log)) /\
    is_won b0 = true /\
    reveal 9 b0 0 0 = Ok (false, (b', [(0, 0)])) /\ is_won b' = true.
Proof.
  destruct (reveal 9 corner_mine_board 2 2) as [[r [b0 log]]| |] eqn:E0;
    try (vm_compute in E0; discriminate).
  assert (Hr : r = true) by (vm_compute in E0; congruence). subst r.
  assert (Hwf0 : wf b0).
  { vm_compute in E0. injection E0 as <- _.
    repeat split; simpl; try lia; repeat constructor. }
  assert (Hwon0 : is_won b0 = true).
  { vm_compute in E0. injection E0 as <- _. reflexivity. }
  destruct (is_won_stable 9 b0 0 0 Hwf0) as [(r & b' & log' & Hrun & Hwon) _].
  - vm_compute in E0. injection E0 as <- _. unfold on_grid, in_bounds. simpl. lia.
  - vm_compute in E0. injection E0 as <- _. vm_compute. lia.
  - exact Hwon0.
  - exists b0, b', log. split; [reflexivity|]. split; [exact Hwon0|].
    split; [|exact Hwon]. rewrite Hrun.
    vm_compute in E0. injection E0 as <- _.
    vm_compute in Hrun. injection Hrun as <- <- <-. reflexivity.
Defined.

(** ** Safe moves *)

Lemma NoDup_List_filter {A} (f : A -> bool) (l : list A) :
  NoDup l -> NoDup (List.filter f l).
Proof.
  induction 1 as [|a l Hin Hnd IH]; simpl; [constructor|].
  destruct (f a); [|exact IH]. constructor; [|exact IH].
  intros H. apply Hin. apply list_elem_of_In in H. apply filter_In in H as [H _].
  apply list_elem_of_In, H.
Qed.

Lemma elem_of_safe_moves (b : Board) (c : cell) :
  c ∈ List.filter (fun c : cell => negb (is_revealed b c.1 c.2)
                                   && negb (is_flagged b c.1 c.2)
                                   && negb (val b c.1 c.2 =? -1))
                  (all_positions (height b) (width b))
  <-> safe_cell b c.
Proof.
  unfold safe_cell. rewrite list_elem_of_In, filter_In, <- list_elem_of_In.
  rewrite elem_of_all_positions, !andb_true_iff, !negb_true_iff, Z.eqb_neq.
  tauto.
Qed.

(** X8. [get_safe_moves] on a well-shaped board never raises.  Its list
    holds exactly the cells of the grid that are hidden, not flagged and
    not a mine, each once, in row-major order; it is empty when the game
    is won. *)
Theorem get_safe_moves_complete (b : Board) :
  wf b ->
  exists l : list cell,
    get_safe_moves b = Ok l /\
    (forall c : cell, c ∈ l <-> safe_cell b c) /\
    NoDup l /\ StronglySorted row_major_before l /\
    (is_won b = true -> l = []).
Proof.
  intros Hwf. rewrite (get_safe_moves_spec b Hwf).
  eexists. split; [reflexivity|].
  split; [intros c; apply elem_of_safe_moves|].
  split; [apply NoDup_List_filter, NoDup_all_positions|].
  split; [apply StronglySorted_filter, all_positions_sorted|].
  intros Hwon.
  match goal with |- ?l = [] => destruct l as [|c l'] eqn:El end; [reflexivity|].
  exfalso.
  assert (Hin : c ∈ c :: l') by apply list_elem_of_here.
  rewrite <- El in Hin. apply elem_of_safe_moves in Hin as (Hg & Hr & _ & Hv).
  rewrite (proj1 (is_won_iff b Hwf) Hwon c.1 c.2 Hg Hv) in Hr. discriminate.
Qed.

Lemma get_safe_moves_complete_witness :
  exists l : list cell,
    get_safe_moves corner_mine_board = Ok l /\
    (forall c : cell, c ∈ l <-> safe_cell corner_mine_board c) /\
    NoDup l /\ length l = 8%nat.
Proof.
  destruct (get_safe_moves_complete corner_mine_board corner_mine_board_wf)
    as (l & E & Hl & Hnd & _).
  exists l. split; [exact E|]. split; [exact Hl|]. split; [exact Hnd|].
  vm_compute in E. injection E as <-. reflexivity.
Defined.
(** ** Moving a mine there and back *)

Lemma numbers_determined (b b' : Board) :
  wf b -> wf b' -> numbers_ok b -> numbers_ok b' ->
  height b' = height b -> width b' = width b ->
  (forall x y, on_grid b x y -> (val b' x y =? -1) = (val b x y =? -1)) ->
  board b' = board b.
Proof.
  intros Hwf Hwf' Hn Hn' Hh Hw Hm.
  apply (ndarray_ext 0 _ _ (height b) (width b)); [|apply Hwf|].
  { rewrite <- Hh, <- Hw. apply Hwf'. }
  intros x y Hg. change (val b' x y = val b x y).
  pose proof (Hm x y Hg) as E.
  destruct (val b x y =? -1) eqn:E0.
  - apply Z.eqb_eq in E, E0. congruence.
  - apply Z.eqb_neq in E, E0.
    rewrite (Hn x y Hg E0), (Hn' x y); [| |exact E].
    + apply mines_around_ext; assumption.
    + unfold on_grid. rewrite Hh, Hw. exact Hg.
Qed.

(** X9. On a consistent board, moving a mine to a cell without one and
    then back again restores the board exactly: cells, numbers, masks
    and mine set. *)
Theorem reposition_mine_round_trip (b : Board) (from_pos to_pos : cell) :
  consistent b ->
  on_grid b from_pos.1 from_pos.2 -> on_grid b to_pos.1 to_pos.2 ->
  val b from_pos.1 from_pos.2 = -1 -> val b to_pos.1 to_pos.2 <> -1 ->
  exists b1,
    reposition_mine b from_pos to_pos = Ok b1 /\
    val b1 from_pos.1 from_pos.2 <> -1 /\ val b1 to_pos.1 to_pos.2 = -1 /\
    reposition_mine b1 to_pos from_pos = Ok b.
Proof.
  destruct from_pos as [x1 y1], to_pos as [x2 y2]. cbn [fst snd].
  intros Hc H1 H2 Hv1 Hv2. pose proof Hc as [Hwf Hnum Hmir Hcnt].
  assert (Hin : (x1, y1) ∈ mine_positions b) by (apply Hmir; simpl; auto).
  assert (Hnin : (x2, y2) ∉ mine_positions b).
  { intros H. apply Hmir in H as [_ H]. simpl in H. contradiction. }
  assert (Hne : (x2, y2) <> (x1, y1)).
  { intros E. injection E as -> ->. contradiction. }
  destruct (reposition_mine_moves b x1 y1 x2 y2 Hwf H1 H2 Hv1 Hv2 Hin)
    as (a & E1 & Sa & Hm1 & _).
  cbv zeta in E1, Hm1.
  set (b1 := set_mine_positions (set_board b a)
               (mine_positions b ∖ {[(x1, y1)]} ∪ {[(x2, y2)]})) in *.
  assert (Hm1' : forall x y, on_grid b x y ->
            (val b1 x y =? -1)
            = bool_decide ((x, y) = (x2, y2))
              || (negb (bool_decide ((x, y) = (x1, y1))) && (val b x y =? -1)))
    by (intros x y Hg; exact (Hm1 (x, y) Hg)).
  destruct (reposition_mine_consistent b (x1, y1) (x2, y2) Hc H1 H2)
    as (b1' & E1' & Hc1 & _).
  rewrite E1 in E1'. injection E1' as <-.
  assert (Hb1t : val b1 x2 y2 = -1).
  { apply Z.eqb_eq. rewrite (Hm1' x2 y2 H2).
    rewrite bool_decide_true by reflexivity. reflexivity. }
  assert (Hb1f : val b1 x1 y1 <> -1).
  { apply Z.eqb_neq. rewrite (Hm1' x1 y1 H1).
    rewrite bool_decide_false by congruence.
    rewrite bool_decide_true by reflexivity. reflexivity. }
  exists b1. split; [exact E1|]. split; [exact Hb1f|]. split; [exact Hb1t|].
  pose proof Hc1 as [Hwf1 Hnum1 Hmir1 _].
  assert (Hin1 : (x2, y2) ∈ mine_positions b1).
  { unfold b1. simpl. apply elem_of_union_r, elem_of_singleton. reflexivity. }
  destruct (reposition_mine_moves b1 x2 y2 x1 y1 Hwf1 H2 H1 Hb1t Hb1f Hin1)
    as (a2 & E2 & Sa2 & Hm2 & _).
  cbv zeta in E2, Hm2.
  set (b2 := set_mine_positions (set_board b1 a2)
               (mine_positions b1 ∖ {[(x2, y2)]} ∪ {[(x1, y1)]})) in *.
  assert (Hm2' : forall x y, on_grid b x y ->
            (val b2 x y =? -1)
            = bool_decide ((x, y) = (x1, y1))
              || (negb (bool_decide ((x, y) = (x2, y2))) && (val b1 x y =? -1)))
    by (intros x y Hg; exact (Hm2 (x, y) Hg)).
  destruct (reposition_mine_consistent b1 (x2, y2) (x1, y1) Hc1 H2 H1)
    as (b2' & E2' & Hc2 & _).
  rewrite E2 in E2'. injection E2' as <-.
  rewrite E2. f_equal. apply board_eq; try reflexivity.
  - apply numbers_determined; try reflexivity; try assumption;
      [apply Hc2|apply Hc2|].
    intros x y Hg. rewrite (Hm2' x y Hg), (Hm1' x y Hg).
    destruct (decide ((x, y) = (x1, y1))) as [E|E].
    + rewrite (bool_decide_true _ E). injection E as -> ->.
      symmetry. apply Z.eqb_eq. exact Hv1.
    + rewrite (bool_decide_false _ E). cbn [orb negb andb].
      destruct (decide ((x, y) = (x2, y2))) as [E'|E'].
      * rewrite (bool_decide_true _ E'). injection E' as -> ->.
        symmetry. apply Z.eqb_neq. exact Hv2.
      * rewrite (bool_decide_false _ E'). reflexivity.
  - unfold b2, b1. simpl. apply set_eq. intros p.
    rewrite elem_of_union, elem_of_difference, elem_of_union, elem_of_difference,
      !elem_of_singleton.
    destruct (decide (p = (x1, y1))) as [Ep1|Np1];
      destruct (decide (p = (x2, y2))) as [Ep2|Np2];
      try (exfalso; congruence); try subst p; intuition congruence.
Qed.

Lemma reposition_mine_round_trip_witness :
  exists b1,
    reposition_mine corner_mine_board (0, 0) (1, 2) = Ok b1 /\
    val b1 0 0 <> -1 /\ val b1 1 2 = -1 /\
    reposition_mine b1 (1, 2) (0, 0) = Ok corner_mine_board.
Proof.
  apply (reposition_mine_round_trip corner_mine_board (0, 0) (1, 2)).
  - split; [apply corner_mine_board_wf|apply corner_mine_board_numbers
            |apply corner_mine_board_mirror|reflexivity].
  - unfold on_grid, in_bounds. simpl. lia.
  - unfold on_grid, in_bounds. simpl. lia.
  - reflexivity.
  - vm_compute. discriminate.
Defined.

(** ** Coordinates off the grid *)

Lemma norm_index_out (n : nat) (i : Z) :
  ~ (- Z.of_nat n <= i < Z.of_nat n) -> Np.norm_index n i = Raise IndexError.
Proof.
  intros H. unfold Np.norm_index.
  destruct (Z.leb_spec 0 i), (Z.ltb_spec i (Z.of_nat n)),
    (Z.leb_spec (- Z.of_nat n) i), (Z.ltb_spec i 0); simpl; try reflexivity; lia.
Qed.

Lemma norm_index_wrap (n : nat) (i : Z) :
  0 <= i < Z.of_nat n -> Np.norm_index n (i - Z.of_nat n) = Np.norm_index n i.
Proof.
  intros H. unfold Np.norm_index.
  destruct (Z.leb_spec 0 i), (Z.ltb_spec i (Z.of_nat n)),
    (Z.leb_spec 0 (i - Z.of_nat n)), (Z.ltb_spec (i - Z.of_nat n) (Z.of_nat n)),
    (Z.leb_spec (- Z.of_nat n) (i - Z.of_nat n)), (Z.ltb_spec (i - Z.of_nat n) 0);
    simpl; try lia.
  f_equal. lia.
Qed.

Lemma norm_index_ok (n : nat) (i : Z) k :
  Np.norm_index n i = Ok k -> (k < n)%nat /\ - Z.of_nat n <= i < Z.of_nat n.
Proof.
  unfold Np.norm_index.
  destruct (Z.leb_spec 0 i), (Z.ltb_spec i (Z.of_nat n)),
    (Z.leb_spec (- Z.of_nat n) i), (Z.ltb_spec i 0); simpl;
    intros E; try discriminate; injection E as <-; lia.
Qed.

Lemma getitem_out {A} (a : list (list A)) h w x y :
  Np.shape a h w -> ~ (- h <= x < h /\ - w <= y < w) ->
  Np.getitem a x y = Raise IndexError.
Proof.
  intros (Hh & Hw & La & Fa) Hout. unfold Np.getitem.
  destruct (Np.norm_index (length a) x) as [i| |] eqn:Ei.
  - apply norm_index_ok in Ei as [Hi Hx]. cbn [bind].
    destruct (lookup_lt_is_Some_2 a i Hi) as [row Hr]. rewrite Hr.
    rewrite Forall_forall in Fa.
    assert (Lr : length row = Z.to_nat w)
      by (apply Fa; eapply list_elem_of_lookup_2; eauto).
    rewrite norm_index_out; [reflexivity|]. lia.
  - unfold Np.norm_index in Ei.
    destruct (_ && _) in Ei; [discriminate|].
    destruct (_ && _) in Ei; [discriminate|]. injection Ei as <-. reflexivity.
  - unfold Np.norm_index in Ei.
    destruct (_ && _) in Ei; [discriminate|].
    destruct (_ && _) in Ei; discriminate.
Qed.

Lemma getitem_wrap {A} (a : list (list A)) h w x y :
  Np.shape a h w -> in_bounds h w x y ->
  Np.getitem a (x - h) (y - w) = Np.getitem a x y.
Proof.
  intros Ha [Hx Hy]. pose proof Ha as (Hh & Hw & La & Fa). unfold Np.getitem.
  replace h with (Z.of_nat (length a)) at 1 by lia.
  rewrite norm_index_wrap by lia.
  rewrite (NpFacts.norm_index_in (length a) x) by lia. cbn [bind].
  destruct (NpFacts.shape_row a h w x Ha Hx) as (row & Hr & Lr). rewrite Hr.
  replace w with (Z.of_nat (length row)) at 1 by lia.
  rewrite norm_index_wrap by lia. reflexivity.
Qed.

Lemma setitem_wrap {A} (a : list (list A)) h w x y (v : A) :
  Np.shape a h w -> in_bounds h w x y ->
  Np.setitem a (x - h) (y - w) v = Np.setitem a x y v.
Proof.
  intros Ha [Hx Hy]. pose proof Ha as (Hh & Hw & La & Fa). unfold Np.setitem.
  replace h with (Z.of_nat (length a)) at 1 by lia.
  rewrite norm_index_wrap by lia.
  rewrite (NpFacts.norm_index_in (length a) x) by lia. cbn [bind].
  destruct (NpFacts.shape_row a h w x Ha Hx) as (row & Hr & Lr). rewrite Hr.
  replace w with (Z.of_nat (length row)) at 1 by lia.
  rewrite norm_index_wrap by lia. reflexivity.
Qed.

(** X10. The board does not validate coordinates.  With a row index
    outside [-height, height) or a column index outside [-width, width),
    [reveal] and [toggle_flag] raise [IndexError].  [reposition_mine]
    raises [IndexError] when [from_pos] is such a position; when [to_pos]
    is one and [from_pos] is a cell of the grid, it raises [IndexError]
    if [from_pos] holds a mine and returns with the board unchanged if
    it holds none, since [to_pos] is then not looked at.  A negative
    index within the range is accepted and wraps around as numpy has it:
    [toggle_flag(x - height, y - width)] does what [toggle_flag(x, y)]
    does. *)
Theorem coordinates_not_validated (fuel : nat) (b : Board) (x y : Z) :
  wf b ->
  (~ (- height b <= x < height b /\ - width b <= y < width b) ->
   reveal fuel b x y = Raise IndexError /\
   toggle_flag b x y = Raise IndexError /\
   (forall to_pos, reposition_mine b (x, y) to_pos = Raise IndexError) /\
   (forall from_pos : cell, on_grid b from_pos.1 from_pos.2 ->
      reposition_mine b from_pos (x, y)
      = if val b from_pos.1 from_pos.2 =? -1 then Raise IndexError else Ok b)) /\
  (on_grid b x y ->
   toggle_flag b (x - height b) (y - width b) = toggle_flag b x y).
Proof.
  intros Hwf. pose proof Hwf as (Hb & Hr & Hf). split.
  - intros Hout. split; [|split; [|split]].
    + unfold reveal. rewrite (getitem_out _ _ _ x y Hf Hout). reflexivity.
    + unfold toggle_flag. rewrite (getitem_out _ _ _ x y Hr Hout). reflexivity.
    + intros [x2 y2]. unfold reposition_mine.
      rewrite (getitem_out _ _ _ x y Hb Hout). reflexivity.
    + intros [x1 y1] Hg. cbn [fst snd] in *. unfold reposition_mine.
      rewrite (get_board b x1 y1 Hwf Hg), bind_Ok.
      destruct (val b x1 y1 =? -1); cbn [negb]; [|reflexivity].
      rewrite (getitem_out _ _ _ x y Hb Hout). reflexivity.
  - intros Hg. unfold toggle_flag.
    rewrite (getitem_wrap _ _ _ x y Hr Hg), (getitem_wrap _ _ _ x y Hf Hg).
    destruct (Np.getitem (revealed b) x y) as [r| |]; cbn [bind]; try reflexivity.
    destruct (negb r); [|reflexivity].
    destruct (Np.getitem (flagged b) x y) as [f| |]; cbn [bind]; try reflexivity.
    rewrite (setitem_wrap _ _ _ x y _ Hf Hg). reflexivity.
Qed.

Lemma coordinates_not_validated_witness :
  reveal 9 corner_mine_board 0 3 = Raise IndexError /\
  toggle_flag corner_mine_board (-4) 0 = Raise IndexError /\
  reposition_mine corner_mine_board (0, 3) (1, 1) = Raise IndexError /\
  reposition_mine corner_mine_board (0, 0) (0, 3) = Raise IndexError /\
  reposition_mine corner_mine_board (1, 1) (0, 3) = Ok corner_mine_board /\
  toggle_flag corner_mine_board (-1) (-1) = toggle_flag corner_mine_board 2 2.
Proof.
  destruct (coordinates_not_validated 9 corner_mine_board 0 3 corner_mine_board_wf)
    as [H1 _].
  destruct (coordinates_not_validated 9 corner_mine_board (-4) 0 corner_mine_board_wf)
    as [H2 _].
  destruct (coordinates_not_validated 9 corner_mine_board 2 2 corner_mine_board_wf)
    as [_ H3].
  destruct H1 as (Hr & _ & Hfrom & Hto); [simpl; lia|].
  split; [exact Hr|]. split; [apply H2; simpl; lia|].
  split; [apply Hfrom|].
  split; [apply (Hto (0, 0)); unfold on_grid, in_bounds; simpl; lia|].
  split; [apply (Hto (1, 1)); unfold on_grid, in_bounds; simpl; lia|].
  apply H3. unfold on_grid, in_bounds. simpl. lia.
Defined.

(** ** A board that is won from the start *)

(** X11. A newly constructed board has every cell hidden and unflagged,
    and [is_won] holds on it exactly when [mine_count] is the number of
    cells, so that there is nothing to reveal. *)
Theorem new_board_won_iff (w h mc : Z) (rnd : nat -> nat) (b : Board) :
  new_board w h mc rnd = Ok b ->
  (forall x y, on_grid b x y -> is_revealed b x y = false /\ is_flagged b x y = false) /\
  (is_won b = true <-> mc = w * h).
Proof.
  intros Hnew.
  destruct (new_board_fresh w h mc rnd b Hnew)
    as (Hc & Hw & Hh & Hmc & Hw0 & Hh0 & Hrange & Hfresh).
  split; [exact Hfresh|]. pose proof Hc as [Hwf _ Hmir Hcnt].
  rewrite (is_won_iff b Hwf).
  assert (Hsub : mine_positions b ⊆ list_to_set (all_positions h w)).
  { intros p Hp. apply elem_of_list_to_set, elem_of_all_positions.
    apply Hmir in Hp as [Hg _]. unfold on_grid in Hg. rewrite Hh, Hw in Hg. exact Hg. }
  assert (Hsz : size (list_to_set (all_positions h w) : gset (Z * Z))
                = length (all_positions h w))
    by apply size_list_to_set, NoDup_all_positions.
  pose proof (length_all_positions h w Hh0 Hw0) as Hlen.
  split.
  - intros Hall.
    assert (Heq : mine_positions b = list_to_set (all_positions h w)).
    { apply set_eq. intros p. split; [apply Hsub|].
      intros Hp. apply elem_of_list_to_set, elem_of_all_positions in Hp.
      assert (Hg : on_grid b p.1 p.2) by (unfold on_grid; rewrite Hh, Hw; exact Hp).
      apply Hmir. split; [exact Hg|].
      destruct (decide (val b p.1 p.2 = -1)) as [E|E]; [exact E|].
      specialize (Hall _ _ Hg E). destruct (Hfresh _ _ Hg). congruence. }
    rewrite Heq, Hsz in Hcnt. lia.
  - intros Hfull x y Hg Hne. exfalso. apply Hne.
    assert (Heq : mine_positions b = list_to_set (all_positions h w)).
    { apply set_subseteq_size_eq; [exact Hsub|]. rewrite Hsz. lia. }
    assert (Hp : (x, y) ∈ mine_positions b).
    { rewrite Heq. apply elem_of_list_to_set, elem_of_all_positions. simpl.
      unfold on_grid in Hg. rewrite Hh, Hw in Hg. exact Hg. }
    apply Hmir in Hp as [_ Hp]. exact Hp.
Qed.

Lemma new_board_won_iff_witness :
  exists b, new_board 2 2 4 (fun _ => 0%nat) = Ok b /\ is_won b = true /\
            is_won corner_mine_board = false.
Proof.
  destruct (new_board 2 2 4 (fun _ => 0%nat)) as [b| |] eqn:E;
    try (vm_compute in E; discriminate).
  exists b. split; [reflexivity|].
  split; [apply (new_board_won_iff 2 2 4 (fun _ => 0%nat) b E); reflexivity|].
  assert (Hnew : new_board 3 3 1 (fun _ => 0%nat) = Ok corner_mine_board)
    by (vm_compute; reflexivity).
  destruct (is_won corner_mine_board) eqn:Ew; [|reflexivity].
  apply (new_board_won_iff 3 3 1 (fun _ => 0%nat) corner_mine_board Hnew) in Ew.
  discriminate.
Defined.
(** * Further properties of the controller *)

(** ** Distances and clusters *)

(** X12. [_manhattan_distance] is a metric on cells: it is never
    negative, it is 0 exactly between a cell and itself, it is symmetric,
    and it obeys the triangle inequality. *)
Theorem manhattan_distance_metric (p q r : cell) :
  0 <= manhattan_distance p q /\
  (manhattan_distance p q = 0 <-> p = q) /\
  manhattan_distance p q = manhattan_distance q p /\
  manhattan_distance p r <= manhattan_distance p q + manhattan_distance q r.
Proof.
  destruct p as [p1 p2], q as [q1 q2], r as [r1 r2].
  unfold manhattan_distance. cbn [fst snd].
  split; [lia|]. split; [|split; lia].
  split.
  - intros H. f_equal; lia.
  - intros E. injection E as -> ->. lia.
Qed.

Lemma for_each_all {A} (l : list A) (body : A -> bool -> result bool)
      (t : A -> bool) :
  (forall a s, a ∈ l -> body a s = Ok (s && t a)) ->
  forall s, for_each l body s = Ok (s && forallb t l).
Proof.
  induction l as [|a l IH]; intros Hbody s; simpl.
  - rewrite andb_true_r. reflexivity.
  - rewrite Hbody by apply list_elem_of_here. cbn [bind].
    rewrite IH by (intros; apply Hbody, list_elem_of_further; assumption).
    rewrite andb_assoc. reflexivity.
Qed.

(** The test of [_are_moves_clustered] on the moves at two positions. *)
Lemma clustered_pair (moves : list cell) (i j : Z) (s : bool) :
  0 <= i < Z.of_nat (length moves) -> 0 <= j < Z.of_nat (length moves) ->
  (if s then
     let* mi := list_getitem moves i in
     let* mj := list_getitem moves j in
     Ok (manhattan_distance mi mj <=? 3)
   else Ok false)
  = Ok (s && match moves !! Z.to_nat i, moves !! Z.to_nat j with
             | Some mi, Some mj => manhattan_distance mi mj <=? 3
             | _, _ => true
             end).
Proof.
  intros Hi Hj.
  destruct (list_getitem_in moves i Hi) as (mi & Li & Gi).
  destruct (list_getitem_in moves j Hj) as (mj & Lj & Gj).
  rewrite Li, Lj. destruct s; [|reflexivity].
  rewrite Gi, Gj. reflexivity.
Qed.

(** X13. [_are_moves_clustered] never raises, whatever the number of
    moves: it is true exactly when every two moves of the list, taken at
    different positions, are within Manhattan distance 3 of each other;
    so it is true of the empty list and of a single move. *)
Theorem are_moves_clustered_spec (moves : list cell) :
  exists r : bool,
    are_moves_clustered moves = Ok r /\
    (r = true <->
     forall (i j : nat) (mi mj : cell),
       (i < j)%nat -> moves !! i = Some mi -> moves !! j = Some mj ->
       manhattan_distance mi mj <= 3).
Proof.
  set (n := Z.of_nat (length moves)).
  set (ok := fun i j : Z =>
               match moves !! Z.to_nat i, moves !! Z.to_nat j with
               | Some mi, Some mj => manhattan_distance mi mj <=? 3
               | _, _ => true
               end).
  assert (Hrun : are_moves_clustered moves
                 = Ok (true && forallb (fun i => forallb (ok i) (range2 (i + 1) n))
                                       (range n))).
  { unfold are_moves_clustered. fold n.
    apply (for_each_all (range n)
             (fun i => for_each (range2 (i + 1) n) (fun j (so_far : bool) =>
                if so_far then
                  let* mi := list_getitem moves i in
                  let* mj := list_getitem moves j in
                  Ok (manhattan_distance mi mj <=? 3)
                else Ok false))
             (fun i => forallb (ok i) (range2 (i + 1) n))).
    intros i s Hi. apply elem_of_range in Hi.
    apply (for_each_all (range2 (i + 1) n) _ (ok i)).
    intros j s' Hj. apply elem_of_range2 in Hj.
    apply clustered_pair; unfold n in *; lia. }
  eexists. split; [exact Hrun|]. cbn [andb].
  rewrite forallb_forall. split.
  - intros H i j mi mj Hij Li Lj.
    pose proof (lookup_lt_Some _ _ _ Lj) as Hlen.
    assert (Hi : In (Z.of_nat i) (range n))
      by (apply list_elem_of_In, elem_of_range; unfold n; lia).
    specialize (H _ Hi). rewrite forallb_forall in H.
    assert (Hj : In (Z.of_nat j) (range2 (Z.of_nat i + 1) n))
      by (apply list_elem_of_In, elem_of_range2; unfold n; lia).
    specialize (H _ Hj). unfold ok in H. rewrite !Nat2Z.id, Li, Lj in H.
    apply Z.leb_le, H.
  - intros H i Hi. apply list_elem_of_In, elem_of_range in Hi.
    apply forallb_forall. intros j Hj. apply list_elem_of_In, elem_of_range2 in Hj.
    unfold ok.
    destruct (moves !! Z.to_nat i) as [mi|] eqn:Li; [|reflexivity].
    destruct (moves !! Z.to_nat j) as [mj|] eqn:Lj; [|reflexivity].
    apply Z.leb_le. apply (H (Z.to_nat i) (Z.to_nat j)); [lia|assumption|assumption].
Qed.

(** ** The centre of a cluster *)

Lemma fold_left_add (l : list Z) (a : Z) :
  fold_left Z.add l a = a + fold_left Z.add l 0.
Proof.
  revert a. induction l as [|v l IH]; intros a; cbn [fold_left]; [lia|].
  rewrite (IH (a + v)), (IH (0 + v)). lia.
Qed.

Lemma sum_Z_bounds (l : list Z) (lo hi : Z) :
  (forall v, v ∈ l -> lo <= v <= hi) ->
  Z.of_nat (length l) * lo <= sum_Z l <= Z.of_nat (length l) * hi.
Proof.
  unfold sum_Z. induction l as [|v l IH]; intros H; cbn [fold_left].
  - simpl. lia.
  - rewrite fold_left_add.
    pose proof (H v (list_elem_of_here _ _)).
    assert (IH' := IH (fun u Hu => H u (list_elem_of_further _ _ _ Hu))).
    rewrite length_cons. nia.
Qed.

Lemma floor_mean_bounds (s n lo hi : Z) :
  0 < n -> n * lo <= s <= n * hi -> lo <= s / n <= hi.
Proof.
  intros Hn [H1 H2]. split.
  - apply Z.div_le_lower_bound; assumption.
  - apply Z.div_le_upper_bound; assumption.
Qed.

Lemma get_cluster_center_box (moves : list cell) (lo_x hi_x lo_y hi_y : Z) :
  moves <> [] ->
  (forall m : cell, m ∈ moves -> lo_x <= m.1 <= hi_x /\ lo_y <= m.2 <= hi_y) ->
  exists c : cell,
    get_cluster_center moves = Ok c /\
    lo_x <= c.1 <= hi_x /\ lo_y <= c.2 <= hi_y.
Proof.
  intros Hne Hbox. unfold get_cluster_center.
  assert (Hlen : 0 < Z.of_nat (length moves)) by (destruct moves; simpl; [congruence|lia]).
  replace (Z.of_nat (length moves) =? 0) with false by (symmetry; apply Z.eqb_neq; lia).
  eexists. split; [reflexivity|]. cbn [fst snd].
  split; apply floor_mean_bounds; try exact Hlen.
  - rewrite <- (length_map fst moves). apply sum_Z_bounds.
    intros v Hv. apply list_elem_of_fmap in Hv as (m & -> & Hm). apply Hbox, Hm.
  - rewrite <- (length_map snd moves). apply sum_Z_bounds.
    intros v Hv. apply list_elem_of_fmap in Hv as (m & -> & Hm). apply Hbox, Hm.
Qed.

(** X14. [_get_cluster_center] raises [ZeroDivisionError] on the empty
    list.  On any other list it returns a cell inside every rectangle
    that contains the moves; so the centre of moves on a grid is a cell
    of that grid. *)
Theorem get_cluster_center_in_box (moves : list cell) (lo_x hi_x lo_y hi_y : Z) :
  (forall m : cell, m ∈ moves -> lo_x <= m.1 <= hi_x /\ lo_y <= m.2 <= hi_y) ->
  (moves = [] -> get_cluster_center moves = Raise ZeroDivisionError) /\
  (moves <> [] ->
   exists c : cell,
     get_cluster_center moves = Ok c /\
     lo_x <= c.1 <= hi_x /\ lo_y <= c.2 <= hi_y).
Proof.
  intros Hbox. split.
  - intros ->. reflexivity.
  - intros Hne. apply get_cluster_center_box; assumption.
Qed.

Lemma get_cluster_center_in_box_witness :
  get_cluster_center [] = Raise ZeroDivisionError /\
  exists c : cell,
    get_cluster_center [(0, 9); (1, 9); (1, 8); (0, 8)] = Ok c /\
    0 <= c.1 <= 1 /\ 8 <= c.2 <= 9.
Proof.
  split.
  - apply (get_cluster_center_in_box [] 0 0 0 0); [|reflexivity].
    intros m Hm. apply elem_of_nil in Hm. destruct Hm.
  - apply (get_cluster_center_in_box [(0, 9); (1, 9); (1, 8); (0, 8)] 0 1 8 9);
      [|discriminate].
    intros m Hm. repeat (apply elem_of_cons in Hm as [->|Hm]; [simpl; lia|]).
    apply elem_of_nil in Hm. destruct Hm.
Defined.
(** ** Recording moves *)

Lemma split_last_two {A} (l : list A) :
  (2 <= length l)%nat -> exists pre a b, l = pre ++ [a; b].
Proof.
  induction l as [|a1 l IH]; simpl; [lia|]. intros H.
  destruct l as [|a2 l]; [simpl in H; lia|].
  destruct l as [|a3 l].
  - exists [], a1, a2. reflexivity.
  - destruct IH as (pre & a & b & E); [simpl; lia|].
    exists (a1 :: pre), a, b. rewrite E. reflexivity.
Qed.

Lemma centre_close (a b : cell) (x y : Z) :
  manhattan_distance a b <= 3 ->
  manhattan_distance a (x, y) <= 3 -> manhattan_distance b (x, y) <= 3 ->
  manhattan_distance ((a.1 + b.1 + x) / 3, (a.2 + b.2 + y) / 3) (x, y) <= 3.
Proof.
  destruct a as [a1 a2], b as [b1 b2]. unfold manhattan_distance. cbn [fst snd].
  intros H1 H2 H3.
  pose proof (Z.div_mod (a1 + b1 + x) 3 ltac:(lia)).
  pose proof (Z.mod_pos_bound (a1 + b1 + x) 3 ltac:(lia)).
  pose proof (Z.div_mod (a2 + b2 + y) 3 ltac:(lia)).
  pose proof (Z.mod_pos_bound (a2 + b2 + y) 3 ltac:(lia)).
  lia.
Qed.

Lemma record_move_result {F} (ai : AIController F) (x y : Z) :
  let kept := List.filter (fun pos => manhattan_distance pos (x, y) <=? 5)
                          (danger_zones ai) in
  exists zones' : list cell,
    record_move ai x y
    = Ok (mkAI (move_history ai ++ [(x, y)]) zones'
               (difficulty_factor ai) (transform_probability ai)) /\
    (zones' = kept \/
     exists (pre : list cell) (a b : cell),
       move_history ai = pre ++ [a; b] /\
       manhattan_distance a b <= 3 /\
       manhattan_distance a (x, y) <= 3 /\ manhattan_distance b (x, y) <= 3 /\
       (((a.1 + b.1 + x) / 3, (a.2 + b.2 + y) / 3) ∉ kept) /\
       zones' = kept ++ [((a.1 + b.1 + x) / 3, (a.2 + b.2 + y) / 3)]).
Proof.
  destruct ai as [hist zones df tp]. intros kept.
  unfold record_move, update_danger_zones.
  cbn [move_history danger_zones difficulty_factor transform_probability
       set_danger_zones] in *.
  fold kept.
  destruct (3 <=? Z.of_nat (length (hist ++ [(x, y)]))) eqn:E3.
  - apply Z.leb_le in E3. rewrite length_app in E3. simpl in E3.
    destruct (split_last_two hist) as (pre & a & b & ->); [lia|].
    rewrite <- app_assoc. cbn [app].
    rewrite last3_app, are_moves_clustered_3, bind_Ok.
    destruct (Z.leb_spec (manhattan_distance a b) 3) as [H1|H1];
      [|eexists; split; [reflexivity|left; reflexivity]].
    destruct (Z.leb_spec (manhattan_distance a (x, y)) 3) as [H2|H2];
      [|eexists; split; [reflexivity|left; reflexivity]].
    destruct (Z.leb_spec (manhattan_distance b (x, y)) 3) as [H3|H3];
      [|eexists; split; [reflexivity|left; reflexivity]].
    cbn [andb]. rewrite get_cluster_center_3, bind_Ok. cbn [fst snd].
    case_bool_decide as Hin; cbn [negb].
    + eexists; split; [reflexivity|left; reflexivity].
    + eexists; split; [reflexivity|]. right. exists pre, a, b.
      auto 10.
  - eexists; split; [reflexivity|left; reflexivity].
Qed.

Lemma elem_of_List_filter {A} (f : A -> bool) (l : list A) (a : A) :
  a ∈ List.filter f l <-> a ∈ l /\ f a = true.
Proof. rewrite !list_elem_of_In. apply filter_In. Qed.

(** X15. [record_move] never raises.  It appends the move to the history
    and leaves the two factors alone.  Afterwards every danger zone is
    within Manhattan distance 5 of the move just recorded; the list of
    zones has grown by one at most and holds no zone twice if it held
    none twice before; and the zones lie inside every rectangle that
    holds the former zones and all recorded moves, so that moves on the
    grid only ever give zones on the grid. *)
Theorem record_move_invariants (F : Type) (ai : AIController F) (x y : Z) :
  exists ai' : AIController F,
    record_move ai x y = Ok ai' /\
    move_history ai' = move_history ai ++ [(x, y)] /\
    difficulty_factor ai' = difficulty_factor ai /\
    transform_probability ai' = transform_probability ai /\
    (forall z, z ∈ danger_zones ai' -> manhattan_distance z (x, y) <= 5) /\
    (length (danger_zones ai') <= S (length (danger_zones ai)))%nat /\
    (NoDup (danger_zones ai) -> NoDup (danger_zones ai')) /\
    (forall lo_x hi_x lo_y hi_y : Z,
       (forall m : cell, m ∈ move_history ai ++ [(x, y)] ->
          lo_x <= m.1 <= hi_x /\ lo_y <= m.2 <= hi_y) ->
       (forall z : cell, z ∈ danger_zones ai ->
          lo_x <= z.1 <= hi_x /\ lo_y <= z.2 <= hi_y) ->
       forall z : cell, z ∈ danger_zones ai' ->
         lo_x <= z.1 <= hi_x /\ lo_y <= z.2 <= hi_y).
Proof.
  destruct (record_move_result ai x y) as (zones' & Hrun & Hz).
  set (kept := List.filter (fun pos => manhattan_distance pos (x, y) <=? 5)
                           (danger_zones ai)) in *.
  assert (Hkept : forall z, z ∈ kept ->
            z ∈ danger_zones ai /\ manhattan_distance z (x, y) <= 5).
  { intros z Hin. apply elem_of_List_filter in Hin as [Hin Hd].
    split; [exact Hin|]. apply Z.leb_le, Hd. }
  assert (Hlen : (length kept <= length (danger_zones ai))%nat)
    by apply List.filter_length_le.
  eexists. split; [exact Hrun|]. cbn [move_history danger_zones difficulty_factor
                                      transform_probability].
  split; [reflexivity|]. split; [reflexivity|]. split; [reflexivity|].
  destruct Hz as [->|(pre & a & b & Hhist & H1 & H2 & H3 & Hnin & ->)].
  - split; [intros z Hin; apply Hkept, Hin|].
    split; [lia|].
    split; [intros Hnd; apply NoDup_List_filter, Hnd|].
    intros lo_x hi_x lo_y hi_y _ Hzones z Hin. apply Hzones, Hkept, Hin.
  - split.
    { intros z Hin. apply elem_of_app in Hin as [Hin|Hin]; [apply Hkept, Hin|].
      apply list_elem_of_singleton in Hin as ->.
      pose proof (centre_close a b x y H1 H2 H3). lia. }
    split; [rewrite length_app; simpl; lia|].
    split.
    { intros Hnd. apply NoDup_app. split; [apply NoDup_List_filter, Hnd|].
      split; [|apply NoDup_singleton].
      intros z Hin Hin'. apply list_elem_of_singleton in Hin' as ->. contradiction. }
    intros lo_x hi_x lo_y hi_y Hmoves Hzones z Hin.
    apply elem_of_app in Hin as [Hin|Hin]; [apply Hzones, Hkept, Hin|].
    apply list_elem_of_singleton in Hin as ->.
    destruct (get_cluster_center_box [a; b; (x, y)] lo_x hi_x lo_y hi_y)
      as (c & Hc & Hbox); [discriminate| |].
    + intros m Hm. apply Hmoves. rewrite Hhist, <- app_assoc. cbn [app].
      apply elem_of_app. right. exact Hm.
    + rewrite get_cluster_center_3 in Hc. injection Hc as <-. exact Hbox.
Qed.
(** ** Mines that drift towards a danger zone *)

Lemma for_each_ext {A S} (l : list A) (body body' : A -> S -> result S) :
  (forall a s, a ∈ l -> body a s = body' a s) ->
  forall s, for_each l body s = for_each l body' s.
Proof.
  induction l as [|a l IH]; intros H s; simpl; [reflexivity|].
  rewrite (H a s) by apply list_elem_of_here.
  destruct (body' a s) as [s'| |]; cbn [bind]; try reflexivity.
  apply IH. intros a' s'' Hin. apply H, list_elem_of_further, Hin.
Qed.

Lemma for_each_id {A S} (l : list A) (body : A -> S -> result S) (s : S) :
  (forall a, a ∈ l -> body a s = Ok s) -> for_each l body s = Ok s.
Proof.
  induction l as [|a l IH]; intros H; simpl; [reflexivity|].
  rewrite (H a) by apply list_elem_of_here. cbn [bind].
  apply IH. intros a' Hin. apply H, list_elem_of_further, Hin.
Qed.

Lemma for_each_first {A R} (l : list A) (test : A -> bool) (act : A -> result R) :
  (forall r, for_each l (first_hit test act) (Some r) = Ok (Some r)) /\
  for_each l (first_hit test act) None
  = match List.filter test l with
    | [] => Ok None
    | a :: _ => let* r := act a in Ok (Some r)
    end.
Proof.
  induction l as [|a l [IH1 IH2]]; simpl; [split; reflexivity|]. split.
  - intros r. apply IH1.
  - destruct (test a); cbn [bind]; [|exact IH2].
    destruct (act a) as [r| |]; cbn [bind]; [apply IH1|reflexivity|reflexivity].
Qed.

Lemma filter_map_first {A B C} (g : A -> B) (test : B -> bool) (l : list A)
      (x : C) (k : B -> C) :
  match List.filter (fun a => test (g a)) l with [] => x | a :: _ => k (g a) end
  = match List.filter test (map g l) with [] => x | c :: _ => k c end.
Proof.
  induction l as [|a l IH]; simpl; [reflexivity|].
  destruct (test (g a)); [reflexivity|exact IH].
Qed.

Lemma elem_of_drift_block (zone c : cell) :
  c ∈ drift_block zone <->
  -2 <= c.1 - zone.1 <= 2 /\ -2 <= c.2 - zone.2 <= 2.
Proof.
  unfold drift_block. rewrite list_elem_of_fmap. split.
  - intros (d & -> & Hd). apply elem_of_product in Hd as [H1 H2].
    apply elem_of_range2 in H1, H2. cbn [fst snd]. lia.
  - intros [H1 H2]. exists (c.1 - zone.1, c.2 - zone.2). split.
    + destruct c as [c1 c2]. cbn [fst snd]. f_equal; lia.
    + apply elem_of_product. cbn [fst snd]. rewrite !elem_of_range2. lia.
Qed.

Lemma elem_of_drift_targets (b : Board) (zone c : cell) :
  c ∈ drift_targets b zone <-> drift_target b zone c.
Proof.
  unfold drift_targets, drift_target.
  rewrite elem_of_List_filter, elem_of_drift_block, !andb_true_iff, !negb_true_iff,
    inside_spec, bool_decide_eq_false.
  tauto.
Qed.

Lemma elem_of_far_mines (order : gset cell -> list cell) (b : Board) (zone m : cell) :
  m ∈ far_mines order b zone <->
  m ∈ order (mine_positions b) /\ 5 < manhattan_distance m zone.
Proof. unfold far_mines. rewrite elem_of_List_filter, Z.ltb_lt. reflexivity. Qed.

(** The search of the two inner loops, for one mine. *)
Lemma drift_search (b : Board) (mine_pos zone : cell) :
  wf b ->
  for_each (range2 (-2) 3) (fun dx =>
    for_each (range2 (-2) 3) (fun dy (st : option Board) =>
      match st with
      | Some _ => Ok st
      | None =>
          let new_x := zone.1 + dx in
          let new_y := zone.2 + dy in
          if inside b new_x new_y then
            let* r := Np.getitem (revealed b) new_x new_y in
            if negb r && negb (bool_decide ((new_x, new_y) ∈ mine_positions b))
            then
              let* b' := reposition_mine b mine_pos (new_x, new_y) in
              Ok (Some b')
            else Ok None
          else Ok None
      end)) None
  = match drift_targets b zone with
    | [] => Ok None
    | t :: _ => let* b' := reposition_mine b mine_pos t in Ok (Some b')
    end.
Proof.
  intros Hwf.
  rewrite (for_each_nested (range2 (-2) 3) (range2 (-2) 3)
             (fun dx dy (st : option Board) =>
                match st with
                | Some _ => Ok st
                | None =>
                    let new_x := zone.1 + dx in
                    let new_y := zone.2 + dy in
                    if inside b new_x new_y then
                      let* r := Np.getitem (revealed b) new_x new_y in
                      if negb r && negb (bool_decide ((new_x, new_y) ∈ mine_positions b))
                      then
                        let* b' := reposition_mine b mine_pos (new_x, new_y) in
                        Ok (Some b')
                      else Ok None
                    else Ok None
                end)).
  set (g := fun d : cell => (zone.1 + d.1, zone.2 + d.2)).
  set (test := fun c : cell => inside b c.1 c.2 && negb (is_revealed b c.1 c.2)
                               && negb (bool_decide (c ∈ mine_positions b))).
  rewrite (for_each_ext _ _
             (first_hit (fun d => test (g d))
                        (fun d => reposition_mine b mine_pos (g d)))).
  - rewrite (proj2 (for_each_first _ _ _)).
    apply (filter_map_first g test _ (Ok None)
             (fun t => let* b' := reposition_mine b mine_pos t in Ok (Some b'))).
  - intros d [st|] _; [reflexivity|]. unfold first_hit, test, g. cbn [fst snd].
    destruct (inside b (zone.1 + d.1) (zone.2 + d.2)) eqn:Ei; [|reflexivity].
    rewrite (get_revealed b _ _ Hwf (proj1 (inside_spec b _ _) Ei)), bind_Ok.
    cbn [andb]. reflexivity.
Qed.

Lemma move_mine_to_danger_zone_eq (order : gset cell -> list cell)
      (b : Board) (zone : cell) :
  wf b ->
  move_mine_to_danger_zone order b zone
  = match drift_targets b zone, far_mines order b zone with
    | t :: _, m :: _ => reposition_mine b m t
    | _, _ => Ok b
    end.
Proof.
  intros Hwf. destruct zone as [x y]. unfold move_mine_to_danger_zone.
  match goal with
  | |- bind (for_each ?l ?body None) ?k = _ =>
      set (outer := body); set (kont := k)
  end.
  destruct (drift_targets b (x, y)) as [|t ts] eqn:Et.
  - rewrite (for_each_ext _ outer (fun _ st => Ok st)).
    + rewrite for_each_id by reflexivity. reflexivity.
    + intros m [st|] _; [reflexivity|]. unfold outer.
      destruct (5 <? manhattan_distance m (x, y)); [|reflexivity].
      pose proof (drift_search b m (x, y) Hwf) as Hs. cbn [fst snd] in Hs.
      rewrite Hs, Et. reflexivity.
  - rewrite (for_each_ext _ outer
               (first_hit (fun m => 5 <? manhattan_distance m (x, y))
                          (fun m => reposition_mine b m t))).
    + rewrite (proj2 (for_each_first _ _ _)). fold (far_mines order b (x, y)).
      destruct (far_mines order b (x, y)) as [|m ms]; [reflexivity|].
      destruct (reposition_mine b m t) as [b'| |]; reflexivity.
    + intros m [st|] _; [reflexivity|]. unfold outer, first_hit.
      destruct (5 <? manhattan_distance m (x, y)); [|reflexivity].
      pose proof (drift_search b m (x, y) Hwf) as Hs. cbn [fst snd] in Hs.
      rewrite Hs, Et. reflexivity.
Qed.

Lemma reposition_mine_effect (b : Board) (m t : cell) :
  consistent b -> m ∈ mine_positions b ->
  on_grid b t.1 t.2 -> (t ∉ mine_positions b) ->
  exists b',
    reposition_mine b m t = Ok b' /\ consistent b' /\ same_masks b b' /\
    mine_positions b' = mine_positions b ∖ {[m]} ∪ {[t]} /\
    val b' t.1 t.2 = -1 /\ val b' m.1 m.2 <> -1.
Proof.
  intros Hc Hm Ht Hnt. pose proof Hc as [Hwf _ Hmir _].
  destruct (proj1 (Hmir m) Hm) as [Hgm Hvm].
  assert (Hvt : val b t.1 t.2 <> -1).
  { intros E. apply Hnt, Hmir. auto. }
  destruct (reposition_mine_consistent b m t Hc Hgm Ht) as (b' & E & Hc' & _).
  exists b'. split; [exact E|]. split; [exact Hc'|].
  split; [apply (reposition_mine_same_masks b b' m t); assumption|].
  destruct m as [x1 y1], t as [x2 y2]. cbn [fst snd] in *.
  destruct (reposition_mine_moves b x1 y1 x2 y2 Hwf Hgm Ht Hvm Hvt Hm)
    as (a & E' & _ & Hmine & _).
  cbv zeta in E', Hmine. rewrite E in E'. injection E' as ->.
  split; [reflexivity|]. split.
  - apply Z.eqb_eq. pose proof (Hmine (x2, y2) Ht) as H. cbn [fst snd] in H.
    rewrite H, bool_decide_true by reflexivity. reflexivity.
  - apply Z.eqb_neq. pose proof (Hmine (x1, y1) Hgm) as H. cbn [fst snd] in H.
    rewrite H.
    rewrite bool_decide_false by (intros Q; injection Q as -> ->; contradiction).
    rewrite bool_decide_true by reflexivity. reflexivity.
Qed.

Lemma no_mine_surfaced_refl (b : Board) : no_mine_surfaced b b.
Proof. intros x y _ _ H. exact H. Qed.

Lemma no_mine_surfaced_trans (b1 b2 b3 : Board) :
  same_masks b1 b2 ->
  no_mine_surfaced b1 b2 -> no_mine_surfaced b2 b3 -> no_mine_surfaced b1 b3.
Proof.
  intros Hs H12 H23 x y Hg Hr Hv. apply (H12 x y Hg Hr). apply H23; [| |exact Hv].
  - apply (same_masks_on_grid b1 b2); assumption.
  - rewrite (same_masks_revealed b1 b2) by exact Hs. exact Hr.
Qed.

Lemma no_mine_surfaced_move (b b' : Board) (m t : cell) :
  mines_mirror b -> mines_mirror b' -> same_masks b b' ->
  mine_positions b' = mine_positions b ∖ {[m]} ∪ {[t]} ->
  is_revealed b t.1 t.2 = false ->
  no_mine_surfaced b b'.
Proof.
  intros Hmir Hmir' Hs Hset Ht x y Hg Hr Hv.
  assert (Hin : (x, y) ∈ mine_positions b').
  { apply Hmir'. cbn [fst snd]. split; [|exact Hv].
    apply (same_masks_on_grid b b'); assumption. }
  rewrite Hset in Hin. apply elem_of_union in Hin as [Hin|Hin].
  - apply elem_of_difference in Hin as [Hin _]. apply Hmir in Hin as [_ Hin].
    exact Hin.
  - apply elem_of_singleton in Hin. subst t. cbn [fst snd] in Ht. congruence.
Qed.

Lemma drift_step (order : gset cell -> list cell) (b : Board) (zone : cell) :
  consistent b ->
  (forall p, p ∈ order (mine_positions b) -> p ∈ mine_positions b) ->
  exists b',
    move_mine_to_danger_zone order b zone = Ok b' /\
    consistent b' /\ same_masks b b' /\ no_mine_surfaced b b'.
Proof.
  intros Hc Horder. pose proof Hc as [Hwf _ Hmir _].
  rewrite (move_mine_to_danger_zone_eq order b zone Hwf).
  destruct (drift_targets b zone) as [|t ts] eqn:Et;
    [exists b; auto using same_masks_refl, no_mine_surfaced_refl|].
  destruct (far_mines order b zone) as [|m ms] eqn:Em;
    [exists b; auto using same_masks_refl, no_mine_surfaced_refl|].
  assert (Ht : drift_target b zone t).
  { apply elem_of_drift_targets. rewrite Et. apply list_elem_of_here. }
  assert (Hm : m ∈ far_mines order b zone) by (rewrite Em; apply list_elem_of_here).
  apply elem_of_far_mines in Hm as [Hm _]. apply Horder in Hm.
  destruct Ht as (Hgt & _ & _ & Hrt & Hnt).
  destruct (reposition_mine_effect b m t Hc Hm Hgt Hnt)
    as (b' & E & Hc' & Hs & Hset & _).
  exists b'. split; [exact E|]. split; [exact Hc'|]. split; [exact Hs|].
  apply (no_mine_surfaced_move b b' m t); try assumption. apply Hc'.
Qed.

(** X16. [_move_mine_to_danger_zone] on a consistent board never raises
    and keeps the board consistent, with the masks, the dimensions and
    the number of mines as they were.  It moves one mine at most: a mine
    farther than Manhattan distance 5 from the zone, to a hidden cell of
    the grid without a mine at most two rows and two columns from the
    zone.  The board stays as it is exactly when no mine is that far or
    no such cell exists. *)
Theorem move_mine_to_danger_zone_spec (order : gset cell -> list cell)
        (b : Board) (zone : cell) :
  consistent b ->
  (forall p, p ∈ order (mine_positions b) <-> p ∈ mine_positions b) ->
  exists b',
    move_mine_to_danger_zone order b zone = Ok b' /\
    consistent b' /\ same_masks b b' /\
    ((b' = b /\
      ((forall m, m ∈ mine_positions b -> manhattan_distance m zone <= 5) \/
       (forall c, ~ drift_target b zone c)))
     \/
     (exists m t : cell,
        m ∈ mine_positions b /\ 5 < manhattan_distance m zone /\
        drift_target b zone t /\
        mine_positions b' = mine_positions b ∖ {[m]} ∪ {[t]} /\
        val b' t.1 t.2 = -1 /\ val b' m.1 m.2 <> -1)).
Proof.
  intros Hc Horder. pose proof Hc as [Hwf _ _ _].
  rewrite (move_mine_to_danger_zone_eq order b zone Hwf).
  destruct (drift_targets b zone) as [|t ts] eqn:Et.
  { exists b. split; [reflexivity|]. split; [exact Hc|].
    split; [apply same_masks_refl|]. left. split; [reflexivity|]. right.
    intros c Hcand. apply elem_of_drift_targets in Hcand. rewrite Et in Hcand.
    apply elem_of_nil in Hcand. exact Hcand. }
  destruct (far_mines order b zone) as [|m ms] eqn:Em.
  { exists b. split; [reflexivity|]. split; [exact Hc|].
    split; [apply same_masks_refl|]. left. split; [reflexivity|]. left.
    intros m Hm. destruct (Z.le_gt_cases (manhattan_distance m zone) 5) as [H|H];
      [exact H|]. exfalso.
    assert (Hin : m ∈ far_mines order b zone)
      by (apply elem_of_far_mines; split; [apply Horder, Hm|lia]).
    rewrite Em in Hin. apply elem_of_nil in Hin. exact Hin. }
  assert (Ht : drift_target b zone t).
  { apply elem_of_drift_targets. rewrite Et. apply list_elem_of_here. }
  assert (Hm : m ∈ far_mines order b zone) by (rewrite Em; apply list_elem_of_here).
  apply elem_of_far_mines in Hm as [Hm Hfar]. apply Horder in Hm.
  pose proof Ht as (Hgt & _ & _ & _ & Hnt).
  destruct (reposition_mine_effect b m t Hc Hm Hgt Hnt)
    as (b' & E & Hc' & Hs & Hset & Hvt & Hvm).
  exists b'. split; [exact E|]. split; [exact Hc'|]. split; [exact Hs|].
  right. exists m, t. auto 10.
Qed.

Lemma move_mine_to_danger_zone_spec_witness :
  exists b',
    move_mine_to_danger_zone elements
      (mkBoard 4 4 1 [[-1; 1; 0; 0]; [1; 1; 0; 0]; [0; 0; 0; 0]; [0; 0; 0; 0]]
               (replicate 4 (replicate 4 false)) (replicate 4 (replicate 4 false))
               {[(0, 0)]})
      (3, 3) = Ok b' /\
    consistent b' /\ mine_positions b' = {[(0, 0)]} ∖ {[(0, 0)]} ∪ {[(1, 1)]}.
Proof.
  set (b := mkBoard 4 4 1 [[-1; 1; 0; 0]; [1; 1; 0; 0]; [0; 0; 0; 0]; [0; 0; 0; 0]]
                    (replicate 4 (replicate 4 false)) (replicate 4 (replicate 4 false))
                    {[(0, 0)]}).
  assert (Hnew : new_board 4 4 1 (fun _ => 0%nat) = Ok b) by (vm_compute; reflexivity).
  destruct (new_board_fresh 4 4 1 _ b Hnew) as (Hc & _).
  destruct (move_mine_to_danger_zone_spec elements b (3, 3) Hc)
    as (b' & E & Hc' & _ & _).
  - intros p. apply elem_of_elements.
  - exists b'. split; [exact E|]. split; [exact Hc'|].
    vm_compute in E. injection E as <-. reflexivity.
Defined.
(** ** The drift over all zones *)

Lemma drift_loop (order : gset cell -> list cell) (zcs : list (cell * bool)) :
  (forall (s : gset cell) p, p ∈ order s -> p ∈ s) ->
  forall b, consistent b ->
  exists b',
    for_each zcs (fun zc b => if zc.2 : bool
                              then move_mine_to_danger_zone order b zc.1
                              else Ok b) b = Ok b' /\
    consistent b' /\ same_masks b b' /\ no_mine_surfaced b b'.
Proof.
  intros Horder. induction zcs as [|[zone c] zcs IH]; intros b Hc.
  - exists b. simpl. auto using same_masks_refl, no_mine_surfaced_refl.
  - assert (Hstep : exists b1,
              (if c then move_mine_to_danger_zone order b zone else Ok b) = Ok b1 /\
              consistent b1 /\ same_masks b b1 /\ no_mine_surfaced b b1).
    { destruct c; [apply drift_step; auto|].
      exists b. auto using same_masks_refl, no_mine_surfaced_refl. }
    destruct Hstep as (b1 & E1 & Hc1 & Hs1 & Hn1).
    destruct (IH b1 Hc1) as (b' & E & Hc' & Hs' & Hn').
    exists b'. cbn [for_each fst snd]. rewrite E1, bind_Ok.
    split; [exact E|]. split; [exact Hc'|].
    split; [apply (same_masks_trans b b1 b'); assumption|].
    apply (no_mine_surfaced_trans b b1 b'); assumption.
Qed.

Lemma same_count (b b' : Board) :
  consistent b -> consistent b' -> same_masks b b' ->
  size (mine_positions b') = size (mine_positions b).
Proof.
  intros [_ _ _ H] [_ _ _ H'] [_ _ Hc _ _]. apply Nat2Z.inj. congruence.
Qed.

(** X17. [_handle_mine_movement] on a consistent board never raises,
    whatever the danger zones and the draws: the board stays consistent,
    with the same masks, dimensions and number of mines, and no cell that
    is revealed becomes a mine. *)
Theorem handle_mine_movement_safe (F : Type) (order : gset cell -> list cell)
        (coins : nat -> bool) (ai : AIController F) (b : Board) :
  consistent b ->
  (forall (s : gset cell) p, p ∈ order s <-> p ∈ s) ->
  exists b',
    handle_mine_movement order coins ai b = Ok b' /\
    consistent b' /\ same_masks b b' /\
    size (mine_positions b') = size (mine_positions b) /\
    no_mine_surfaced b b'.
Proof.
  intros Hc Horder. unfold handle_mine_movement.
  destruct (drift_loop order (imap (fun n zone => (zone, coins n)) (danger_zones ai))
              (fun s p => proj1 (Horder s p)) b Hc) as (b' & E & Hc' & Hs & Hn).
  exists b'. split; [exact E|]. split; [exact Hc'|]. split; [exact Hs|].
  split; [apply same_count; assumption|exact Hn].
Qed.

Lemma handle_mine_movement_safe_witness :
  exists b',
    handle_mine_movement elements (fun _ => true) (mkAI [] [(3, 3); (0, 3)] 1 1)
      (mkBoard 4 4 1 [[-1; 1; 0; 0]; [1; 1; 0; 0]; [0; 0; 0; 0]; [0; 0; 0; 0]]
               (replicate 4 (replicate 4 false)) (replicate 4 (replicate 4 false))
               {[(0, 0)]})
    = Ok b' /\
    consistent b' /\ size (mine_positions b') = 1%nat.
Proof.
  set (b := mkBoard 4 4 1 [[-1; 1; 0; 0]; [1; 1; 0; 0]; [0; 0; 0; 0]; [0; 0; 0; 0]]
                    (replicate 4 (replicate 4 false)) (replicate 4 (replicate 4 false))
                    {[(0, 0)]}).
  assert (Hnew : new_board 4 4 1 (fun _ => 0%nat) = Ok b) by (vm_compute; reflexivity).
  destruct (new_board_fresh 4 4 1 _ b Hnew) as (Hc & _).
  destruct (handle_mine_movement_safe Z elements (fun _ => true)
              (mkAI [] [(3, 3); (0, 3)] 1 1) b Hc)
    as (b' & E & Hc' & _ & Hsz & _).
  - intros s p. apply elem_of_elements.
  - exists b'. split; [exact E|]. split; [exact Hc'|]. rewrite Hsz. reflexivity.
Defined.

(** ** Transforming a tile *)

Lemma elem_of_unrevealed (b : Board) (p : cell) :
  p ∈ List.filter (fun c : cell => negb (is_revealed b c.1 c.2))
                  (all_positions (height b) (width b))
  <-> on_grid b p.1 p.2 /\ is_revealed b p.1 p.2 = false.
Proof.
  rewrite elem_of_List_filter, elem_of_all_positions, negb_true_iff. reflexivity.
Qed.

Lemma first_of_set_pick (s : gset cell) (r : nat) :
  s <> ∅ -> exists m, first_of_set s r = Ok m /\ m ∈ s.
Proof.
  intros Hne. unfold first_of_set.
  destruct (elements s) as [|c l] eqn:E.
  { exfalso. apply Hne. apply leibniz_equiv. apply elements_empty_iff. exact E. }
  destruct (randint_pick (c :: l) r) as (m & Lm & Gm); [discriminate|].
  exists m. split; [exact Gm|].
  apply elem_of_elements. rewrite E. eapply list_elem_of_lookup_2, Lm.
Qed.

Lemma spot_on_grid (b : Board) (r : nat) (p : cell) :
  wf b -> on_grid b p.1 p.2 ->
  exists spot, find_safe_transformation_spot b r = Ok spot /\ on_grid b spot.1 spot.2.
Proof.
  intros Hwf Hp. rewrite (find_safe_transformation_spot_spec b r Hwf).
  destruct (spot_candidates b) as [|c l] eqn:E.
  - exists (0, 0). split; [reflexivity|].
    unfold on_grid, in_bounds in *. cbn [fst snd]. lia.
  - destruct (randint_pick (c :: l) r) as (spot & Ls & Gs); [discriminate|].
    exists spot. split; [exact Gs|].
    assert (Hin : spot ∈ spot_candidates b)
      by (rewrite E; eapply list_elem_of_lookup_2, Ls).
    apply elem_of_spot_candidates in Hin. apply Hin.
Qed.

(** What [_transform_random_tile] does, by the cell it picks. *)
Lemma transform_random_tile_cases (b : Board) (r_pick r_spot r_first : nat)
      (coin : bool) :
  wf b ->
  (transform_random_tile b r_pick r_spot r_first coin = Ok b /\
   forall x y, on_grid b x y -> is_revealed b x y = true)
  \/
  exists p : cell,
    on_grid b p.1 p.2 /\ is_revealed b p.1 p.2 = false /\
    transform_random_tile b r_pick r_spot r_first coin
    = if bool_decide (p ∈ mine_positions b) then
        let* spot := find_safe_transformation_spot b r_spot in
        reposition_mine b p spot
      else if coin then
        let* old_mine_pos := first_of_set (mine_positions b) r_first in
        reposition_mine b old_mine_pos p
      else Ok b.
Proof.
  intros Hwf. unfold transform_random_tile.
  rewrite (unrevealed_cells_spec b Hwf), bind_Ok.
  destruct (List.filter (fun c : cell => negb (is_revealed b c.1 c.2))
                        (all_positions (height b) (width b))) as [|c0 l0] eqn:El.
  - left. split; [reflexivity|]. intros x y Hg.
    destruct (is_revealed b x y) eqn:Er; [reflexivity|]. exfalso.
    assert (Hin : (x, y) ∈ List.filter (fun c : cell => negb (is_revealed b c.1 c.2))
                                       (all_positions (height b) (width b)))
      by (apply elem_of_unrevealed; auto).
    rewrite El in Hin. apply elem_of_nil in Hin. exact Hin.
  - right. destruct (randint_pick (c0 :: l0) r_pick) as (p & Lp & Gp); [discriminate|].
    exists p.
    assert (Hin : p ∈ c0 :: l0) by (eapply list_elem_of_lookup_2, Lp).
    rewrite <- El in Hin. apply elem_of_unrevealed in Hin as [Hg Hr].
    split; [exact Hg|]. split; [exact Hr|].
    rewrite Gp, bind_Ok. reflexivity.
Qed.

Lemma transform_step (b : Board) (r_pick r_spot r_first : nat) (coin : bool) :
  consistent b -> mine_positions b <> ∅ ->
  exists b',
    transform_random_tile b r_pick r_spot r_first coin = Ok b' /\
    consistent b' /\ same_masks b b'.
Proof.
  intros Hc Hne. pose proof Hc as [Hwf _ Hmir _].
  destruct (transform_random_tile_cases b r_pick r_spot r_first coin Hwf)
    as [[E _]|(p & Hg & Hr & E)]; rewrite E.
  { exists b. auto using same_masks_refl. }
  case_bool_decide as Hp.
  - destruct (spot_on_grid b r_spot p Hwf Hg) as (spot & Es & Hgs).
    rewrite Es, bind_Ok.
    destruct (reposition_mine_consistent b p spot Hc Hg Hgs) as (b' & E' & Hc' & _).
    exists b'. split; [exact E'|]. split; [exact Hc'|].
    apply (reposition_mine_same_masks b b' p spot); assumption.
  - destruct coin; [|exists b; auto using same_masks_refl].
    destruct (first_of_set_pick (mine_positions b) r_first Hne) as (m & Em & Hm).
    rewrite Em, bind_Ok.
    destruct (reposition_mine_effect b m p Hc Hm Hg Hp) as (b' & E' & Hc' & Hs & _).
    exists b'. auto.
Qed.

Lemma mines_nonempty (b : Board) :
  consistent b -> 0 < mine_count b -> mine_positions b <> ∅.
Proof.
  intros [_ _ _ Hcnt] Hpos E. rewrite E, size_empty in Hcnt. simpl in Hcnt. lia.
Qed.

(** X18. [_transform_random_tile] on a consistent board with at least one
    mine never raises, whatever the draws: the board stays consistent,
    with the same masks, dimensions and number of mines. *)
Theorem transform_random_tile_safe (b : Board) (r_pick r_spot r_first : nat)
        (coin : bool) :
  consistent b -> 0 < mine_count b ->
  exists b',
    transform_random_tile b r_pick r_spot r_first coin = Ok b' /\
    consistent b' /\ same_masks b b' /\
    size (mine_positions b') = size (mine_positions b).
Proof.
  intros Hc Hpos.
  destruct (transform_step b r_pick r_spot r_first coin Hc (mines_nonempty b Hc Hpos))
    as (b' & E & Hc' & Hs).
  exists b'. split; [exact E|]. split; [exact Hc'|]. split; [exact Hs|].
  apply same_count; assumption.
Qed.

Lemma transform_random_tile_safe_witness :
  exists b',
    transform_random_tile corner_mine_board 4 0 0 true = Ok b' /\
    consistent b' /\ size (mine_positions b') = 1%nat.
Proof.
  assert (Hnew : new_board 3 3 1 (fun _ => 0%nat) = Ok corner_mine_board)
    by (vm_compute; reflexivity).
  destruct (new_board_fresh 3 3 1 _ _ Hnew) as (Hc & _).
  destruct (transform_random_tile_safe corner_mine_board 4 0 0 true Hc)
    as (b' & E & Hc' & _ & Hsz); [reflexivity|].
  exists b'. split; [exact E|]. split; [exact Hc'|]. rewrite Hsz. reflexivity.
Defined.

(** X19. On a well-shaped board without any mine that still has a hidden
    cell, [_transform_random_tile] raises [StopIteration] when the draw
    for turning a safe tile into a mine succeeds, since there is no mine
    to take; when it fails, the board is left as it is. *)
Theorem transform_random_tile_no_mines (b : Board) (r_pick r_spot r_first : nat) :
  wf b -> mine_positions b = ∅ ->
  (exists c : cell, on_grid b c.1 c.2 /\ is_revealed b c.1 c.2 = false) ->
  transform_random_tile b r_pick r_spot r_first true = Raise StopIteration /\
  transform_random_tile b r_pick r_spot r_first false = Ok b.
Proof.
  intros Hwf Hempty (c & Hgc & Hrc).
  split.
  - destruct (transform_random_tile_cases b r_pick r_spot r_first true Hwf)
      as [[_ Hall]|(p & Hg & Hr & E)].
    { rewrite (Hall _ _ Hgc) in Hrc. discriminate. }
    rewrite E, Hempty. rewrite bool_decide_false by apply not_elem_of_empty.
    unfold first_of_set. rewrite elements_empty. reflexivity.
  - destruct (transform_random_tile_cases b r_pick r_spot r_first false Hwf)
      as [[E _]|(p & Hg & Hr & E)]; [exact E|].
    rewrite E, Hempty. rewrite bool_decide_false by apply not_elem_of_empty.
    reflexivity.
Qed.

Lemma transform_random_tile_no_mines_witness :
  transform_random_tile empty_board 0 0 0 true = Raise StopIteration /\
  transform_random_tile empty_board 0 0 0 false = Ok empty_board.
Proof.
  apply (transform_random_tile_no_mines empty_board 0 0 0).
  - apply empty_board_wf.
  - reflexivity.
  - exists (0, 0). split; [|reflexivity]. unfold on_grid, in_bounds. simpl. lia.
Defined.

(** X20. When [_transform_random_tile] turns a safe tile into a mine, the
    new mine is on the hidden cell that was picked and the mine taken
    away is one of the board's: on a consistent board with a mine, if the
    picked cell holds no mine and the draw succeeds, one mine moves to
    the picked cell, and no revealed cell becomes a mine. *)
Theorem transform_random_tile_arms (b : Board) (r_pick r_spot r_first : nat)
        (unrevealed : list cell) (p : cell) :
  consistent b -> mine_positions b <> ∅ ->
  unrevealed_cells b = Ok unrevealed ->
  unrevealed !! Rng.randint (length unrevealed) r_pick = Some p ->
  (p ∉ mine_positions b) ->
  exists (m : cell) (b' : Board),
    m ∈ mine_positions b /\
    transform_random_tile b r_pick r_spot r_first true = Ok b' /\
    consistent b' /\ same_masks b b' /\
    mine_positions b' = mine_positions b ∖ {[m]} ∪ {[p]} /\
    is_revealed b p.1 p.2 = false /\ val b' p.1 p.2 = -1 /\
    no_mine_surfaced b b'.
Proof.
  intros Hc Hne Hun Hpick Hp. pose proof Hc as [Hwf _ Hmir _].
  rewrite (unrevealed_cells_spec b Hwf) in Hun. injection Hun as Hun.
  assert (Hin : p ∈ unrevealed) by (eapply list_elem_of_lookup_2, Hpick).
  rewrite <- Hun in Hin. apply elem_of_unrevealed in Hin as [Hg Hr].
  destruct (first_of_set_pick (mine_positions b) r_first Hne) as (m & Em & Hm).
  destruct (reposition_mine_effect b m p Hc Hm Hg Hp)
    as (b' & E' & Hc' & Hs & Hset & Hvp & _).
  exists m, b'. split; [exact Hm|]. split.
  - unfold transform_random_tile.
    rewrite (unrevealed_cells_spec b Hwf), bind_Ok, Hun.
    destruct unrevealed as [|c0 l0]; [discriminate|].
    destruct (randint_pick (c0 :: l0) r_pick) as (p' & Lp & Gp); [discriminate|].
    rewrite Hpick in Lp. injection Lp as <-.
    rewrite Gp, bind_Ok, bool_decide_false by exact Hp.
    rewrite Em, bind_Ok. exact E'.
  - split; [exact Hc'|]. split; [exact Hs|]. split; [exact Hset|].
    split; [exact Hr|]. split; [exact Hvp|].
    apply (no_mine_surfaced_move b b' m p); try assumption. apply Hc'.
Qed.

Lemma transform_random_tile_arms_witness :
  exists (m : cell) (b' : Board),
    m ∈ mine_positions corner_mine_board /\
    transform_random_tile corner_mine_board 4 0 0 true = Ok b' /\
    mine_positions b' = mine_positions corner_mine_board ∖ {[m]} ∪ {[(1, 1)]} /\
    val b' 1 1 = -1.
Proof.
  assert (Hnew : new_board 3 3 1 (fun _ => 0%nat) = Ok corner_mine_board)
    by (vm_compute; reflexivity).
  destruct (new_board_fresh 3 3 1 _ _ Hnew) as (Hc & _).
  destruct (transform_random_tile_arms corner_mine_board 4 0 0
              (all_positions 3 3) (1, 1) Hc)
    as (m & b' & Hm & E & _ & _ & Hset & _ & Hv & _).
  - apply (mines_nonempty _ Hc). reflexivity.
  - vm_compute. reflexivity.
  - vm_compute. reflexivity.
  - intros H. change ((1, 1) ∈ ({[(0, 0)]} : gset (Z * Z))) in H.
    apply elem_of_singleton in H. discriminate.
  - exists m, b'. auto.
Defined.
(** ** Adjusting the difficulty *)

Lemma count_true_zero (a : list (list bool)) h w :
  Np.shape a h w ->
  (forall x y, in_bounds h w x y -> Np.peek false a x y = false) ->
  Np.count_true a = 0.
Proof.
  intros Ha Hall.
  assert (Hrows : Forall (Forall (fun c => c = false)) a).
  { apply Forall_lookup. intros i row Hi. apply Forall_lookup. intros j c Hj.
    pose proof Ha as (Hh & Hw & La & Fa). rewrite Forall_forall in Fa.
    pose proof (lookup_lt_Some _ _ _ Hi) as Li.
    pose proof (lookup_lt_Some _ _ _ Hj) as Lj.
    rewrite (Fa row) in Lj by (eapply list_elem_of_lookup_2, Hi).
    assert (Hb : in_bounds h w (Z.of_nat i) (Z.of_nat j)) by (unfold in_bounds; lia).
    destruct (peek_lookup false a h w _ _ Ha Hb) as (row' & Hr' & Hv).
    rewrite Nat2Z.id in Hr', Hv. rewrite Hi in Hr'. injection Hr' as <-.
    rewrite Hj in Hv. injection Hv as ->. apply Hall, Hb. }
  clear Ha Hall. unfold Np.count_true.
  induction Hrows as [|row a Hrow _ IH]; simpl; [reflexivity|].
  rewrite IH, Z.add_0_r. clear IH.
  induction Hrow as [|c row Hc _ IH]; simpl; [reflexivity|].
  rewrite IH, Hc. reflexivity.
Qed.

Section Difficulty.

Variable F : Type.
Variables (f0_1 f0_5 f0_8 f1_0 f2_0 : F) (fadd fsub fdiv : F -> F -> F).
Variable of_int : Z -> F.
Variable flt : F -> F -> bool.

(** The comparison of floats that are not NaN is a strict weak order;
    0.5 is below 2.0; adding 0.1 does not make a float smaller and
    subtracting 0.1 does not make it larger. *)
Hypothesis flt_irrefl : forall a, flt a a = false.
Hypothesis flt_trans : forall a b c, flt a b = true -> flt b c = true -> flt a c = true.
Hypothesis flt_weak :
  forall a b c, flt a b = true -> flt a c = true \/ flt c b = true.
Hypothesis half_below_two : flt f0_5 f2_0 = true.
Hypothesis add_tenth : forall a, flt (fadd a f0_1) a = false.
Hypothesis sub_tenth : forall a, flt a (fsub a f0_1) = false.

Local Abbreviation adjust := (adjust_difficulty f0_1 f0_5 f0_8 f2_0 fadd fsub fdiv of_int flt).
Local Abbreviation update_state :=
  (update_board_state f0_1 f0_5 f0_8 f2_0 fadd fsub fdiv of_int flt).

Local Abbreviation in_range := (in_range f0_5 f2_0 flt).

Lemma flt_asym (a b : F) : flt a b = true -> flt b a = false.
Proof.
  intros H. destruct (flt b a) eqn:E; [|reflexivity].
  rewrite <- (flt_irrefl a). symmetry. apply (flt_trans a b a); assumption.
Qed.

Lemma in_range_raised (d : F) :
  in_range d -> in_range (py_min2 flt f2_0 (fadd d f0_1)).
Proof.
  intros [Hlo Hhi]. unfold py_min2, in_range.
  destruct (flt (fadd d f0_1) f2_0) eqn:E.
  - split; [|apply flt_asym, E].
    destruct (flt (fadd d f0_1) f0_5) eqn:E'; [|reflexivity].
    destruct (flt_weak _ _ d E') as [H|H]; [rewrite add_tenth in H|rewrite Hlo in H];
      discriminate.
  - split; [apply flt_asym, half_below_two|apply flt_irrefl].
Qed.

Lemma in_range_lowered (d : F) :
  in_range d -> in_range (py_max2 flt f0_5 (fsub d f0_1)).
Proof.
  intros [Hlo Hhi]. unfold py_max2, in_range.
  destruct (flt f0_5 (fsub d f0_1)) eqn:E.
  - split; [apply flt_asym, E|].
    destruct (flt f2_0 (fsub d f0_1)) eqn:E'; [|reflexivity].
    destruct (flt_weak _ _ d E') as [H|H]; [rewrite Hhi in H|rewrite sub_tenth in H];
      discriminate.
  - split; [apply flt_irrefl|apply flt_asym, half_below_two].
Qed.

Lemma count_successes (b : Board) (history : list cell) :
  wf b -> Forall (fun m : cell => on_grid b m.1 m.2) history ->
  forall n0, exists n,
    for_each history (fun m (n : Z) =>
      let '(x, y) := m in
      let* v := Np.getitem (board b) x y in
      if negb (v =? -1) then Ok (n + 1) else Ok n) n0 = Ok n.
Proof.
  intros Hwf Hall. induction Hall as [|[x y] l Hg _ IH]; intros n0; simpl.
  - exists n0. reflexivity.
  - cbn [fst snd] in Hg. rewrite (get_board b x y Hwf Hg). cbn [bind].
    destruct (negb (val b x y =? -1)); cbn [bind]; apply IH.
Qed.

Lemma adjust_difficulty_cases (ai : AIController F) (b : Board) :
  wf b -> Forall (fun m : cell => on_grid b m.1 m.2) (move_history ai) ->
  adjust ai b = Ok ai \/
  (0 < Np.count_true (revealed b) /\
   (adjust ai b
    = Ok (set_difficulty_factor ai
            (py_min2 flt f2_0 (fadd (difficulty_factor ai) f0_1))) \/
    adjust ai b
    = Ok (set_difficulty_factor ai
            (py_max2 flt f0_5 (fsub (difficulty_factor ai) f0_1))))).
Proof.
  intros Hwf Hall. unfold adjust_difficulty.
  destruct (Z.ltb_spec 0 (Np.count_true (revealed b))) as [Hpos|Hz]; [|left; reflexivity].
  destruct (count_successes b (move_history ai) Hwf Hall 0) as (n & ->).
  cbn [bind].
  destruct (flt f0_8 _); [right; split; [exact Hpos|left; reflexivity]|].
  destruct (flt _ f0_5); [right; split; [exact Hpos|right; reflexivity]|].
  left. reflexivity.
Qed.

Lemma adjust_difficulty_step (ai : AIController F) (b : Board) :
  wf b -> Forall (fun m : cell => on_grid b m.1 m.2) (move_history ai) ->
  in_range (difficulty_factor ai) ->
  exists ai',
    adjust ai b = Ok ai' /\ in_range (difficulty_factor ai') /\
    move_history ai' = move_history ai /\ danger_zones ai' = danger_zones ai /\
    transform_probability ai' = transform_probability ai.
Proof.
  intros Hwf Hall Hr.
  destruct (adjust_difficulty_cases ai b Hwf Hall) as [E|[_ [E|E]]];
    rewrite E; eexists; (split; [reflexivity|]); cbn [difficulty_factor
      move_history danger_zones transform_probability set_difficulty_factor].
  - auto.
  - split; [apply in_range_raised, Hr|auto].
  - split; [apply in_range_lowered, Hr|auto].
Qed.

(** X21. [_adjust_difficulty], for a history of moves on the grid, never
    raises and changes nothing but the difficulty factor.  A factor
    between 0.5 and 2.0 stays between 0.5 and 2.0: it is left alone,
    raised by 0.1 and capped at 2.0, or lowered by 0.1 and held at 0.5.
    While no cell is revealed it is left alone, so the division by the
    number of revealed cells is never a division by zero. *)
Theorem adjust_difficulty_bounded (ai : AIController F) (b : Board) :
  wf b -> Forall (fun m : cell => on_grid b m.1 m.2) (move_history ai) ->
  in_range (difficulty_factor ai) ->
  exists ai',
    adjust ai b = Ok ai' /\
    in_range (difficulty_factor ai') /\
    (difficulty_factor ai' = difficulty_factor ai \/
     difficulty_factor ai' = py_min2 flt f2_0 (fadd (difficulty_factor ai) f0_1) \/
     difficulty_factor ai' = py_max2 flt f0_5 (fsub (difficulty_factor ai) f0_1)) /\
    move_history ai' = move_history ai /\ danger_zones ai' = danger_zones ai /\
    transform_probability ai' = transform_probability ai /\
    ((forall x y, on_grid b x y -> is_revealed b x y = false) -> ai' = ai).
Proof.
  intros Hwf Hall Hr.
  destruct (adjust_difficulty_cases ai b Hwf Hall) as [E|[Hpos [E|E]]];
    rewrite E; eexists; (split; [reflexivity|]); cbn [difficulty_factor
      move_history danger_zones transform_probability set_difficulty_factor].
  - auto 10.
  - split; [apply in_range_raised, Hr|]. split; [auto|].
    repeat (split; [reflexivity|]). intros Hnone. exfalso.
    rewrite (count_true_zero (revealed b) (height b) (width b)) in Hpos;
      [lia|apply Hwf|exact Hnone].
  - split; [apply in_range_lowered, Hr|]. split; [auto|].
    repeat (split; [reflexivity|]). intros Hnone. exfalso.
    rewrite (count_true_zero (revealed b) (height b) (width b)) in Hpos;
      [lia|apply Hwf|exact Hnone].
Qed.

(** ** The whole update *)

Lemma update_board_state_step (order : gset cell -> list cell) (d : draws)
      (ai : AIController F) (b : Board) :
  consistent b -> 0 < mine_count b ->
  (forall (s : gset cell) p, p ∈ order s -> p ∈ s) ->
  Forall (fun m : cell => on_grid b m.1 m.2) (move_history ai) ->
  in_range (difficulty_factor ai) ->
  exists (b' : Board) (ai' : AIController F),
    update_state order d ai b = Ok (b', ai') /\
    consistent b' /\ same_masks b b' /\
    move_history ai' = move_history ai /\ danger_zones ai' = danger_zones ai /\
    transform_probability ai' = transform_probability ai /\
    in_range (difficulty_factor ai').
Proof.
  intros Hc Hpos Horder Hall Hr. unfold update_board_state, handle_mine_movement.
  destruct (drift_loop order
              (imap (fun n zone => (zone, zone_coin d n)) (danger_zones ai))
              Horder b Hc) as (b1 & E1 & Hc1 & Hs1 & _).
  rewrite E1, bind_Ok.
  assert (Hstep : exists b2,
            handle_tile_transformation b1 (transform_coin d) (pick_draw d)
              (spot_draw d) (first_draw d) (mine_coin d) = Ok b2 /\
            consistent b2 /\ same_masks b1 b2).
  { unfold handle_tile_transformation.
    destruct (transform_coin d); [|exists b1; auto using same_masks_refl].
    apply transform_step; [exact Hc1|]. apply (mines_nonempty b1 Hc1).
    destruct Hs1 as [_ _ Hcnt _ _]. rewrite Hcnt. exact Hpos. }
  destruct Hstep as (b2 & E2 & Hc2 & Hs2). rewrite E2, bind_Ok.
  pose proof (same_masks_trans b b1 b2 Hs1 Hs2) as Hs.
  destruct (adjust_difficulty_step ai b2) as (ai' & E3 & Hr' & Hh & Hz & Ht).
  - apply Hc2.
  - eapply Forall_impl; [exact Hall|]. intros m Hm.
    apply (same_masks_on_grid b b2); assumption.
  - exact Hr.
  - rewrite E3, bind_Ok. exists b2, ai'. split; [reflexivity|].
    split; [exact Hc2|]. split; [exact Hs|]. auto.
Qed.

(** X22. [update_board_state] on a consistent board with at least one
    mine, for a history of moves on the grid, never raises, whatever the
    draws.  The board stays consistent, with the same masks, dimensions
    and number of mines; the history, the danger zones and the transform
    probability are untouched; the difficulty factor stays between 0.5
    and 2.0. *)
Theorem update_board_state_safe (order : gset cell -> list cell) (d : draws)
        (ai : AIController F) (b : Board) :
  consistent b -> 0 < mine_count b ->
  (forall (s : gset cell) p, p ∈ order s <-> p ∈ s) ->
  Forall (fun m : cell => on_grid b m.1 m.2) (move_history ai) ->
  in_range (difficulty_factor ai) ->
  exists (b' : Board) (ai' : AIController F),
    update_state order d ai b = Ok (b', ai') /\
    consistent b' /\ same_masks b b' /\
    size (mine_positions b') = size (mine_positions b) /\
    move_history ai' = move_history ai /\ danger_zones ai' = danger_zones ai /\
    transform_probability ai' = transform_probability ai /\
    in_range (difficulty_factor ai').
Proof.
  intros Hc Hpos Horder Hall Hr.
  destruct (update_board_state_step order d ai b Hc Hpos
              (fun s p => proj1 (Horder s p)) Hall Hr)
    as (b' & ai' & E & Hc' & Hs & H).
  exists b', ai'. split; [exact E|]. split; [exact Hc'|]. split; [exact Hs|].
  split; [apply same_count; assumption|exact H].
Qed.

End Difficulty.

(** Integers, counting tenths, with their order are an instance of the
    float interface. *)
Lemma adjust_difficulty_bounded_witness :
  exists ai' : AIController Z,
    adjust_difficulty 1 5 8 20 Z.add Z.sub (fun a b => a / b)
      (fun z => 10 * z) Z.ltb (mkAI [(2, 2)] [] 20 1) (marked corner_mine_board 2 2)
    = Ok ai' /\
    in_range 5 20 Z.ltb (difficulty_factor ai').
Proof.
  destruct (adjust_difficulty_bounded Z 1 5 8 20 Z.add Z.sub (fun a b => a / b)
              (fun z => 10 * z) Z.ltb)
    with (ai := mkAI (F := Z) [(2, 2)] [] 20 1) (b := marked corner_mine_board 2 2)
    as (ai' & E & Hr & _).
  - apply Z.ltb_irrefl.
  - intros a b c. rewrite !Z.ltb_lt. lia.
  - intros a b c. rewrite !Z.ltb_lt. lia.
  - reflexivity.
  - intros a. apply Z.ltb_ge. lia.
  - intros a. apply Z.ltb_ge. lia.
  - repeat split; simpl; try lia; repeat constructor.
  - repeat constructor; simpl; lia.
  - split; reflexivity.
  - exists ai'. auto.
Defined.

Lemma update_board_state_safe_witness :
  exists (b' : Board) (ai' : AIController Z),
    update_board_state 1 5 8 20 Z.add Z.sub (fun a b => a / b)
      (fun z => 10 * z) Z.ltb elements
      (mkDraws (fun _ => true) true 4 0 0 true)
      (mkAI [(2, 2)] [(2, 2)] 10 1) corner_mine_board
    = Ok (b', ai') /\
    consistent b' /\ size (mine_positions b') = 1%nat /\
    in_range 5 20 Z.ltb (difficulty_factor ai').
Proof.
  assert (Hnew : new_board 3 3 1 (fun _ => 0%nat) = Ok corner_mine_board)
    by (vm_compute; reflexivity).
  destruct (new_board_fresh 3 3 1 _ _ Hnew) as (Hc & _).
  destruct (update_board_state_safe Z 1 5 8 20 Z.add Z.sub (fun a b => a / b)
              (fun z => 10 * z) Z.ltb)
    with (order := elements : gset (Z * Z) -> list (Z * Z))
         (d := mkDraws (fun _ => true) true 4 0 0 true)
         (ai := mkAI (F := Z) [(2, 2)] [(2, 2)] 10 1) (b := corner_mine_board)
    as (b' & ai' & E & Hc' & _ & Hsz & _ & _ & _ & Hr).
  - apply Z.ltb_irrefl.
  - intros a b c. rewrite !Z.ltb_lt. lia.
  - intros a b c. rewrite !Z.ltb_lt. lia.
  - reflexivity.
  - intros a. apply Z.ltb_ge. lia.
  - intros a. apply Z.ltb_ge. lia.
  - exact Hc.
  - reflexivity.
  - intros s p. apply elem_of_elements.
  - repeat constructor; simpl; lia.
  - split; reflexivity.
  - exists b', ai'. split; [exact E|]. split; [exact Hc'|].
    split; [rewrite Hsz; reflexivity|exact Hr].
Defined.
(** * Properties of the game loop *)

Lemma on_grid_dims (b b' : Board) (x y : Z) :
  width b' = width b -> height b' = height b -> on_grid b' x y <-> on_grid b x y.
Proof. intros Hw Hh. unfold on_grid. rewrite Hw, Hh. reflexivity. Qed.

Lemma toggle_flag_keeps (b : Board) (x y : Z) :
  consistent b -> on_grid b x y ->
  exists b', toggle_flag b x y = Ok b' /\ consistent b' /\
             width b' = width b /\ height b' = height b /\
             mine_count b' = mine_count b.
Proof.
  intros Hc Hg.
  destruct (toggle_flag_consistent b x y Hc Hg) as (b' & E & Hc' & Hw & Hh).
  exists b'. split; [exact E|]. split; [exact Hc'|]. split; [exact Hw|].
  split; [exact Hh|].
  rewrite (toggle_flag_spec b x y (cons_wf b Hc) Hg) in E.
  destruct (is_revealed b x y); injection E as <-; reflexivity.
Qed.

Lemma reveal_keeps (fuel : nat) (b : Board) (x y : Z) :
  consistent b -> on_grid b x y -> (hidden b <= fuel)%nat ->
  exists (r : bool) (b' : Board) (log : list cell),
    reveal fuel b x y = Ok (r, (b', log)) /\ consistent b' /\
    width b' = width b /\ height b' = height b /\ mine_count b' = mine_count b.
Proof.
  intros Hc Hg Hfuel. pose proof (cons_wf b Hc) as Hwf.
  destruct (reveal_frame fuel b x y Hwf Hg Hfuel) as (r & b' & log & E & G & _).
  exists r, b', log. split; [exact E|].
  split; [apply (consistent_grows b); assumption|]. split; [|split]; apply G.
Qed.

Section Play.

Variable F : Type.
Variables (f0_1 f0_5 f0_8 f2_0 : F) (fadd fsub fdiv : F -> F -> F).
Variable of_int : Z -> F.
Variable flt : F -> F -> bool.

(** The assumptions on floats of [Difficulty]. *)
Hypothesis flt_irrefl : forall a, flt a a = false.
Hypothesis flt_trans : forall a b c, flt a b = true -> flt b c = true -> flt a c = true.
Hypothesis flt_weak :
  forall a b c, flt a b = true -> flt a c = true \/ flt c b = true.
Hypothesis half_below_two : flt f0_5 f2_0 = true.
Hypothesis add_tenth : forall a, flt (fadd a f0_1) a = false.
Hypothesis sub_tenth : forall a, flt a (fsub a f0_1) = false.

Local Abbreviation click :=
  (mouse_button_down f0_1 f0_5 f0_8 f2_0 fadd fsub fdiv of_int flt).
Local Abbreviation ok := (game_ok f0_5 f2_0 flt).

(** A successful reveal at [(x, y)]: the move is recorded, the board is
    updated, and the game goes on with 10 points more. *)
Lemma after_reveal (order : gset cell -> list cell) (d : draws) (g : Game F)
      (b' : Board) (x y : Z) :
  ok g ->
  (forall (s : gset cell) p, p ∈ order s -> p ∈ s) ->
  consistent b' -> width b' = width (the_board g) ->
  height b' = height (the_board g) -> mine_count b' = mine_count (the_board g) ->
  on_grid (the_board g) x y ->
  exists g',
    (let* ai := record_move (the_ai (set_the_board g b')) x y in
     let* s := update_board_state f0_1 f0_5 f0_8 f2_0 fadd fsub fdiv of_int flt
                 order d ai (the_board (set_the_board g b')) in
     let g1 := set_the_ai (set_the_board (set_the_board g b') s.1) s.2 in
     Ok (set_score g1 (score g1 + 10))) = Ok g' /\
    ok g' /\
    width (the_board g') = width (the_board g) /\
    height (the_board g') = height (the_board g) /\
    score g' = score g + 10 /\
    move_history (the_ai g') = move_history (the_ai g) ++ [(x, y)] /\
    game_over g' = game_over g /\ flag_mode g' = flag_mode g.
Proof.
  intros [Hc Hsq Hm Hhist Hdf] Horder Hc' Hw Hh Hmc Hg.
  cbn [the_ai the_board set_the_board].
  destruct (record_move_result (the_ai g) x y) as (zones' & E1 & _).
  rewrite E1, bind_Ok.
  destruct (update_board_state_step F f0_1 f0_5 f0_8 f2_0 fadd fsub fdiv of_int flt
              flt_irrefl flt_trans flt_weak half_below_two add_tenth sub_tenth
              order d
              (mkAI (move_history (the_ai g) ++ [(x, y)]) zones'
                    (difficulty_factor (the_ai g)) (transform_probability (the_ai g)))
              b')
    as (b2 & ai2 & E2 & Hc2 & Hs2 & Hh2 & _ & _ & Hr2);
    cbn [move_history difficulty_factor]; try assumption.
  - rewrite Hmc. exact Hm.
  - apply Forall_app. split.
    + eapply Forall_impl; [exact Hhist|]. intros m Hm'.
      apply (on_grid_dims (the_board g) b'); assumption.
    + constructor; [|constructor]. apply (on_grid_dims (the_board g) b'); assumption.
  - rewrite E2, bind_Ok. eexists. split; [reflexivity|].
    cbn [the_board the_ai score game_over flag_mode set_score set_the_ai
         set_the_board fst snd].
    destruct Hs2 as [Hw2 Hh2' Hmc2 _ _].
    assert (Hwb : width b2 = width (the_board g)) by congruence.
    assert (Hhb : height b2 = height (the_board g)) by congruence.
    split.
    { split; cbn [the_board the_ai set_score set_the_ai set_the_board].
      - exact Hc2.
      - congruence.
      - rewrite Hmc2, Hmc. exact Hm.
      - rewrite Hh2. apply Forall_app. split.
        + eapply Forall_impl; [exact Hhist|]. intros m Hm'.
          apply (on_grid_dims (the_board g) b2); assumption.
        + constructor; [|constructor].
          apply (on_grid_dims (the_board g) b2); assumption.
      - exact Hr2. }
    split; [exact Hwb|]. split; [exact Hhb|]. split; [reflexivity|].
    split; [exact Hh2|]. split; reflexivity.
Qed.

Lemma ok_set_score (g : Game F) (v : Z) : ok g -> ok (set_score g v).
Proof. intros [H1 H2 H3 H4 H5]. split; assumption. Qed.

(** The cell a click at [pos] addresses, once the guard has let it pass. *)
Lemma guard_on_grid (g : Game F) (x y : Z) :
  width (the_board g) = height (the_board g) ->
  ((0 <=? (y - HEADER_HEIGHT) / TILE_SIZE)
   && ((y - HEADER_HEIGHT) / TILE_SIZE <? height (the_board g)))
  && ((0 <=? x / TILE_SIZE) && (x / TILE_SIZE <? width (the_board g))) = true ->
  on_grid (the_board g) (x / TILE_SIZE) ((y - HEADER_HEIGHT) / TILE_SIZE).
Proof.
  intros Hsq H. rewrite !andb_true_iff, !Z.leb_le, !Z.ltb_lt in H.
  unfold on_grid, in_bounds. lia.
Qed.

(** A click on a square board when the interpreter allows as many nested
    calls as there are hidden cells. *)
Lemma mouse_button_down_step (fuel : nat) (order : gset cell -> list cell)
      (d : draws) (g : Game F) (pos : Z * Z) (button : Z) :
  ok g ->
  (hidden (the_board g) <= fuel)%nat ->
  (forall (s : gset cell) p, p ∈ order s <-> p ∈ s) ->
  exists g',
    click fuel order d g pos button = Ok g' /\
    ok g' /\
    width (the_board g') = width (the_board g) /\
    height (the_board g') = height (the_board g) /\
    (score g' = score g \/ score g' = score g + 5 \/ score g' = score g + 10).
Proof.
  intros Hok Hfuel Horder. pose proof Hok as [Hc Hsq Hm Hhist Hdf].
  destruct pos as [x y]. unfold mouse_button_down.
  destruct (_ && _) eqn:Eg; [|exists g; auto 10].
  pose proof (guard_on_grid g x y Hsq Eg) as Hg.
  set (bx := x / TILE_SIZE) in *. set (by_ := (y - HEADER_HEIGHT) / TILE_SIZE) in *.
  destruct (button =? 1).
  - destruct (flag_mode g).
    + destruct (toggle_flag_keeps _ bx by_ Hc Hg) as (b' & E & Hc' & Hw & Hh & Hmc).
      rewrite E, bind_Ok. eexists. split; [reflexivity|].
      cbn [the_board the_ai score set_the_board]. split; [|auto].
      split; cbn [the_board the_ai set_the_board]; try assumption; try congruence.
      eapply Forall_impl; [exact Hhist|]. intros m Hm'.
      apply (on_grid_dims (the_board g) b'); assumption.
    + rewrite (get_flagged _ bx by_ (cons_wf _ Hc) Hg), bind_Ok.
      destruct (is_flagged (the_board g) bx by_); cbn [negb]; [exists g; auto 10|].
      destruct (reveal_keeps fuel _ bx by_ Hc Hg Hfuel)
        as (r & b' & log & E & Hc' & Hw & Hh & Hmc).
      rewrite E, bind_Ok. cbn [fst snd].
      destruct r; cbn [negb].
      * destruct (after_reveal order d g b' bx by_ Hok
                    (fun s p => proj1 (Horder s p)) Hc' Hw Hh Hmc Hg)
          as (g' & E' & Hok' & Hw' & Hh' & Hs' & _).
        exists g'. split; [exact E'|]. auto 10.
      * eexists. split; [reflexivity|].
        cbn [the_board the_ai score set_the_board set_game_over]. split; [|auto].
        split; cbn [the_board the_ai set_the_board set_game_over];
          try assumption; try congruence.
        eapply Forall_impl; [exact Hhist|]. intros m Hm'.
        apply (on_grid_dims (the_board g) b'); assumption.
  - destruct (button =? 3); [|exists g; auto 10].
    destruct (toggle_flag_keeps _ bx by_ Hc Hg) as (b' & E & Hc' & Hw & Hh & Hmc).
    rewrite E, bind_Ok. cbn [the_board set_the_board].
    rewrite (get_flagged b' bx by_ (cons_wf _ Hc')), bind_Ok
      by (apply (on_grid_dims (the_board g) b'); assumption).
    assert (Hok' : ok (set_the_board g b')).
    { split; cbn [the_board the_ai set_the_board]; try assumption; try congruence.
      eapply Forall_impl; [exact Hhist|]. intros m Hm'.
      apply (on_grid_dims (the_board g) b'); assumption. }
    destruct (is_flagged b' bx by_); eexists; (split; [reflexivity|]);
      cbn [the_board the_ai score set_the_board set_score];
      (split; [try apply ok_set_score; exact Hok'|auto 10]).
Qed.

(** A click that stays within the depth allowed is the same click when
    more depth is allowed. *)
Lemma mouse_button_down_deeper (fuel fuel' : nat) (order : gset cell -> list cell)
      (d : draws) (g : Game F) (pos : Z * Z) (button : Z) :
  (fuel <= fuel')%nat ->
  click fuel order d g pos button <> OutOfFuel ->
  click fuel' order d g pos button = click fuel order d g pos button.
Proof.
  intros Hle. destruct pos as [x y]. unfold mouse_button_down.
  destruct (_ && _); [|auto].
  destruct (button =? 1); [|auto].
  destruct (flag_mode g); [auto|].
  destruct (Np.getitem _ _ _) as [f| |]; cbn [bind]; [|auto|auto].
  destruct (negb f); [|auto].
  intros H. rewrite (reveal_deeper fuel fuel' _ _ _ Hle); [reflexivity|].
  intros E. apply H. rewrite E. reflexivity.
Qed.

(** X23. On a square board, as all three presets are, the handling of a
    mouse click raises nothing but [RecursionError], wherever the click
    lands and whichever button it is, and [RecursionError] only when the
    interpreter allows fewer nested calls than the board has hidden
    cells.  In every other case it returns: the board stays consistent
    with its dimensions, the recorded moves stay on the grid, the
    difficulty factor stays between 0.5 and 2.0, and the score stays as
    it is or grows by 5 or by 10. *)
Theorem mouse_button_down_safe (fuel : nat) (order : gset cell -> list cell)
        (d : draws) (g : Game F) (pos : Z * Z) (button : Z) :
  ok g ->
  (forall (s : gset cell) p, p ∈ order s <-> p ∈ s) ->
  (click fuel order d g pos button = OutOfFuel /\
   (fuel < hidden (the_board g))%nat) \/
  exists g',
    click fuel order d g pos button = Ok g' /\
    ok g' /\
    width (the_board g') = width (the_board g) /\
    height (the_board g') = height (the_board g) /\
    (score g' = score g \/ score g' = score g + 5 \/ score g' = score g + 10).
Proof.
  intros Hok Horder.
  destruct (mouse_button_down_step (Nat.max fuel (hidden (the_board g)))
              order d g pos button Hok (Nat.le_max_r _ _) Horder) as (g' & E & H).
  pose proof (mouse_button_down_deeper fuel (Nat.max fuel (hidden (the_board g)))
                order d g pos button (Nat.le_max_l _ _)) as Hd.
  destruct (click fuel order d g pos button) as [g1|e|] eqn:E1.
  - right. exists g'. split; [|exact H]. rewrite <- E. symmetry. apply Hd.
    discriminate.
  - exfalso. rewrite Hd in E by discriminate. discriminate.
  - left. split; [reflexivity|].
    destruct (le_lt_dec (hidden (the_board g)) fuel) as [Hge|Hlt]; [|exact Hlt].
    destruct (mouse_button_down_step fuel order d g pos button Hok Hge Horder)
      as (g2 & E2 & _).
    rewrite E1 in E2. discriminate.
Qed.

(** X24. A left click outside flag mode on a cell that is revealed
    already, and not flagged, counts as a successful reveal once more:
    the move is recorded, [update_board_state] runs on the board as it
    is, and the game goes on with the board and the controller that the
    update returns and with 10 points more. *)
Theorem click_on_revealed_cell_scores (fuel : nat) (order : gset cell -> list cell)
        (d : draws) (g : Game F) (x y : Z) :
  ok g ->
  (forall (s : gset cell) p, p ∈ order s <-> p ∈ s) ->
  flag_mode g = false ->
  on_grid (the_board g) (x / TILE_SIZE) ((y - HEADER_HEIGHT) / TILE_SIZE) ->
  is_flagged (the_board g) (x / TILE_SIZE) ((y - HEADER_HEIGHT) / TILE_SIZE) = false ->
  is_revealed (the_board g) (x / TILE_SIZE) ((y - HEADER_HEIGHT) / TILE_SIZE) = true ->
  exists (ai1 : AIController F) (b2 : Board) (ai2 : AIController F) (g' : Game F),
    record_move (the_ai g) (x / TILE_SIZE) ((y - HEADER_HEIGHT) / TILE_SIZE) = Ok ai1 /\
    update_board_state f0_1 f0_5 f0_8 f2_0 fadd fsub fdiv of_int flt
      order d ai1 (the_board g) = Ok (b2, ai2) /\
    click fuel order d g (x, y) 1 = Ok g' /\
    g' = set_score (set_the_ai (set_the_board g b2) ai2) (score g + 10) /\
    the_board g' = b2 /\ the_ai g' = ai2 /\
    score g' = score g + 10 /\
    move_history (the_ai g')
    = move_history (the_ai g) ++ [(x / TILE_SIZE, (y - HEADER_HEIGHT) / TILE_SIZE)] /\
    game_over g' = game_over g /\
    consistent b2 /\ same_masks (the_board g) b2.
Proof.
  intros Hok Horder Hfm Hg Hf Hr. pose proof Hok as [Hc Hsq Hm Hhist Hdf].
  unfold mouse_button_down.
  set (bx := x / TILE_SIZE) in *. set (by_ := (y - HEADER_HEIGHT) / TILE_SIZE) in *.
  assert (Eg : ((0 <=? by_) && (by_ <? height (the_board g)))
               && ((0 <=? bx) && (bx <? width (the_board g))) = true).
  { unfold on_grid, in_bounds in Hg.
    rewrite !andb_true_iff, !Z.leb_le, !Z.ltb_lt. lia. }
  rewrite Eg. cbn [Z.eqb Pos.eqb]. rewrite Hfm.
  rewrite (get_flagged _ bx by_ (cons_wf _ Hc) Hg), bind_Ok, Hf. cbn [negb].
  rewrite (reveal_noop fuel _ bx by_ (cons_wf _ Hc) Hg) by (right; exact Hr).
  rewrite bind_Ok. cbn [fst snd negb the_ai the_board set_the_board].
  destruct (record_move_result (the_ai g) bx by_) as (zones' & E1 & _).
  rewrite E1, bind_Ok.
  destruct (update_board_state_step F f0_1 f0_5 f0_8 f2_0 fadd fsub fdiv of_int flt
              flt_irrefl flt_trans flt_weak half_below_two add_tenth sub_tenth
              order d
              (mkAI (move_history (the_ai g) ++ [(bx, by_)]) zones'
                    (difficulty_factor (the_ai g)) (transform_probability (the_ai g)))
              (the_board g))
    as (b2 & ai2 & E2 & Hc2 & Hs2 & Hh2 & _ & _ & Hr2);
    cbn [move_history difficulty_factor]; try assumption.
  - intros s p. apply Horder.
  - apply Forall_app. split; [exact Hhist|]. constructor; [exact Hg|constructor].
  - rewrite E2, bind_Ok. eexists _, b2, ai2, _.
    split; [reflexivity|]. split; [exact E2|]. split; [reflexivity|].
    cbn [the_board the_ai score game_over set_score set_the_ai set_the_board fst snd].
    split; [reflexivity|]. split; [reflexivity|]. split; [reflexivity|].
    split; [reflexivity|]. split; [exact Hh2|]. split; [reflexivity|].
    split; [exact Hc2|exact Hs2].
Qed.

(** X25. The guard of a click compares the column index with the width
    and the row index with the height, yet the board is indexed by the
    column index first.  On a board that is wider than it is high, a
    click in a column beyond the height passes the guard and raises
    [IndexError], with either button. *)
Theorem click_off_square_raises (fuel : nat) (order : gset cell -> list cell)
        (d : draws) (g : Game F) (x y : Z) (button : Z) :
  wf (the_board g) ->
  0 <= (y - HEADER_HEIGHT) / TILE_SIZE < height (the_board g) ->
  height (the_board g) <= x / TILE_SIZE < width (the_board g) ->
  button = 1 \/ button = 3 ->
  click fuel order d g (x, y) button = Raise IndexError.
Proof.
  intros (Hb & Hr & Hf) Hy Hx Hbutton. unfold mouse_button_down.
  set (bx := x / TILE_SIZE) in *. set (by_ := (y - HEADER_HEIGHT) / TILE_SIZE) in *.
  assert (Eg : ((0 <=? by_) && (by_ <? height (the_board g)))
               && ((0 <=? bx) && (bx <? width (the_board g))) = true).
  { rewrite !andb_true_iff, !Z.leb_le, !Z.ltb_lt. lia. }
  rewrite Eg.
  assert (Hout : ~ (- height (the_board g) <= bx < height (the_board g)
                    /\ - width (the_board g) <= by_ < width (the_board g))) by lia.
  destruct Hbutton as [-> | ->]; cbn [Z.eqb Pos.eqb].
  - destruct (flag_mode g).
    + unfold toggle_flag. rewrite (getitem_out _ _ _ bx by_ Hr Hout). reflexivity.
    + rewrite (getitem_out _ _ _ bx by_ Hf Hout). reflexivity.
  - unfold toggle_flag. rewrite (getitem_out _ _ _ bx by_ Hr Hout). reflexivity.
Qed.

End Play.

Lemma update_cases (F : Type) (t : Z) (g : Game F) :
  the_board (update t g) = the_board g /\
  game_started (update t g) = game_started g /\
  ((game_over g = false /\ game_started g = true /\ is_won (the_board g) = true /\
    game_over (update t g) = true /\ won (update t g) = true /\
    score (update t g) = score g + Z.max 0 (1000 - (t - start_time g) / 1000) /\
    best_score (update t g) = Z.max (best_score g) (score (update t g)))
   \/
   ((game_over g = true \/ game_started g = false \/ is_won (the_board g) = false) /\
    game_over (update t g) = game_over g /\
    score (update t g) = score g /\ best_score (update t g) = best_score g)).
Proof.
  destruct g as [b ai fm over w cd sh hp started sc st best lv].
  unfold update.
  cbn [the_board the_ai flag_mode game_over won hint_cooldown show_hint
       hint_position game_started score start_time best_score difficulty].
  destruct (0 <? cd);
    cbn [the_board the_ai flag_mode game_over won hint_cooldown show_hint
         hint_position game_started score start_time best_score difficulty
         set_hint_cooldown set_won set_game_over set_score set_best_score];
    (destruct over; cbn [negb andb]; [auto 10|]);
    (destruct started; [|auto 10]);
    (destruct (is_won b) eqn:Ew; [|auto 10]);
    (destruct (Z.ltb_spec best (sc + Z.max 0 (1000 - (t - st) / 1000))) as [Hb|Hb]);
    cbn [the_board the_ai flag_mode game_over won hint_cooldown show_hint
         hint_position game_started score start_time best_score difficulty
         set_hint_cooldown set_won set_game_over set_score set_best_score];
    (split; [reflexivity|]); (split; [reflexivity|]); left;
    repeat (split; [reflexivity|]); lia.
Qed.

(** X26. [Game.update] awards the time bonus once: when the game is
    running and the board is won, the game is over afterwards, with the
    score raised by [max(0, 1000 - seconds)] and the best score at least
    the score; a further update changes neither the score, nor the best
    score, nor whether the game is over.  An update never lowers the
    score or the best score. *)
Theorem update_awards_once (F : Type) (t1 t2 : Z) (g : Game F) :
  score (update t2 (update t1 g)) = score (update t1 g) /\
  best_score (update t2 (update t1 g)) = best_score (update t1 g) /\
  game_over (update t2 (update t1 g)) = game_over (update t1 g) /\
  score g <= score (update t1 g) /\
  best_score g <= best_score (update t1 g) /\
  (game_over g = false -> game_started g = true -> is_won (the_board g) = true ->
   game_over (update t1 g) = true /\ won (update t1 g) = true /\
   score (update t1 g) = score g + Z.max 0 (1000 - (t1 - start_time g) / 1000) /\
   score (update t1 g) <= best_score (update t1 g)).
Proof.
  destruct (update_cases F t1 g) as (Hb1 & Hs1 & H1).
  destruct (update_cases F t2 (update t1 g)) as (_ & _ & H2).
  rewrite Hb1, Hs1 in H2.
  destruct H1 as [(Ho & Hst & Hw & Ho1 & Hw1 & Hsc1 & Hbs1)
                 |(Hno & Ho1 & Hsc1 & Hbs1)];
    destruct H2 as [(Ho' & Hst' & Hw' & _)|(_ & Ho2 & Hsc2 & Hbs2)];
    try congruence.
  - do 5 (split; [first [assumption|lia|congruence]|]). intros _ _ _.
    do 3 (split; [assumption|]). lia.
  - exfalso. rewrite Ho1 in Ho'. destruct Hno as [H|[H|H]]; congruence.
  - do 5 (split; [first [assumption|lia|congruence]|]). intros H3 H4 H5.
    exfalso. destruct Hno as [H|[H|H]]; congruence.
Qed.
(** Integers, counting tenths, with their order are an instance of the
    float interface; the game below is the 3x3 board with its mine in the
    corner, and the click lands on the cell (2, 2). *)
Lemma mouse_button_down_safe_witness :
  exists g' : Game Z,
    mouse_button_down 1 5 8 20 Z.add Z.sub (fun a b => a / b) (fun z => 10 * z)
      Z.ltb 9 elements (mkDraws (fun _ => true) true 4 0 0 true)
      (mkGame corner_mine_board (new_controller 1 10) false false false 0 false
              None true 0 0 0 Medium)
      (85, 145) 1 = Ok g' /\
    consistent (the_board g') /\
    (score g' = 0 \/ score g' = 0 + 5 \/ score g' = 0 + 10).
Proof.
  assert (Hnew : new_board 3 3 1 (fun _ => 0%nat) = Ok corner_mine_board)
    by (vm_compute; reflexivity).
  destruct (new_board_fresh 3 3 1 _ _ Hnew) as (Hc & _).
  destruct (mouse_button_down_safe Z 1 5 8 20 Z.add Z.sub (fun a b => a / b)
              (fun z => 10 * z) Z.ltb)
    with (fuel := 9%nat) (order := elements : gset (Z * Z) -> list (Z * Z))
         (d := mkDraws (fun _ => true) true 4 0 0 true)
         (g := mkGame corner_mine_board (new_controller (F := Z) 1 10) false false
                      false 0 false None true 0 0 0 Medium)
         (pos := (85, 145)) (button := 1)
    as [[_ Hlt]|(g' & E & Hok & _ & _ & Hs)].
  - apply Z.ltb_irrefl.
  - intros a b c. rewrite !Z.ltb_lt. lia.
  - intros a b c. rewrite !Z.ltb_lt. lia.
  - reflexivity.
  - intros a. apply Z.ltb_ge. lia.
  - intros a. apply Z.ltb_ge. lia.
  - split; cbn [the_board the_ai]; [exact Hc|reflexivity|reflexivity|constructor|].
    split; reflexivity.
  - intros s p. apply elem_of_elements.
  - exfalso. vm_compute in Hlt. lia.
  - exists g'. split; [exact E|]. split; [apply Hok|exact Hs].
Defined.

Lemma click_on_revealed_cell_scores_witness :
  exists (b2 : Board) (ai2 : AIController Z) (g' : Game Z),
    update_board_state 1 5 8 20 Z.add Z.sub (fun a b => a / b) (fun z => 10 * z)
      Z.ltb elements (mkDraws (fun _ => false) true 0 0 0 true)
      (mkAI [(2, 2); (2, 2)] [] 10 1) (marked corner_mine_board 2 2) = Ok (b2, ai2) /\
    mouse_button_down 1 5 8 20 Z.add Z.sub (fun a b => a / b) (fun z => 10 * z)
      Z.ltb 0 elements (mkDraws (fun _ => false) true 0 0 0 true)
      (mkGame (marked corner_mine_board 2 2) (mkAI [(2, 2)] [] 10 1) false false
              false 0 false None true 10 0 0 Medium)
      (85, 145) 1 = Ok g' /\
    the_board g' = b2 /\ the_ai g' = ai2 /\
    score g' = 10 + 10 /\
    move_history (the_ai g') = [(2, 2)] ++ [(85 / TILE_SIZE, (145 - HEADER_HEIGHT) / TILE_SIZE)].
Proof.
  assert (Hnew : new_board 3 3 1 (fun _ => 0%nat) = Ok corner_mine_board)
    by (vm_compute; reflexivity).
  destruct (new_board_fresh 3 3 1 _ _ Hnew) as (Hc & _).
  assert (Hg : on_grid corner_mine_board 2 2) by (unfold on_grid, in_bounds; simpl; lia).
  assert (Hc' : consistent (marked corner_mine_board 2 2)).
  { apply (consistent_grows corner_mine_board); [exact Hc|].
    apply grows_marked; [apply Hc|exact Hg]. }
  destruct (click_on_revealed_cell_scores Z 1 5 8 20 Z.add Z.sub (fun a b => a / b)
              (fun z => 10 * z) Z.ltb)
    with (fuel := 0%nat) (order := elements : gset (Z * Z) -> list (Z * Z))
         (d := mkDraws (fun _ => false) true 0 0 0 true)
         (g := mkGame (marked corner_mine_board 2 2) (mkAI (F := Z) [(2, 2)] [] 10 1)
                      false false false 0 false None true 10 0 0 Medium)
         (x := 85) (y := 145)
    as (ai1 & b2 & ai2 & g' & E1 & E2 & E & _ & Hb & Ha & Hs & Hh & _).
  - apply Z.ltb_irrefl.
  - intros a b c. rewrite !Z.ltb_lt. lia.
  - intros a b c. rewrite !Z.ltb_lt. lia.
  - reflexivity.
  - intros a. apply Z.ltb_ge. lia.
  - intros a. apply Z.ltb_ge. lia.
  - split; cbn [the_board the_ai move_history difficulty_factor];
      [exact Hc'|reflexivity|reflexivity| |split; reflexivity].
    constructor; [exact Hg|constructor].
  - intros s p. apply elem_of_elements.
  - reflexivity.
  - exact Hg.
  - reflexivity.
  - reflexivity.
  - assert (Hai : ai1 = mkAI [(2, 2); (2, 2)] [] 10 1)
      by (vm_compute in E1; congruence).
    rewrite Hai in E2. exists b2, ai2, g'. auto 10.
Defined.

Lemma click_off_square_raises_witness :
  mouse_button_down 1 5 8 20 Z.add Z.sub (fun a b => a / b) (fun z => 10 * z)
    Z.ltb 6 elements (mkDraws (fun _ => false) false 0 0 0 false)
    (mkGame (mkBoard 3 2 0 (replicate 2 (replicate 3 0))
                     (replicate 2 (replicate 3 false))
                     (replicate 2 (replicate 3 false)) ∅)
            (new_controller (F := Z) 1 10) false false false 0 false None true 0 0 0
            Medium)
    (85, 65) 3 = Raise IndexError.
Proof.
  apply (click_off_square_raises Z 1 5 8 20 Z.add Z.sub (fun a b => a / b)
           (fun z => 10 * z) Z.ltb).
  - repeat split; simpl; try lia; repeat constructor.
  - vm_compute. split; [discriminate|reflexivity].
  - vm_compute. split; [discriminate|reflexivity].
  - right. reflexivity.
Defined.
